(** * Job orchestration engine of the runner: a shallow embedding

    The development follows the layout of the Python package:

    - [Py]          the pieces of the Python runtime the code relies on
                    (exceptions, binary64 floats, insertion-ordered dicts,
                    [range], slices, truthiness);
    - [Schemas]     [app/models/schemas.py];
    - [Evaluation]  the progress helper of [app/services/evaluation.py];
    - [TestRunner]  [run_flow_spec_tests] of [app/services/test_runner.py];
    - [JobWorker]   [app/workers/job_worker.py], the registry and its
                    lifecycle state machine;
    - [Api]         the cancel and list routes of [app/api/jobs.py];
    - [Aux]         what the proofs need beside: the view of the worker
                    record by record, the invariant, sample data.

    Integers are Python integers, hence [Z].  Floats are IEEE binary64,
    computed with the executable specification of [SpecFloat].  The registry
    is a Python [dict], whose iteration order is the insertion order, hence an
    association list.  Every critical section [async with jobs_lock] is a
    function from registry to registry; the wall clock read by [utcnow()]
    is an argument. *)

From Stdlib Require Import ZArith List String Bool Lia.
From Stdlib Require Import Permutation Sorted SpecFloat.
Import ListNotations.

Local Open Scope string_scope.
Local Open Scope bool_scope.
Local Open Scope Z_scope.

(* ================================================================== *)
(** * Python runtime *)
(* ================================================================== *)

Module Py.

(** Values that cross the JSON boundary.  Every dict of this program is keyed
    by strings; [VObj] stands for any other object and carries the text that
    [str()] gives for it. *)
#[warnings="-register-all"]
Inductive value :=
| VNone
| VBool (b : bool)
| VInt (z : Z)
| VFloat (f : spec_float)
| VStr (s : string)
| VList (items : list value)
| VTuple (items : list value)
| VDict (entries : list (string * value))
| VObj (repr : string).

(** Exceptions, by class; [TimeoutError] is the class [asyncio.TimeoutError]
    names. *)
Inductive exn :=
| ValueError (msg : string)
| ZeroDivisionError (msg : string)
| OverflowError (msg : string)
| KeyError (key : string)
| TimeoutError (msg : string)
| RuntimeError (msg : string)
| ValidationError (errors : value) (text : string).

(** [str(exc)] *)
Definition exn_str (e : exn) : string :=
  match e with
  | ValueError m | ZeroDivisionError m | OverflowError m
  | TimeoutError m | RuntimeError m => m
  | KeyError k => String.append "'" (String.append k "'")
  | ValidationError _ text => text
  end.

Inductive res (A : Type) :=
| Ok (a : A)
| Raise (e : exn).
Arguments Ok {A} a.
Arguments Raise {A} e.

Definition bind {A B} (m : res A) (k : A -> res B) : res B :=
  match m with
  | Ok a => k a
  | Raise e => Raise e
  end.

Declare Scope py_scope.
Delimit Scope py_scope with py.
Notation "x <- m ;; k" := (bind m (fun x => k))
  (at level 61, m at next level, right associativity) : py_scope.

(** ** binary64 *)

Definition prec : Z := 53.
Definition emax : Z := 1024.

(** [float(n)] as an operand: the integer itself, as a float that is not yet
    rounded; the operations below round what they compute to binary64. *)
Definition float_of_int (n : Z) : spec_float :=
  match n with
  | Z0 => S754_zero false
  | Zpos p => S754_finite false p 0
  | Zneg p => S754_finite true p 0
  end.

(** [a / b] on integers: the correctly rounded quotient. *)
Definition truediv (a b : Z) : res spec_float :=
  if b =? 0 then Raise (ZeroDivisionError "division by zero")
  else Ok (SFdiv prec emax (float_of_int a) (float_of_int b)).

(** [x * n] for a float [x] and an integer [n]. *)
Definition fmul_int (x : spec_float) (n : Z) : spec_float :=
  SFmul prec emax x (float_of_int n).

(** [int(x)]: truncation toward zero. *)
Definition int_of_float (x : spec_float) : res Z :=
  match x with
  | S754_zero _ => Ok 0
  | S754_finite s m e =>
      let a := match e with
               | Zneg k => Z.shiftr (Zpos m) (Zpos k)
               | _ => Z.shiftl (Zpos m) e
               end in
      Ok (if s then - a else a)
  | S754_infinity _ => Raise (OverflowError "cannot convert float infinity to integer")
  | S754_nan => Raise (ValueError "cannot convert float NaN to integer")
  end.

(** [int((a / b) * n)], the expression of every progress computation. *)
Definition int_ratio_times (a b n : Z) : res Z :=
  bind (truediv a b) (fun q => int_of_float (fmul_int q n)).

(** ** dict: insertion ordered *)

Definition dict (V : Type) := list (string * V).

Fixpoint dict_get {V} (k : string) (d : dict V) : option V :=
  match d with
  | [] => None
  | (k', v) :: d' => if String.eqb k k' then Some v else dict_get k d'
  end.

(** [d[k] = v]: an existing key keeps its position, a new key goes last. *)
Fixpoint dict_set {V} (k : string) (v : V) (d : dict V) : dict V :=
  match d with
  | [] => [(k, v)]
  | (k', v') :: d' =>
      if String.eqb k k' then (k', v) :: d' else (k', v') :: dict_set k v d'
  end.

Definition dict_values {V} (d : dict V) : list V := map snd d.
Definition dict_keys {V} (d : dict V) : list string := map fst d.

(** ** truthiness, [bool(v)] *)

Definition float_is_zero (f : spec_float) : bool :=
  match f with
  | S754_zero _ => true
  | _ => false
  end.

Definition truthy (v : value) : bool :=
  match v with
  | VNone => false
  | VBool b => b
  | VInt z => negb (z =? 0)
  | VFloat f => negb (float_is_zero f)
  | VStr s => negb (String.eqb s "")
  | VList l | VTuple l => match l with [] => false | _ => true end
  | VDict d => match d with [] => false | _ => true end
  | VObj _ => true
  end.

(** [v[k]]: a missing key raises. *)
Definition subscript (v : value) (k : string) : res value :=
  match v with
  | VDict d => match dict_get k d with
               | Some x => Ok x
               | None => Raise (KeyError k)
               end
  | _ => Raise (ValueError "object is not subscriptable")
  end.

(** [v == s] for a string literal [s]. *)
Definition eq_str (v : value) (s : string) : bool :=
  match v with
  | VStr s' => String.eqb s' s
  | _ => false
  end.

(** [d.get(k)] on a value: [None] when the key is missing. *)
Definition value_get (v : value) (k : string) : value :=
  match v with
  | VDict d => match dict_get k d with Some x => x | None => VNone end
  | _ => VNone
  end.

Definition is_dict (v : value) : bool :=
  match v with
  | VDict _ => true
  | _ => false
  end.

(** ** [list.sort(key=..., reverse=True)]

    The sort is stable: records with equal keys keep their order. *)

Fixpoint insert_desc {A} (key : A -> Z) (x : A) (l : list A) : list A :=
  match l with
  | [] => [x]
  | y :: l' => if key x <? key y then y :: insert_desc key x l'
               else x :: y :: l'
  end.

Definition sort_desc {A} (key : A -> Z) (l : list A) : list A :=
  fold_right (insert_desc key) [] l.

(** [asyncio.gather] of calls that may raise. *)
Fixpoint gather {A} (calls : list (res A)) : res (list A) :=
  match calls with
  | [] => Ok []
  | c :: rest =>
      match c with
      | Ok a => match gather rest with
                | Ok l => Ok (a :: l)
                | Raise e => Raise e
                end
      | Raise e => Raise e
      end
  end.

(** ** [range(0, stop, step)] and slices *)

(** The offsets [0, step, 2*step, ...] below [stop]; [step = 0] raises, a
    negative [step] gives the empty range. *)
Definition range0 (stop step : Z) : res (list Z) :=
  if step =? 0 then Raise (ValueError "range() arg 3 must not be zero")
  else if (step <? 0) || (stop <=? 0) then Ok []
  else Ok (map (fun k => Z.of_nat k * step)
               (seq 0 (Z.to_nat ((stop + step - 1) / step)))).

(** An index of a slice, brought into [0, len]. *)
Definition slice_index (len i : Z) : nat :=
  Z.to_nat (Z.min len (Z.max 0 (if i <? 0 then len + i else i))).

(** [l[lo:hi]] *)
Definition slice {A} (l : list A) (lo hi : Z) : list A :=
  let len := Z.of_nat (List.length l) in
  let a := slice_index len lo in
  let b := slice_index len hi in
  firstn (b - a)%nat (skipn a l).

(** [l[:hi]] *)
Definition slice_to {A} (l : list A) (hi : Z) : list A :=
  firstn (slice_index (Z.of_nat (List.length l)) hi) l.

End Py.

Import Py.
Local Open Scope py_scope.

(* ================================================================== *)
(** * app/models/schemas.py *)
(* ================================================================== *)

Module Schemas.

Inductive JobKind :=
| scan | run_tests | eval_baseline | eval_advanced | eval_compare | report_pdf.

Inductive JobStatus :=
| queued | running | completed | failed | timeout | canceled.

(** The string each literal is. *)
Definition JobKind_str (k : JobKind) : string :=
  match k with
  | scan => "scan"
  | run_tests => "run_tests"
  | eval_baseline => "eval_baseline"
  | eval_advanced => "eval_advanced"
  | eval_compare => "eval_compare"
  | report_pdf => "report_pdf"
  end.

Definition JobStatus_str (s : JobStatus) : string :=
  match s with
  | queued => "queued"
  | running => "running"
  | completed => "completed"
  | failed => "failed"
  | timeout => "timeout"
  | canceled => "canceled"
  end.

(** The code compares the literals as strings. *)
Definition JobKind_eqb (a b : JobKind) : bool :=
  String.eqb (JobKind_str a) (JobKind_str b).

Definition JobStatus_eqb (a b : JobStatus) : bool :=
  String.eqb (JobStatus_str a) (JobStatus_str b).

(** The fields of the payload schemas and of [FlowSpecTest] share names
    ([url], [tests], ...); each record prefixes its own. *)
Record ScanPayload := {
  sp_url : string;
  sp_prompt : option string;
  sp_max_pages : Z;
  sp_max_depth : Z
}.

Record EvalPayload := {
  ep_sample_size : Z;
  ep_top_k : Z;
  ep_fetch_k : Z;
  ep_force_ingest : bool
}.

Record CreateJobRequest := {
  req_kind : JobKind;
  req_payload : value
}.

Record JobError := {
  code : string;
  message : string;
  details : option value
}.

(** Timestamps are instants of the clock, as integers. *)
Record JobState := {
  job_id : string;
  kind : JobKind;
  status : JobStatus;
  phase : option string;
  progress : Z;
  created_at : Z;
  started_at : option Z;
  finished_at : option Z;
  result : option value;
  error : option JobError
}.

Inductive Risk := low | medium | high.

Record FlowSpecTest := {
  t_id : string;
  t_title : string;
  t_tags : list string;
  t_risk : Risk;
  t_duration_sec : Z;
  t_steps : list string;
  t_expected_result : string;
  t_why_suggested : string
}.

Record RunTestsPayload := {
  rp_url : string;
  rp_tests : list FlowSpecTest;
  rp_batch_size : Z
}.

(** Attribute assignment [job.field = v] gives the record with that field
    replaced. *)
Definition set_status (v : JobStatus) (j : JobState) : JobState :=
  {| job_id := job_id j; kind := kind j; status := v; phase := phase j;
     progress := progress j; created_at := created_at j;
     started_at := started_at j; finished_at := finished_at j;
     result := result j; error := error j |}.

Definition set_phase (v : option string) (j : JobState) : JobState :=
  {| job_id := job_id j; kind := kind j; status := status j; phase := v;
     progress := progress j; created_at := created_at j;
     started_at := started_at j; finished_at := finished_at j;
     result := result j; error := error j |}.

Definition set_progress (v : Z) (j : JobState) : JobState :=
  {| job_id := job_id j; kind := kind j; status := status j; phase := phase j;
     progress := v; created_at := created_at j;
     started_at := started_at j; finished_at := finished_at j;
     result := result j; error := error j |}.

Definition set_started_at (v : option Z) (j : JobState) : JobState :=
  {| job_id := job_id j; kind := kind j; status := status j; phase := phase j;
     progress := progress j; created_at := created_at j;
     started_at := v; finished_at := finished_at j;
     result := result j; error := error j |}.

Definition set_finished_at (v : option Z) (j : JobState) : JobState :=
  {| job_id := job_id j; kind := kind j; status := status j; phase := phase j;
     progress := progress j; created_at := created_at j;
     started_at := started_at j; finished_at := v;
     result := result j; error := error j |}.

Definition set_result (v : option value) (j : JobState) : JobState :=
  {| job_id := job_id j; kind := kind j; status := status j; phase := phase j;
     progress := progress j; created_at := created_at j;
     started_at := started_at j; finished_at := finished_at j;
     result := v; error := error j |}.

Definition set_error (v : option JobError) (j : JobState) : JobState :=
  {| job_id := job_id j; kind := kind j; status := status j; phase := phase j;
     progress := progress j; created_at := created_at j;
     started_at := started_at j; finished_at := finished_at j;
     result := result j; error := v |}.

End Schemas.

Import Schemas.

(* ================================================================== *)
(** * app/services/evaluation.py: the progress helper *)
(* ================================================================== *)

Module Evaluation.

(** The value [_mapped] hands to the parent callback:
    [safe_start + int((clipped / 100) * span)]. *)
Definition scaled_value (start end_ local_progress : Z) : res Z :=
  let safe_start := Z.max 0 (Z.min start 100) in
  let safe_end := Z.max safe_start (Z.min end_ 100) in
  let span := safe_end - safe_start in
  let clipped := Z.max 0 (Z.min local_progress 100) in
  v <- int_ratio_times clipped 100 span ;;
  Ok (safe_start + v).

(** A callback runs for its effect, of some type [E], and may raise. *)
Definition callback (E : Type) := Z -> res E.

Definition _map_progress {E} (on_progress : option (callback E))
    (start end_ : Z) : option (callback E) :=
  match on_progress with
  | None => None
  | Some parent =>
      Some (fun local_progress =>
              v <- scaled_value start end_ local_progress ;; parent v)
  end.

(** The sub-ranges [run_compare_eval] gives to its two sub-evaluations. *)
Definition compare_baseline_progress {E} (on_progress : option (callback E)) :=
  _map_progress on_progress 5 49.

Definition compare_advanced_progress {E} (on_progress : option (callback E)) :=
  _map_progress on_progress 50 95.

End Evaluation.

(* ================================================================== *)
(** * app/services/test_runner.py *)
(* ================================================================== *)

Module TestRunner.

(** What one browser or HTTP check of a test found.  The network is outside
    the program: its answers are given. *)
Inductive Verdict :=
| Passed
| Failed (category error_text technical : string).

Record Probe := {
  probe_route : string;
  probe_duration_ms : Z;
  probe_verdict : Verdict
}.

(** The dict [_run_test_with_http] and [_run_test_with_playwright] return. *)
Definition test_entry (test : FlowSpecTest) (p : Probe) : value :=
  match probe_verdict p with
  | Passed =>
      VDict [("id", VStr (t_id test)); ("title", VStr (t_title test));
             ("status", VStr "passed"); ("route", VStr (probe_route p));
             ("duration_ms", VInt (probe_duration_ms p));
             ("error", VNone); ("failure_category", VNone)]
  | Failed category error_text technical =>
      VDict [("id", VStr (t_id test)); ("title", VStr (t_title test));
             ("status", VStr "failed"); ("route", VStr (probe_route p));
             ("duration_ms", VInt (probe_duration_ms p));
             ("error", VStr error_text);
             ("technical_error", VStr technical);
             ("failure_category", VStr category)]
  end.

(** The world one run meets: whether Playwright could be imported, whether the
    browser launches and closes, what each check finds (by position of the
    test in the input), and the time the run took. *)
Record Env := {
  playwright_available : bool;
  launch : res unit;
  close : res unit;
  probe_http : nat -> FlowSpecTest -> res Probe;
  probe_playwright : nat -> FlowSpecTest -> res Probe;
  run_duration_ms : Z
}.

Definition _run_test_with_http (env : Env) (index : nat) (test : FlowSpecTest)
  : res value :=
  p <- probe_http env index test ;; Ok (test_entry test p).

Definition _run_test_with_playwright (env : Env) (index : nat)
    (test : FlowSpecTest) : res value :=
  p <- probe_playwright env index test ;; Ok (test_entry test p).

(** The local variables of [run_flow_spec_tests], with the calls made to
    [on_progress] and the number of calls made to [should_stop]. *)
Record Loop := {
  l_results : list value;
  l_canceled : bool;
  l_emitted : list Z;
  l_polls : nat
}.

Definition loop_start : Loop :=
  {| l_results := []; l_canceled := false; l_emitted := []; l_polls := 0 |}.

(** [should_stop and should_stop()]: the answer of the next poll. *)
Definition poll (should_stop : option (nat -> bool)) (st : Loop)
  : bool * Loop :=
  match should_stop with
  | None => (false, st)
  | Some ask =>
      (ask (l_polls st),
       {| l_results := l_results st; l_canceled := l_canceled st;
          l_emitted := l_emitted st; l_polls := S (l_polls st) |})
  end.

Definition mark_canceled (st : Loop) : Loop :=
  {| l_results := l_results st; l_canceled := true;
     l_emitted := l_emitted st; l_polls := l_polls st |}.

Definition extend_results (more : list value) (st : Loop) : Loop :=
  {| l_results := l_results st ++ more; l_canceled := l_canceled st;
     l_emitted := l_emitted st; l_polls := l_polls st |}.

(** [if on_progress: on_progress(min(95, int((done / total) * 100)))] *)
Definition report (on_progress : option (Z -> res unit)) (done total : Z)
    (st : Loop) : res Loop :=
  match on_progress with
  | None => Ok st
  | Some tell =>
      v <- int_ratio_times done total 100 ;;
      _ <- tell (Z.min 95 v) ;;
      Ok {| l_results := l_results st; l_canceled := l_canceled st;
            l_emitted := l_emitted st ++ [Z.min 95 v];
            l_polls := l_polls st |}
  end.

(** The loop of the HTTP fallback, [for index, test in enumerate(tests)]. *)
Fixpoint http_loop (env : Env) (on_progress : option (Z -> res unit))
    (should_stop : option (nat -> bool)) (total : Z)
    (index : nat) (todo : list FlowSpecTest) (st : Loop) : res Loop :=
  match todo with
  | [] => Ok st
  | test :: rest =>
      let (stop, st) := poll should_stop st in
      if stop then Ok (mark_canceled st)
      else
        entry <- _run_test_with_http env index test ;;
        st <- report on_progress (Z.of_nat index + 1) total
                (extend_results [entry] st) ;;
        http_loop env on_progress should_stop total (S index) rest st
  end.

(** The calls of one batch, each test with its position in the input. *)
Fixpoint batch_calls (env : Env) (index : nat) (batch : list FlowSpecTest)
  : list (res value) :=
  match batch with
  | [] => []
  | test :: rest =>
      _run_test_with_playwright env index test
        :: batch_calls env (S index) rest
  end.

(** The loop over batches,
    [for offset in range(0, len(tests), batch_size)]. *)
Fixpoint batch_loop (env : Env) (on_progress : option (Z -> res unit))
    (should_stop : option (nat -> bool)) (tests : list FlowSpecTest)
    (batch_size : Z) (offsets : list Z) (st : Loop) : res Loop :=
  match offsets with
  | [] => Ok st
  | offset :: rest =>
      let (stop, st) := poll should_stop st in
      if stop then Ok (mark_canceled st)
      else
        let batch := slice tests offset (offset + batch_size) in
        batch_results <- gather (batch_calls env (Z.to_nat offset) batch) ;;
        let st := extend_results batch_results st in
        st <- report on_progress (Z.of_nat (List.length (l_results st)))
                (Z.of_nat (List.length tests)) st ;;
        batch_loop env on_progress should_stop tests batch_size rest st
  end.

(** [try: ... finally: await browser.close()] *)
Definition finally_close {A} (env : Env) (body : res A) : res A :=
  match close env with
  | Ok _ => body
  | Raise e => Raise e
  end.

(** [sum(1 for item in results if item["status"] == "passed")] *)
Fixpoint count_passed (results : list value) : res Z :=
  match results with
  | [] => Ok 0
  | item :: rest =>
      s <- subscript item "status" ;;
      n <- count_passed rest ;;
      Ok ((if eq_str s "passed" then 1 else 0) + n)
  end.

(** The dict the function returns. *)
Definition summary (url : string) (total passed failed_ duration_ms
    batch_size : Z) (canceled_ : bool) (results : list value) : value :=
  VDict [("url", VStr url); ("total", VInt total); ("passed", VInt passed);
         ("failed", VInt failed_); ("duration_ms", VInt duration_ms);
         ("batch_size", VInt batch_size); ("canceled", VBool canceled_);
         ("tests", VList results)].

(** Returns the dict and, beside it, the values it passed to
    [on_progress]. *)
Definition run_flow_spec_tests (env : Env) (url : string)
    (tests : list FlowSpecTest) (batch_size : Z)
    (on_progress : option (Z -> res unit))
    (should_stop : option (nat -> bool)) : res (value * list Z) :=
  let total := Z.of_nat (List.length tests) in
  st <- (if playwright_available env then
           _ <- launch env ;;
           finally_close env
             (offsets <- range0 total batch_size ;;
              batch_loop env on_progress should_stop tests batch_size
                offsets loop_start)
         else
           http_loop env on_progress should_stop total 0 tests loop_start) ;;
  passed <- count_passed (l_results st) ;;
  let failed_ := Z.of_nat (List.length (l_results st)) - passed in
  Ok (summary url (Z.of_nat (List.length (l_results st))) passed failed_
        (run_duration_ms env) batch_size (l_canceled st) (l_results st),
      l_emitted st).

End TestRunner.

(* ================================================================== *)
(** * app/workers/job_worker.py *)
(* ================================================================== *)

Module JobWorker.

(** [jobs: dict[str, JobState]] *)
Definition registry := dict JobState.

Definition EVAL_JOB_TIMEOUT_SECONDS : Z := 900.

Fixpoint _to_json_safe (v : value) : value :=
  match v with
  | VNone | VStr _ | VInt _ | VFloat _ | VBool _ => v
  | VList items => VList (map _to_json_safe items)
  | VTuple items => VList (map _to_json_safe items)
  | VDict entries =>
      VDict (map (fun kv => (fst kv, _to_json_safe (snd kv))) entries)
  | VObj repr => VStr repr
  end.

Definition is_terminal (s : JobStatus) : bool :=
  match s with
  | completed | failed | timeout | canceled => true
  | queued | running => false
  end.

Definition canceled_by_user : JobError :=
  {| code := "CANCELED_BY_USER";
     message := "Run tests canceled by user.";
     details := None |}.

(** [new_id] is the identifier [uuid4()] drew.  The task [_run_job] that the
    function spawns is the business of [step] below. *)
Definition create_job (new_id : string) (request : CreateJobRequest)
    (now : Z) (jobs : registry) : registry * JobState :=
  let job := {| job_id := new_id; kind := req_kind request;
                status := queued; phase := None; progress := 0;
                created_at := now; started_at := None; finished_at := None;
                result := None; error := None |} in
  (dict_set new_id job jobs, job).

Definition cancel_job (id : string) (now : Z) (jobs : registry)
  : registry * res (option JobState) :=
  match dict_get id jobs with
  | None => (jobs, Ok None)
  | Some current =>
      if negb (JobKind_eqb (kind current) run_tests) then
        (jobs, Raise (ValueError "Only run_tests jobs can be canceled."))
      else if is_terminal (status current) then
        (jobs, Ok (Some current))
      else
        let current :=
          set_error (Some canceled_by_user)
            (set_finished_at (Some now)
               (set_phase (Some "canceled")
                  (set_status canceled current))) in
        (dict_set id current jobs, Ok (Some current))
  end.

Definition get_job (id : string) (jobs : registry)
  : registry * option JobState :=
  (jobs, dict_get id jobs).

(** [if kind:] on a [str | None] *)
Definition given (filter_ : option string) : bool :=
  match filter_ with
  | None => false
  | Some s => negb (String.eqb s "")
  end.

(** [field == wanted] against a [str | None] *)
Definition equals (field : string) (wanted : option string) : bool :=
  match wanted with
  | Some s => String.eqb field s
  | None => false
  end.

Definition list_jobs (kind_ status_ : option string) (limit : Z)
    (jobs : registry) : registry * list JobState :=
  let items := dict_values jobs in
  let items := if given kind_
               then filter (fun job => equals (JobKind_str (kind job)) kind_)
                      items
               else items in
  let items := if given status_
               then filter
                      (fun job => equals (JobStatus_str (status job)) status_)
                      items
               else items in
  let items := sort_desc created_at items in
  (jobs, slice_to items limit).

Definition _set_progress (id : string) (value_ : Z) (jobs : registry)
  : registry :=
  match dict_get id jobs with
  | None => jobs
  | Some current =>
      if negb (JobStatus_eqb (status current) running) then jobs
      else dict_set id
             (set_progress (Z.max (progress current) (Z.min value_ 99))
                current) jobs
  end.

Definition _set_phase (id : string) (label : string) (jobs : registry)
  : registry :=
  match dict_get id jobs with
  | None => jobs
  | Some current =>
      if negb (JobStatus_eqb (status current) running) then jobs
      else dict_set id (set_phase (Some label) current) jobs
  end.

Definition _fail_job (id : string) (code_ message_ : string)
    (details_ : option value) (now : Z) (jobs : registry) : res registry :=
  match dict_get id jobs with
  | None => Raise (KeyError id)
  | Some current =>
      if JobStatus_eqb (status current) canceled then Ok jobs
      else
        let safe_details := option_map _to_json_safe details_ in
        Ok (dict_set id
              (set_error (Some {| code := code_; message := message_;
                                  details := safe_details |})
                 (set_finished_at (Some now)
                    (set_phase (Some "failed")
                       (set_status failed current)))) jobs)
  end.

Definition _timeout_job (id : string) (code_ message_ : string) (now : Z)
    (jobs : registry) : res registry :=
  match dict_get id jobs with
  | None => Raise (KeyError id)
  | Some current =>
      if JobStatus_eqb (status current) canceled then Ok jobs
      else
        Ok (dict_set id
              (set_error (Some {| code := code_; message := message_;
                                  details := None |})
                 (set_finished_at (Some now)
                    (set_phase (Some "timeout")
                       (set_status timeout current)))) jobs)
  end.

(** ** [_run_job]

    The coroutine runs in slices, from one suspension to the next; the lock
    is free whenever a slice starts, so a slice runs without interruption.
    The first slice goes from the spawn to the [await] of the unit of work;
    the second from the answer of the unit of work to the end. *)

(** The first critical section: the transition to [running].  The boolean
    says whether the coroutine goes on. *)
Definition _run_job_enter (id : string) (now : Z) (jobs : registry)
  : res (registry * bool) :=
  match dict_get id jobs with
  | None => Raise (KeyError id)
  | Some current =>
      if JobStatus_eqb (status current) canceled then Ok (jobs, false)
      else
        Ok (dict_set id
              (set_progress 5
                 (set_started_at (Some now)
                    (set_phase (Some "initializing")
                       (set_status running current)))) jobs,
            true)
  end.

(** The last critical section: what the registry records of a payload the
    unit of work returned. *)
Definition _run_job_record (id : string) (result_payload : value) (now : Z)
    (jobs : registry) : res registry :=
  match dict_get id jobs with
  | None => Raise (KeyError id)
  | Some current =>
      if JobStatus_eqb (status current) canceled then
        let current := set_result (Some (_to_json_safe result_payload))
                         current in
        let current := match error current with
                       | None => set_error (Some canceled_by_user) current
                       | Some _ => current
                       end in
        Ok (dict_set id current jobs)
      else if is_dict result_payload
              && truthy (value_get result_payload "canceled") then
        Ok (dict_set id
              (set_error (Some canceled_by_user)
                 (set_result (Some (_to_json_safe result_payload))
                    (set_finished_at (Some now)
                       (set_phase (Some "canceled")
                          (set_status canceled current))))) jobs)
      else
        Ok (dict_set id
              (set_error None
                 (set_result (Some (_to_json_safe result_payload))
                    (set_finished_at (Some now)
                       (set_progress 100
                          (set_phase (Some "completed")
                             (set_status completed current)))))) jobs)
  end.

(** Pydantic is outside the program: [model_validate] of each schema is
    given, and answers the validated payload or the errors of the
    [ValidationError]. *)
Record Validators := {
  validate_scan : value -> ScanPayload + value;
  validate_eval : value -> EvalPayload + value;
  validate_run_tests : value -> RunTestsPayload + value
}.

(** Where the coroutine waits, with the validated payload it passed on. *)
Inductive Await :=
| AwaitScan (payload : ScanPayload)
| AwaitEval (payload : EvalPayload)
| AwaitRunTests (payload : RunTestsPayload).

(** [request.payload or {}] *)
Definition payload_or_empty (payload : value) : value :=
  if truthy payload then payload else VDict [].

(** The body of [try] up to the first [await]: the branch by kind and its
    [model_validate]. *)
Inductive Validated :=
| Valid (awaited : Await)
| Invalid (errors : value)
| Unsupported (e : exn).

Definition _run_job_validate (v : Validators) (request : CreateJobRequest)
  : Validated :=
  match req_kind request with
  | scan =>
      match validate_scan v (req_payload request) with
      | inl payload => Valid (AwaitScan payload)
      | inr errors => Invalid errors
      end
  | eval_baseline | eval_advanced | eval_compare =>
      match validate_eval v (payload_or_empty (req_payload request)) with
      | inl payload => Valid (AwaitEval payload)
      | inr errors => Invalid errors
      end
  | run_tests =>
      match validate_run_tests v (req_payload request) with
      | inl payload => Valid (AwaitRunTests payload)
      | inr errors => Invalid errors
      end
  | report_pdf =>
      Unsupported (ValueError (String.append "Unsupported job kind: "
                                 (JobKind_str (req_kind request))))
  end.

(** [except ValidationError as exc] around each [model_validate] *)
Definition _run_job_invalid (id : string) (errors : value) (now : Z)
    (jobs : registry) : res registry :=
  _fail_job id "INVALID_INPUT" "Invalid job payload."
    (Some (VDict [("errors", errors)])) now jobs.

(** [except Exception as exc] around the whole body *)
Definition _run_job_except (id : string) (e : exn) (now : Z)
    (jobs : registry) : res registry :=
  _fail_job id "JOB_FAILED" (exn_str e) None now jobs.

(** The first slice.  [now] is the clock at the [running] transition, [now']
    the clock when a failure is recorded.  The answer is the registry and
    the unit of work the coroutine now awaits, if any. *)
Definition _run_job_dispatch (v : Validators) (id : string)
    (request : CreateJobRequest) (now now' : Z) (jobs : registry)
  : res (registry * option Await) :=
  entered <- _run_job_enter id now jobs ;;
  let (jobs, goes_on) := (entered : registry * bool) in
  if negb goes_on then Ok (jobs, None)
  else
    match _run_job_validate v request with
    | Valid awaited => Ok (jobs, Some awaited)
    | Invalid errors =>
        jobs <- _run_job_invalid id errors now' jobs ;;
        Ok (jobs, None)
    | Unsupported e =>
        jobs <- _run_job_except id e now' jobs ;;
        Ok (jobs, None)
    end.

(** What the awaited unit of work answers.  The units of work are outside
    the program; the dicts [_run_job] sees are built here as the source
    builds them, from the parts that vary. *)
Inductive Reply :=
| ScanReply (scan_result : res value)
| ModeReply (run : res (value * value))
| CompareReply
    (run : res ((value * value) * (value * value) * value * string))
| TestsReply (env : TestRunner.Env) (should_stop : nat -> bool).

(** The answer, and the wall-clock time the unit of work took to give it. *)
Record Answer := {
  elapsed_seconds : Z;
  reply : Reply
}.

Definition opt_str (s : option string) : value :=
  match s with
  | Some s => VStr s
  | None => VNone
  end.

Definition eval_config (payload : EvalPayload) (mode : string) : value :=
  VDict [("sample_size", VInt (ep_sample_size payload));
         ("top_k", VInt (ep_top_k payload));
         ("fetch_k", VInt (ep_fetch_k payload));
         ("mode", VStr mode)].

(** The dict of [run_baseline_eval] and [run_advanced_eval]:
    [_format_mode_result], then the keys [config] and [conclusion]. *)
Definition mode_result (payload : EvalPayload) (mode conclusion : string)
    (run : value * value) : value :=
  VDict [("metrics", fst run); ("samples", snd run);
         ("config", eval_config payload mode);
         ("conclusion", VStr conclusion)].

Definition baseline_conclusion : string :=
  "Baseline dense retriever scored the initial RAGAS benchmark on the generated test set.".

Definition advanced_conclusion : string :=
  "Advanced retriever uses contextual compression with Cohere reranking before RAGAS scoring.".

Definition compare_result (payload : EvalPayload)
    (run : (value * value) * (value * value) * value * string) : value :=
  let '(baseline, advanced, deltas, conclusion) := run in
  VDict [("baseline", mode_result payload "baseline" baseline_conclusion
                        baseline);
         ("advanced", mode_result payload "advanced" advanced_conclusion
                        advanced);
         ("delta", deltas);
         ("conclusion", VStr conclusion);
         ("config", eval_config payload "compare")].

(** [asyncio.wait_for(..., timeout=deadline)]: the answer of a unit of work
    that took [elapsed], or [TimeoutError] once the deadline has passed. *)
Definition wait_for {A} (elapsed : Z) (run : res A) (deadline : Z) : res A :=
  if deadline <? elapsed then Raise (TimeoutError "") else run.

Definition eval_timeout_message : string :=
  "Evaluation exceeded 900 seconds. Lower sample_size/fetch_k or rerun baseline first.".

(** An evaluation under its deadline: [inr] is the [asyncio.TimeoutError]
    that the evaluation branch catches itself, [inl] a payload or an
    exception for the outer handler. *)
Definition eval_branch {A} (elapsed : Z) (run : res A)
    (shape : A -> value) : res value + unit :=
  match wait_for elapsed run EVAL_JOB_TIMEOUT_SECONDS with
  | Raise (TimeoutError _) => inr tt
  | Raise e => inl (Raise e)
  | Ok r => inl (Ok (shape r))
  end.

(** What [await] gives back in the branch of the kind; [None] when the
    answer is not one the awaited unit of work can give.  The callback
    [on_progress] only schedules [_set_progress] on the loop and the
    predicate [should_stop] reads the registry while the tests run: the
    scheduled updates are the events [Progress], and the predicate is given
    by its answers. *)
Definition _run_job_await (request : CreateJobRequest) (awaited : Await)
    (answer : Answer) : option (res value + unit) :=
  match req_kind request, awaited, reply answer with
  | scan, AwaitScan payload, ScanReply scan_result =>
      Some (inl (r <- scan_result ;;
                 Ok (VDict [("scan", r);
                            ("prompt", opt_str (sp_prompt payload))])))
  | eval_baseline, AwaitEval payload, ModeReply run =>
      Some (eval_branch (elapsed_seconds answer) run
              (mode_result payload "baseline" baseline_conclusion))
  | eval_advanced, AwaitEval payload, ModeReply run =>
      Some (eval_branch (elapsed_seconds answer) run
              (mode_result payload "advanced" advanced_conclusion))
  | eval_compare, AwaitEval payload, CompareReply run =>
      Some (eval_branch (elapsed_seconds answer) run
              (compare_result payload))
  | run_tests, AwaitRunTests payload, TestsReply env should_stop =>
      Some (inl (r <- TestRunner.run_flow_spec_tests env (rp_url payload)
                        (rp_tests payload) (rp_batch_size payload)
                        (Some (fun _ => Ok tt)) (Some should_stop) ;;
                 Ok (fst r)))
  | _, _, _ => None
  end.

(** The second slice: from the answer of the unit of work to the end of the
    coroutine. *)
Definition _run_job_resume (id : string) (request : CreateJobRequest)
    (awaited : Await) (answer : Answer) (now : Z) (jobs : registry)
  : option (res registry) :=
  match _run_job_await request awaited answer with
  | None => None
  | Some (inr tt) =>
      Some (_timeout_job id "EVAL_TIMEOUT" eval_timeout_message now jobs)
  | Some (inl (Raise e)) => Some (_run_job_except id e now jobs)
  | Some (inl (Ok result_payload)) =>
      Some (_run_job_record id result_payload now jobs)
  end.

(** The coroutine run in one go, as it runs when nothing else happens
    while it awaits its unit of work. *)
Definition _run_job (v : Validators) (id : string)
    (request : CreateJobRequest) (now now' : Z) (answer : Answer)
    (now'' : Z) (jobs : registry) : option (res registry) :=
  match _run_job_dispatch v id request now now' jobs with
  | Raise e => Some (Raise e)
  | Ok (jobs, None) => Some (Ok jobs)
  | Ok (jobs, Some awaited) =>
      _run_job_resume id request awaited answer now'' jobs
  end.

(** ** The event loop

    The registry together with the coroutines [create_job] spawned. *)
Inductive TaskState :=
| Spawned
| Awaiting (awaited : Await)
| Finished.

Record Task := {
  task_request : CreateJobRequest;
  task_state : TaskState;
  task_invocations : nat   (* how often the unit of work was called *)
}.

Record World := {
  jobs : registry;
  tasks : dict Task
}.

Definition start : World := {| jobs := []; tasks := [] |}.

Inductive Event :=
| Create (id : string) (request : CreateJobRequest) (now : Z)
| Cancel (id : string) (now : Z)
| Get (id : string)
| List_ (kind_ status_ : option string) (limit : Z)
| Dispatch (id : string) (now now' : Z)
| Progress (id : string) (value_ : Z)
| Phase (id : string) (label : string)
| Resume (id : string) (answer : Answer) (now : Z).

Definition set_task (id : string) (t : Task) (w : World) (jobs' : registry)
  : World :=
  {| jobs := jobs'; tasks := dict_set id t (tasks w) |}.

(** One turn of the event loop; [None] when the event cannot happen in this
    world: an identifier [uuid4] drew before, a task that is not at that
    point of its code, an answer of another unit of work.  A coroutine that
    dies of an exception is finished.  The updates that the callbacks
    schedule are turns of their own, [Progress] and [Phase], and may come
    at any time and with any value. *)
Definition step (v : Validators) (w : World) (ev : Event) : option World :=
  match ev with
  | Create id request now =>
      match dict_get id (jobs w) with
      | Some _ => None
      | None =>
          Some (set_task id {| task_request := request;
                               task_state := Spawned;
                               task_invocations := 0 |}
                  w (fst (create_job id request now (jobs w))))
      end
  | Cancel id now =>
      Some {| jobs := fst (cancel_job id now (jobs w)); tasks := tasks w |}
  | Get id =>
      Some {| jobs := fst (get_job id (jobs w)); tasks := tasks w |}
  | List_ kind_ status_ limit =>
      Some {| jobs := fst (list_jobs kind_ status_ limit (jobs w));
              tasks := tasks w |}
  | Progress id value_ =>
      Some {| jobs := _set_progress id value_ (jobs w); tasks := tasks w |}
  | Phase id label =>
      Some {| jobs := _set_phase id label (jobs w); tasks := tasks w |}
  | Dispatch id now now' =>
      match dict_get id (tasks w) with
      | Some t =>
          match task_state t with
          | Spawned =>
              match _run_job_dispatch v id (task_request t) now now'
                      (jobs w) with
              | Ok (jobs', Some awaited) =>
                  Some (set_task id
                          {| task_request := task_request t;
                             task_state := Awaiting awaited;
                             task_invocations := S (task_invocations t) |}
                          w jobs')
              | Ok (jobs', None) =>
                  Some (set_task id
                          {| task_request := task_request t;
                             task_state := Finished;
                             task_invocations := task_invocations t |}
                          w jobs')
              | Raise _ =>
                  Some (set_task id
                          {| task_request := task_request t;
                             task_state := Finished;
                             task_invocations := task_invocations t |}
                          w (jobs w))
              end
          | _ => None
          end
      | None => None
      end
  | Resume id answer now =>
      match dict_get id (tasks w) with
      | Some t =>
          match task_state t with
          | Awaiting awaited =>
              match _run_job_resume id (task_request t) awaited answer now
                      (jobs w) with
              | Some r =>
                  Some (set_task id
                          {| task_request := task_request t;
                             task_state := Finished;
                             task_invocations := task_invocations t |}
                          w (match r with
                             | Ok jobs' => jobs'
                             | Raise _ => jobs w
                             end))
              | None => None
              end
          | _ => None
          end
      | None => None
      end
  end.

Fixpoint run (v : Validators) (w : World) (events : list Event)
  : option World :=
  match events with
  | [] => Some w
  | ev :: rest =>
      match step v w ev with
      | Some w' => run v w' rest
      | None => None
      end
  end.

(** The worlds the program can be in. *)
Definition reachable (v : Validators) (w : World) : Prop :=
  exists events, run v start events = Some w.

End JobWorker.

(* ================================================================== *)
(** * app/api/jobs.py: the cancel and list routes *)
(* ================================================================== *)

Module Api.

Import JobWorker.

Inductive Response (A : Type) :=
| Body (a : A)
| HTTPException (status_code : Z) (error_code message_ : string)
| Unprocessable.
Arguments Body {A} a.
Arguments HTTPException {A} status_code error_code message_.
Arguments Unprocessable {A}.

Definition post_cancel_job (id : string) (now : Z) (jobs : registry)
  : registry * res (Response JobState) :=
  match cancel_job id now jobs with
  | (jobs', Raise (ValueError msg)) =>
      (jobs', Ok (HTTPException 400 "INVALID_OPERATION" msg))
  | (jobs', Raise e) => (jobs', Raise e)
  | (jobs', Ok None) =>
      (jobs', Ok (HTTPException 404 "NOT_FOUND" "Job not found"))
  | (jobs', Ok (Some job)) => (jobs', Ok (Body job))
  end.

(** The query the route accepts: filters that are literals of the
    enumerations, [limit] from 1 to 200.  Any other query is answered 422
    before the body runs. *)
Definition get_jobs (kind_ : option JobKind) (status_filter : option JobStatus)
    (limit : Z) (jobs : registry) : registry * Response (list JobState) :=
  if (1 <=? limit) && (limit <=? 200) then
    let (jobs', items) :=
      list_jobs (option_map JobKind_str kind_)
        (option_map JobStatus_str status_filter) limit jobs in
    (jobs', Body items)
  else
    (jobs, Unprocessable).

End Api.

(* ================================================================== *)
(** * Definitions for the proofs *)
(* ================================================================== *)

Module Aux.

Import TestRunner JobWorker.

(** ** The table of [int((p / 100) * span)] *)

(** The expression as a total function. *)
Definition share (span p : Z) : Z :=
  match int_ratio_times p 100 span with
  | Ok v => v
  | Raise _ => -1
  end.

Definition defined (span p : Z) : bool :=
  match int_ratio_times p 100 span with
  | Ok _ => true
  | Raise _ => false
  end.

Definition upto (n : nat) : list Z := map Z.of_nat (seq 0 n).

(** One row of the table of binary64 results: every entry is defined, the
    row starts at 0, ends at [span] and never steps down. *)
Definition row_ok (span : Z) : bool :=
  forallb (defined span) (upto 101)
  && (share span 0 =? 0) && (share span 100 =? span)
  && forallb (fun p => share span p <=? share span (p + 1)) (upto 100).

(** ** The record of one job

    Every function of the worker reads the record [jobs[id]] and writes it
    back.  What each does to that record: *)

Definition cancel_record (now : Z) (j : JobState) : JobState :=
  if negb (JobKind_eqb (kind j) run_tests) then j
  else if is_terminal (status j) then j
  else set_error (Some canceled_by_user)
         (set_finished_at (Some now)
            (set_phase (Some "canceled") (set_status canceled j))).

Definition progress_record (value_ : Z) (j : JobState) : JobState :=
  if negb (JobStatus_eqb (status j) running) then j
  else set_progress (Z.max (progress j) (Z.min value_ 99)) j.

Definition phase_record (label : string) (j : JobState) : JobState :=
  if negb (JobStatus_eqb (status j) running) then j
  else set_phase (Some label) j.

Definition fail_record (code_ message_ : string) (details_ : option value)
    (now : Z) (j : JobState) : JobState :=
  if JobStatus_eqb (status j) canceled then j
  else set_error (Some {| code := code_; message := message_;
                          details := option_map _to_json_safe details_ |})
         (set_finished_at (Some now)
            (set_phase (Some "failed") (set_status failed j))).

Definition timeout_record (code_ message_ : string) (now : Z)
    (j : JobState) : JobState :=
  if JobStatus_eqb (status j) canceled then j
  else set_error (Some {| code := code_; message := message_;
                          details := None |})
         (set_finished_at (Some now)
            (set_phase (Some "timeout") (set_status timeout j))).

Definition enter_record (now : Z) (j : JobState) : JobState * bool :=
  if JobStatus_eqb (status j) canceled then (j, false)
  else (set_progress 5
          (set_started_at (Some now)
             (set_phase (Some "initializing") (set_status running j))),
        true).

Definition store_record (result_payload : value) (now : Z) (j : JobState)
  : JobState :=
  if JobStatus_eqb (status j) canceled then
    let j := set_result (Some (_to_json_safe result_payload)) j in
    match error j with
    | None => set_error (Some canceled_by_user) j
    | Some _ => j
    end
  else if is_dict result_payload
          && truthy (value_get result_payload "canceled") then
    set_error (Some canceled_by_user)
      (set_result (Some (_to_json_safe result_payload))
         (set_finished_at (Some now)
            (set_phase (Some "canceled") (set_status canceled j))))
  else
    set_error None
      (set_result (Some (_to_json_safe result_payload))
         (set_finished_at (Some now)
            (set_progress 100
               (set_phase (Some "completed") (set_status completed j))))).

Definition dispatch_record (v : Validators) (request : CreateJobRequest)
    (now now' : Z) (j : JobState) : JobState * option Await :=
  let (j1, goes_on) := enter_record now j in
  if negb goes_on then (j1, None)
  else
    match _run_job_validate v request with
    | Valid awaited => (j1, Some awaited)
    | Invalid errors =>
        (fail_record "INVALID_INPUT" "Invalid job payload."
           (Some (VDict [("errors", errors)])) now' j1, None)
    | Unsupported e =>
        (fail_record "JOB_FAILED" (exn_str e) None now' j1, None)
    end.

Definition resume_record (request : CreateJobRequest) (awaited : Await)
    (answer : Answer) (now : Z) (j : JobState) : option JobState :=
  match _run_job_await request awaited answer with
  | None => None
  | Some (inr tt) =>
      Some (timeout_record "EVAL_TIMEOUT" eval_timeout_message now j)
  | Some (inl (Raise e)) =>
      Some (fail_record "JOB_FAILED" (exn_str e) None now j)
  | Some (inl (Ok result_payload)) =>
      Some (store_record result_payload now j)
  end.

(** The job an event is about. *)
Definition target (ev : Event) : option string :=
  match ev with
  | Create id _ _ | Cancel id _ | Get id | Dispatch id _ _
  | Progress id _ | Phase id _ | Resume id _ _ => Some id
  | List_ _ _ _ => None
  end.

Definition with_state (s : TaskState) (n : nat) (t : Task) : Task :=
  {| task_request := task_request t; task_state := s;
     task_invocations := n |}.

(** What an event about an existing job does to its record and its task. *)
Definition job_step (v : Validators) (ev : Event) (j : JobState) (t : Task)
  : option (JobState * Task) :=
  match ev with
  | Create _ _ _ => None
  | Cancel _ now => Some (cancel_record now j, t)
  | Get _ | List_ _ _ _ => Some (j, t)
  | Progress _ value_ => Some (progress_record value_ j, t)
  | Phase _ label => Some (phase_record label j, t)
  | Dispatch _ now now' =>
      match task_state t with
      | Spawned =>
          match dispatch_record v (task_request t) now now' j with
          | (j', Some awaited) =>
              Some (j', with_state (Awaiting awaited)
                          (S (task_invocations t)) t)
          | (j', None) =>
              Some (j', with_state Finished (task_invocations t) t)
          end
      | _ => None
      end
  | Resume _ answer now =>
      match task_state t with
      | Awaiting awaited =>
          match resume_record (task_request t) awaited answer now j with
          | Some j' => Some (j', with_state Finished (task_invocations t) t)
          | None => None
          end
      | _ => None
      end
  end.

(** ** Invariant of the reachable worlds *)

Definition errored (s : JobStatus) : Prop :=
  s = failed \/ s = timeout \/ s = canceled.

(** What holds of a job and the coroutine that runs it. *)
Record job_inv (j : JobState) (t : Task) : Prop := {
  inv_kind : kind j = req_kind (task_request t);
  inv_task :
    match task_state t with
    | Spawned =>
        (status j = queued \/ status j = canceled) /\
        started_at j = None /\ task_invocations t = 0%nat /\
        progress j = 0
    | Awaiting _ => status j = running \/ status j = canceled
    | Finished => is_terminal (status j) = true
    end;
  inv_canceled : status j = canceled -> kind j = run_tests;
  inv_error : error j <> None <-> errored (status j);
  inv_running : status j = running -> 5 <= progress j <= 99;
  inv_progress : 0 <= progress j <= 100;
  inv_completed : status j = completed -> progress j = 100
}.

Definition world_inv (w : World) : Prop :=
  forall id,
    match dict_get id (jobs w), dict_get id (tasks w) with
    | Some j, Some t => job_inv j t
    | None, None => True
    | _, _ => False
    end.

(** ** Sample data, on which the statements are run *)

Definition sample_test (name : string) : FlowSpecTest :=
  {| t_id := name; t_title := "open /pricing"; t_tags := ["smoke"];
     t_risk := low; t_duration_sec := 5; t_steps := ["visit /pricing"];
     t_expected_result := "the page renders";
     t_why_suggested := "main route" |}.

Definition sample_tests : list FlowSpecTest :=
  map sample_test ["t1"; "t2"; "t3"; "t4"; "t5"; "t6"; "t7"; "t8"; "t9";
                   "t10"].

(** A stand-in for Pydantic: a scan or a test run needs a non-empty [url],
    an evaluation accepts every payload. *)
Definition sample_validators : Validators :=
  {| validate_scan := fun payload =>
       match value_get payload "url" with
       | VStr s =>
           if String.eqb s "" then inr (VList [VStr "url: too short"])
           else inl {| sp_url := s; sp_prompt := None;
                       sp_max_pages := 30; sp_max_depth := 2 |}
       | _ => inr (VList [VStr "url: field required"])
       end;
     validate_eval := fun _ =>
       inl {| ep_sample_size := 12; ep_top_k := 5; ep_fetch_k := 20;
              ep_force_ingest := false |};
     validate_run_tests := fun payload =>
       match value_get payload "url" with
       | VStr s => inl {| rp_url := s; rp_tests := sample_tests;
                          rp_batch_size := 4 |}
       | _ => inr (VList [VStr "url: field required"])
       end |}.

(** A site where the tests at even positions pass. *)
Definition sample_probe (index : nat) (test : FlowSpecTest) : res Probe :=
  Ok {| probe_route := "/pricing"; probe_duration_ms := 12;
        probe_verdict := if Nat.even index then Passed
                         else Failed "http_error" "Page check failed"
                                "HTTP 500" |}.

Definition sample_env (playwright : bool) : Env :=
  {| playwright_available := playwright; launch := Ok tt; close := Ok tt;
     probe_http := sample_probe; probe_playwright := sample_probe;
     run_duration_ms := 40 |}.

Definition url_payload : value := VDict [("url", VStr "https://shop.test")].

Definition tests_request : CreateJobRequest :=
  {| req_kind := run_tests; req_payload := url_payload |}.

Definition scan_request : CreateJobRequest :=
  {| req_kind := scan; req_payload := url_payload |}.

Definition bad_scan_request : CreateJobRequest :=
  {| req_kind := scan; req_payload := VDict [] |}.

Definition eval_request : CreateJobRequest :=
  {| req_kind := eval_baseline; req_payload := VDict [] |}.

Definition blank_job : JobState :=
  {| job_id := ""; kind := scan; status := queued; phase := None;
     progress := 0; created_at := 0; started_at := None;
     finished_at := None; result := None; error := None |}.

Definition blank_task : Task :=
  {| task_request := scan_request; task_state := Finished;
     task_invocations := 0 |}.

Definition world_after (events : list Event) : World :=
  match run sample_validators start events with
  | Some w => w
  | None => start
  end.

Definition job_of (id : string) (w : World) : JobState :=
  match dict_get id (jobs w) with
  | Some j => j
  | None => blank_job
  end.

Definition task_of (id : string) (w : World) : Task :=
  match dict_get id (tasks w) with
  | Some t => t
  | None => blank_task
  end.

(** Three jobs: a test run that was dispatched and then canceled, a scan
    whose payload is invalid, an evaluation that is running. *)
Definition sample_events : list Event :=
  [Create "tests" tests_request 10;
   Create "scan" bad_scan_request 11;
   Dispatch "tests" 12 13;
   Create "eval" eval_request 14;
   Dispatch "eval" 15 16;
   Progress "eval" 40;
   Cancel "tests" 17].

(** The test run answers after the cancellation was seen at the second
    poll. *)
Definition stop_at_second_poll (poll : nat) : bool := Nat.leb 1 poll.

Definition tests_answer : Answer :=
  {| elapsed_seconds := 30;
     reply := TestsReply (sample_env true) stop_at_second_poll |}.

(** A scan that was dispatched and is awaited, and what it answers. *)
Definition scan_events : list Event :=
  [Create "s" scan_request 1; Dispatch "s" 2 3].

Definition scan_answer (elapsed : Z) : Answer :=
  {| elapsed_seconds := elapsed; reply := ScanReply (Ok (VDict [])) |}.

(** An evaluation that answers after [elapsed] seconds. *)
Definition eval_answer (elapsed : Z) : Answer :=
  {| elapsed_seconds := elapsed;
     reply := ModeReply (Ok (VDict [], VList [])) |}.

(** A test run canceled before its coroutine was scheduled, and what the
    loop goes on to do. *)
Definition queued_events : list Event :=
  [Create "tests" tests_request 10].

Definition after_cancel_events : list Event :=
  [Dispatch "tests" 12 13; Progress "tests" 50; Phase "tests" "batch";
   Cancel "tests" 14].

(** The run of the specification's scenario: ten tests in batches of four,
    canceled after the first batch. *)
Definition sample_run : res (value * list Z) :=
  run_flow_spec_tests (sample_env true) "https://shop.test" sample_tests 4
    (Some (fun _ => Ok tt)) (Some stop_at_second_poll).

Definition sample_result : value :=
  match sample_run with
  | Ok (r, _) => r
  | Raise _ => VNone
  end.

Definition sample_emitted : list Z :=
  match sample_run with
  | Ok (_, emitted) => emitted
  | Raise _ => []
  end.

(** An entry that has a status. *)
Definition has_status (item : value) : Prop :=
  exists s, subscript item "status" = Ok s.

(** ** The listing *)

(** The records a [str | None] filter selects: [None] and the empty string
    select every record, another string the records whose field is equal
    to it. *)
Definition selects (filter_ : option string) (field : string) : bool :=
  if given filter_ then equals field filter_ else true.

Definition wanted (kind_ status_ : option string) (job : JobState) : bool :=
  selects kind_ (JobKind_str (kind job))
  && selects status_ (JobStatus_str (status job)).

Definition later_first {A} (key : A -> Z) (a b : A) : Prop :=
  key b <= key a.

Definition newest_first : JobState -> JobState -> Prop :=
  later_first created_at.

(** The listing as the specification words it, to compare [list_jobs] with:
    a filter that is given selects by equality, a missing one selects
    everything, and the result is the first [limit] records. *)
Definition stated_filter (filter_ : option string) (field : string) : bool :=
  match filter_ with
  | None => true
  | Some s => String.eqb field s
  end.

Definition listing_as_stated (kind_ status_ : option string) (limit : Z)
    (jobs : registry) : list JobState :=
  firstn (Z.to_nat limit)
    (sort_desc created_at
       (filter (fun job =>
                  stated_filter kind_ (JobKind_str (kind job))
                  && stated_filter status_ (JobStatus_str (status job)))
          (dict_values jobs))).

(** Two queued scans, the second one created later. *)
Definition two_jobs : registry :=
  jobs (world_after [Create "a" scan_request 1; Create "b" scan_request 2]).

End Aux.

Import Aux.

(* ================================================================== *)
(** * app/api/jobs.py: the submit and fetch routes *)
(* ================================================================== *)

Module Routes.

Import JobWorker Api.

Record CreateJobResponse := {
  resp_job_id : string;
  resp_status : JobStatus
}.

(** [new_id] is the identifier [uuid4()] drew in [create_job]. *)
Definition post_job (new_id : string) (request : CreateJobRequest) (now : Z)
    (jobs : registry) : registry * CreateJobResponse :=
  let (jobs', job) := create_job new_id request now jobs in
  (jobs', {| resp_job_id := job_id job; resp_status := status job |}).

Definition get_job_status (id : string) (jobs : registry)
  : registry * Response JobState :=
  match get_job id jobs with
  | (jobs', None) => (jobs', HTTPException 404 "NOT_FOUND" "Job not found")
  | (jobs', Some job) => (jobs', Body job)
  end.

End Routes.

(* ================================================================== *)
(** * Further definitions for the proofs *)
(* ================================================================== *)

Module Laws.

Import TestRunner JobWorker.

(** ** JSON-safe values: mappings, sequences and scalars only *)

Fixpoint json_safe (v : value) : bool :=
  match v with
  | VNone | VBool _ | VInt _ | VFloat _ | VStr _ => true
  | VList items => forallb json_safe items
  | VDict entries => forallb (fun kv => json_safe (snd kv)) entries
  | VTuple _ | VObj _ => false
  end.

Definition json_safe_opt (v : option value) : bool :=
  match v with
  | Some r => json_safe r
  | None => true
  end.

(** ** The lifecycle as a state machine *)

Definition is_eval (k : JobKind) : bool :=
  match k with
  | eval_baseline | eval_advanced | eval_compare => true
  | _ => false
  end.

(** The terminal states a kind can reach: only an evaluation times out,
    only a test run is canceled. *)
Definition kind_allows (k : JobKind) (s : JobStatus) : bool :=
  match s with
  | timeout => is_eval k
  | canceled => JobKind_eqb k run_tests
  | _ => true
  end.

(** The moves one turn of the event loop can make. *)
Definition moves (k : JobKind) (a b : JobStatus) : bool :=
  match a, b with
  | queued, queued | running, running => true
  | queued, running | queued, failed => true
  | queued, canceled => JobKind_eqb k run_tests
  | running, completed | running, failed => true
  | running, timeout => is_eval k
  | running, canceled => JobKind_eqb k run_tests
  | _, _ => JobStatus_eqb a b
  end.

(** Where a job can be, some turns after it was in [a]. *)
Definition after (k : JobKind) (a b : JobStatus) : bool :=
  match a with
  | queued => match b with
              | queued => true
              | _ => kind_allows k b
              end
  | running => match b with
               | queued => false
               | _ => kind_allows k b
               end
  | _ => JobStatus_eqb a b
  end.

(** The error code each unsuccessful state carries. *)
Definition code_of (s : JobStatus) (c : string) : Prop :=
  match s with
  | failed => c = "INVALID_INPUT" \/ c = "JOB_FAILED"
  | timeout => c = "EVAL_TIMEOUT"
  | canceled => c = "CANCELED_BY_USER"
  | _ => False
  end.

Definition phase_of (s : JobStatus) : option string :=
  match s with
  | queued => None
  | running => None
  | completed => Some "completed"
  | failed => Some "failed"
  | timeout => Some "timeout"
  | canceled => Some "canceled"
  end.

(** What holds of the record stored under [id], beside [job_inv]. *)
Record job_shape (id : string) (j : JobState) (t : Task) : Prop := {
  shape_id : job_id j = id;
  shape_finished : finished_at j <> None <-> is_terminal (status j) = true;
  shape_queued :
    status j = queued -> started_at j = None /\ phase j = None;
  shape_started :
    status j = running \/ status j = completed \/ status j = failed \/
    status j = timeout -> started_at j <> None;
  shape_running : status j = running -> phase j <> None;
  shape_phase :
    is_terminal (status j) = true -> phase j = phase_of (status j);
  shape_result :
    (status j = completed -> result j <> None) /\
    (result j <> None -> status j = completed \/ status j = canceled);
  shape_kind : kind_allows (kind j) (status j) = true;
  shape_code : forall e, error j = Some e -> code_of (status j) (code e);
  shape_safe :
    json_safe_opt (result j) = true /\
    (forall e, error j = Some e -> json_safe_opt (details e) = true)
}.

End Laws.

Import Laws.

(* ================================================================== *)
(** * The history of a record *)
(* ================================================================== *)

Module History.

Import JobWorker.

(** What relates a stored record to the record stored under the same
    identifier some turns of the event loop later. *)
Record job_later (j j' : JobState) : Prop := {
  later_id : job_id j' = job_id j;
  later_kind : kind j' = kind j;
  later_created : created_at j' = created_at j;
  later_status : after (kind j) (status j) (status j') = true;
  later_progress : progress j <= progress j';
  later_started : started_at j <> None -> started_at j' = started_at j;
  later_finished : finished_at j <> None -> finished_at j' = finished_at j;
  later_error : error j <> None -> error j' = error j
}.

End History.

Import History.

(* ================================================================== *)
(** * The units of work *)
(* ================================================================== *)

Module Work.

Import JobWorker.

(** The error [_run_job] records for a kind it has no branch for. *)
Definition unsupported_kind (k : JobKind) : JobError :=
  {| code := "JOB_FAILED";
     message := String.append "Unsupported job kind: " (JobKind_str k);
     details := None |}.

(** The error recorded when [model_validate] rejects the payload. *)
Definition invalid_input (errors : value) : JobError :=
  {| code := "INVALID_INPUT"; message := "Invalid job payload.";
     details := Some (_to_json_safe (VDict [("errors", errors)])) |}.

(** What holds of a record and the calls its coroutine made to the unit of
    work. *)
Record job_calls (v : Validators) (j : JobState) (t : Task) : Prop := {
  calls_state :
    match task_state t with
    | Spawned =>
        task_invocations t = 0%nat /\ result j = None /\ started_at j = None
    | Awaiting awaited =>
        task_invocations t = 1%nat /\
        _run_job_validate v (task_request t) = Valid awaited /\
        started_at j <> None /\ result j = None
    | Finished =>
        (task_invocations t = 1%nat /\ started_at j <> None /\
         exists awaited,
           _run_job_validate v (task_request t) = Valid awaited) \/
        (task_invocations t = 0%nat /\ result j = None /\
         (started_at j = None \/
          forall awaited,
            _run_job_validate v (task_request t) <> Valid awaited))
    end;
  calls_invalid :
    forall e, error j = Some e -> code e = "INVALID_INPUT" ->
              exists errors,
                _run_job_validate v (task_request t) = Invalid errors /\
                e = invalid_input errors;
  calls_unsupported :
    kind j = report_pdf ->
    status j = queued \/
    (status j = failed /\ error j = Some (unsupported_kind report_pdf) /\
     progress j = 5 /\ result j = None /\ task_state t = Finished)
}.

(** A job of the kind that has no branch, as submitted. *)
Definition pdf_events : list Event :=
  [Create "pdf" {| req_kind := report_pdf; req_payload := VDict [] |} 1].

End Work.

Import Work.

(* ================================================================== *)
(** * The checks of a test run *)
(* ================================================================== *)

Module Checks.

Import TestRunner.

(** The calls of the HTTP fallback, each test with its position. *)
Fixpoint http_calls (env : Env) (index : nat) (tests : list FlowSpecTest)
  : list (res value) :=
  match tests with
  | [] => []
  | test :: rest =>
      _run_test_with_http env index test :: http_calls env (S index) rest
  end.

(** What each test of the input answers when it is run, in the order of
    the input. *)
Definition checks (env : Env) (tests : list FlowSpecTest)
  : list (res value) :=
  if playwright_available env then batch_calls env 0 tests
  else http_calls env 0 tests.

(** [item["id"]] of the entries. *)
Definition entry_ids (entries : list value) : list (res value) :=
  map (fun item => subscript item "id") entries.

(** What a loop added to the results ([more]) and to the reports
    ([vals]), when [todo] tests were left and [calls] are their checks. *)
Record grown_by (on_progress : option (Z -> res unit))
    (should_stop : option (nat -> bool)) (calls : list (res value))
    (todo : nat) (st st' : Loop) (more : list value) (vals : list Z)
  : Prop := {
  grown_results : l_results st' = (l_results st ++ more)%list;
  grown_gather : gather (firstn (List.length more) calls) = Ok more;
  grown_bound : (List.length more <= todo)%nat;
  grown_all : l_canceled st' = false -> List.length more = todo;
  grown_stop : l_canceled st' = true -> should_stop <> None;
  grown_emitted : l_emitted st' = (l_emitted st ++ vals)%list;
  grown_capped : Forall (fun x => x <= 95) vals;
  grown_silent : on_progress = None -> vals = [];
  grown_reports : (List.length vals <= List.length more)%nat
}.

End Checks.

Import Checks.

(* ================================================================== *)
(** * The listing through its route *)
(* ================================================================== *)

Module ListingRoute.

(** The equality filters of [GET /jobs]: a filter that is given selects the
    records whose field is that literal, a missing one every record. *)
Definition matches (k : option JobKind) (s : option JobStatus)
    (job : JobState) : bool :=
  match k with
  | Some k0 => JobKind_eqb (kind job) k0
  | None => true
  end
  && match s with
     | Some s0 => JobStatus_eqb (status job) s0
     | None => true
     end.

End ListingRoute.

Import ListingRoute.

(* ================================================================== *)
(** * [_to_json_safe] on dicts with keys of any type *)
(* ================================================================== *)

Module JsonKeys.

(** A key of a dict, by what [str(key)] makes of it: a [str], which is its
    own [str()], or another hashable object, given by its [str()]. *)
Inductive key :=
| KStr (s : string)
| KOther (str_ : string).

Definition key_str (k : key) : string :=
  match k with
  | KStr s => s
  | KOther str_ => str_
  end.

(** The values [_to_json_safe] may be given: as [Py.value], but with dicts
    keyed by any hashable object. *)
#[warnings="-register-all"]
Inductive object :=
| ONone
| OBool (b : bool)
| OInt (z : Z)
| OFloat (f : spec_float)
| OStr (s : string)
| OList (items : list object)
| OTuple (items : list object)
| ODict (entries : list (key * object))
| OObj (repr : string).

(** A dict comprehension [{k: v for ...}]: the entries are written in
    order, and a key that was written before keeps its place and takes the
    new value. *)
Definition comprehension {V} (entries : list (string * V)) : dict V :=
  fold_left (fun d kv => dict_set (fst kv) (snd kv) d) entries [].

(** [_to_json_safe], with the [str(key)] of its last branch. *)
Fixpoint _to_json_safe (value_ : object) : value :=
  match value_ with
  | ONone => VNone
  | OBool b => VBool b
  | OInt z => VInt z
  | OFloat f => VFloat f
  | OStr s => VStr s
  | OList items => VList (map _to_json_safe items)
  | OTuple items => VList (map _to_json_safe items)
  | ODict entries =>
      VDict (comprehension
               (map (fun kv => (key_str (fst kv), _to_json_safe (snd kv)))
                  entries))
  | OObj repr => VStr repr
  end.

(** A value whose dicts are keyed by strings, among the objects. *)
Fixpoint object_of (v : value) : object :=
  match v with
  | VNone => ONone
  | VBool b => OBool b
  | VInt z => OInt z
  | VFloat f => OFloat f
  | VStr s => OStr s
  | VList items => OList (map object_of items)
  | VTuple items => OTuple (map object_of items)
  | VDict entries =>
      ODict (map (fun kv => (KStr (fst kv), object_of (snd kv))) entries)
  | VObj repr => OObj repr
  end.

(** No string twice. *)
Fixpoint distinct (l : list string) : bool :=
  match l with
  | [] => true
  | s :: rest => negb (existsb (String.eqb s) rest) && distinct rest
  end.

(** The association lists that are dicts: no key twice, at any depth. *)
Fixpoint well_keyed (v : value) : bool :=
  match v with
  | VList items | VTuple items => forallb well_keyed items
  | VDict entries =>
      distinct (map fst entries)
      && forallb (fun kv => well_keyed (snd kv)) entries
  | _ => true
  end.

End JsonKeys.

(* ================================================================== *)
(** * app/services/evaluation.py: one evaluation run *)
(* ================================================================== *)

Module EvalRun.

Import Evaluation.

Inductive Mode := baseline | advanced.

Definition Mode_str (m : Mode) : string :=
  match m with
  | baseline => "baseline"
  | advanced => "advanced"
  end.

Record RetrieverHit := {
  chunk_id : string;
  source : string;
  text : string;
  score : spec_float
}.

(** A row of the synthetic test set, by the two fields the loop reads:
    [str(_extract_eval_field(...)).strip()] of [user_input] and of
    [reference]. *)
Record Row := {
  user_input : string;
  reference : string
}.

(** [SingleTurnSample] *)
Record Sample := {
  s_user_input : string;
  s_response : string;
  s_reference : string;
  s_retrieved_contexts : list string
}.

Record EvalSampleRow := {
  sample_id : string;
  query : string;
  expected_source : string;
  retrieved_sources : list string
}.

Record EvalScore := {
  faithfulness : spec_float;
  context_precision : spec_float;
  context_recall : spec_float
}.

(** What is outside the program: the ingestion of the documents, the
    OpenAI quota check, the RAGAS models, the generated test set, the
    retrievers, [str.strip] on the text of a hit, the answering model, the
    scoring, and the float arithmetic on the scores of a comparison. *)
Record Env := {
  ingest : bool -> res unit;
  rpd_available : res unit;
  ragas_models : res unit;
  testset : Z -> res (list Row);
  retrieve : Mode -> string -> Z -> Z -> res (list RetrieverHit);
  is_blank : string -> bool;
  build_answer : string -> list string -> res string;
  scoring : list Sample -> res EvalScore;
  compare_deltas : value -> value -> res (value * string)
}.

(** ** The callbacks and what they were told

    A callback answers with what it reports upward; the trace keeps what
    the callbacks of the caller were told, in order. *)
Record Trace := {
  reported : list Z;
  phases : list string
}.

Definition no_trace : Trace := {| reported := []; phases := [] |}.

(** A computation that calls the callbacks and may raise. *)
Definition M (A : Type) : Type := Trace -> res A * Trace.

Definition ret {A} (a : A) : M A := fun tr => (Ok a, tr).

Definition lift {A} (r : res A) : M A := fun tr => (r, tr).

Definition mbind {A B} (m : M A) (k : A -> M B) : M B :=
  fun tr =>
    match m tr with
    | (Ok a, tr') => k a tr'
    | (Raise e, tr') => (Raise e, tr')
    end.

Notation "x <~ m ;; k" := (mbind m (fun x => k))
  (at level 61, m at next level, right associativity) : py_scope.

(** [if on_progress: on_progress(value_)] *)
Definition tell_progress (on_progress : option (callback Z)) (value_ : Z)
  : M unit :=
  fun tr =>
    match on_progress with
    | None => (Ok tt, tr)
    | Some call =>
        match call value_ with
        | Ok told =>
            (Ok tt, {| reported := reported tr ++ [told];
                       phases := phases tr |})
        | Raise e => (Raise e, tr)
        end
    end.

(** [if on_phase: on_phase(label)] *)
Definition tell_phase (on_phase : option (string -> res string))
    (label : string) : M unit :=
  fun tr =>
    match on_phase with
    | None => (Ok tt, tr)
    | Some call =>
        match call label with
        | Ok told =>
            (Ok tt, {| reported := reported tr;
                       phases := phases tr ++ [told] |})
        | Raise e => (Raise e, tr)
        end
    end.

(** ** [f"sample-{n:03d}"] *)

Definition digit (n : nat) : string :=
  match n with
  | 0 => "0" | 1 => "1" | 2 => "2" | 3 => "3" | 4 => "4"
  | 5 => "5" | 6 => "6" | 7 => "7" | 8 => "8" | _ => "9"
  end%nat.

Fixpoint decimal_fuel (fuel n : nat) : string :=
  match fuel with
  | O => ""
  | S fuel =>
      if (n <? 10)%nat then digit n
      else String.append (decimal_fuel fuel (n / 10)) (digit (n mod 10))
  end.

(** [str(n)] *)
Definition decimal (n : nat) : string := decimal_fuel (S n) n.

(** [f"{n:03d}"] *)
Definition pad3 (n : nat) : string :=
  if (n <? 10)%nat then String.append "00" (decimal n)
  else if (n <? 100)%nat then String.append "0" (decimal n)
  else decimal n.

Definition sample_name (n : nat) : string :=
  String.append "sample-" (pad3 n).

(** ** [_build_eval_samples] *)

(** [if on_progress and rows:
       on_progress(int(((index + 1) / len(rows)) * 100))], inside the loop,
    where [rows] is not empty. *)
Definition report_row (on_progress : option (callback Z)) (index : nat)
    (total : Z) : M unit :=
  match on_progress with
  | None => ret tt
  | Some _ =>
      local <~ lift (int_ratio_times (Z.of_nat index + 1) total 100) ;;
      tell_progress on_progress local
  end.

(** [[hit.text for hit in hits if hit.text.strip()]] *)
Definition contexts_of (env : Env) (hits : list RetrieverHit) : list string :=
  map text (filter (fun hit => negb (is_blank env (text hit))) hits).

(** The loop, [for index, row in enumerate(rows)], with the lists it
    appends to. *)
Fixpoint build_loop (env : Env) (mode : Mode) (top_k fetch_k : Z)
    (on_progress : option (callback Z)) (total : Z) (index : nat)
    (todo : list Row) (samples : list Sample)
    (sample_rows : list EvalSampleRow)
  : M (list Sample * list EvalSampleRow) :=
  match todo with
  | [] => ret (samples, sample_rows)
  | row :: rest =>
      _ <~ report_row on_progress index total ;;
      let question := user_input row in
      if String.eqb question "" then
        build_loop env mode top_k fetch_k on_progress total (S index) rest
          samples sample_rows
      else
        hits <~ lift (retrieve env mode question top_k fetch_k) ;;
        let contexts := contexts_of env hits in
        match contexts with
        | [] =>
            build_loop env mode top_k fetch_k on_progress total (S index)
              rest samples sample_rows
        | _ :: _ =>
            answer <~ lift (build_answer env question contexts) ;;
            let single_turn :=
              {| s_user_input := question; s_response := answer;
                 s_reference := reference row;
                 s_retrieved_contexts := contexts |} in
            let samples := (samples ++ [single_turn])%list in
            let sample_rows :=
              (sample_rows
               ++ [{| sample_id := sample_name (List.length samples);
                      query := question;
                      expected_source := "ragas_reference";
                      retrieved_sources := map source hits |}])%list in
            build_loop env mode top_k fetch_k on_progress total (S index)
              rest samples sample_rows
        end
  end.

Definition _build_eval_samples (env : Env) (rows : list Row) (mode : Mode)
    (top_k fetch_k : Z) (on_progress : option (callback Z))
  : M (list Sample * list EvalSampleRow) :=
  build_loop env mode top_k fetch_k on_progress
    (Z.of_nat (List.length rows)) 0 rows [] [].

(** ** [_format_mode_result] *)

Definition format_sample (score_ : EvalScore) (row : EvalSampleRow) : value :=
  VDict [("sample_id", VStr (sample_id row));
         ("query", VStr (query row));
         ("expected_source", VStr (expected_source row));
         ("retrieved_sources", VList (map VStr (retrieved_sources row)));
         ("precision", VFloat (context_precision score_));
         ("recall", VFloat (context_recall score_));
         ("faithfulness", VFloat (faithfulness score_))].

Definition format_metrics (score_ : EvalScore) : value :=
  VDict [("faithfulness", VFloat (faithfulness score_));
         ("context_precision", VFloat (context_precision score_));
         ("context_recall", VFloat (context_recall score_))].

Definition _format_mode_result (score_ : EvalScore)
    (sample_rows : list EvalSampleRow) : value :=
  VDict [("metrics", format_metrics score_);
         ("samples", VList (map (format_sample score_) sample_rows))].

(** ** [_evaluate_mode] *)

(** [emit_phase]: nothing without a callback; a prefix that is [None] or
    empty is no prefix. *)
Definition emit_phase (on_phase : option (string -> res string))
    (phase_prefix : option string) (phase_ : string) : M unit :=
  match on_phase with
  | None => ret tt
  | Some _ =>
      if JobWorker.given phase_prefix then
        match phase_prefix with
        | Some prefix =>
            tell_phase on_phase
              (String.append prefix (String.append "_" phase_))
        | None => tell_phase on_phase phase_
        end
      else tell_phase on_phase phase_
  end.

Definition _evaluate_mode (env : Env) (sample_size top_k fetch_k : Z)
    (mode : Mode) (on_progress : option (callback Z))
    (on_phase : option (string -> res string))
    (phase_prefix : option string) : M value :=
  _ <~ emit_phase on_phase phase_prefix "initializing" ;;
  _ <~ lift (rpd_available env) ;;
  _ <~ tell_progress on_progress 5 ;;
  _ <~ lift (ragas_models env) ;;
  _ <~ tell_progress on_progress 15 ;;
  _ <~ emit_phase on_phase phase_prefix "dataset_generation" ;;
  rows <~ lift (testset env sample_size) ;;
  _ <~ tell_progress on_progress 25 ;;
  match rows with
  | [] =>
      lift (Raise (RuntimeError
                     "Synthetic dataset generation returned no rows."))
  | _ :: _ =>
      _ <~ emit_phase on_phase phase_prefix "retrieval" ;;
      built <~ _build_eval_samples env rows mode top_k fetch_k
                 (_map_progress on_progress 25 80) ;;
      match fst built with
      | [] =>
          lift (Raise (RuntimeError
                         "No valid evaluation samples were produced."))
      | _ :: _ =>
          _ <~ tell_progress on_progress 85 ;;
          _ <~ emit_phase on_phase phase_prefix "scoring" ;;
          score_ <~ lift (scoring env (fst built)) ;;
          _ <~ tell_progress on_progress 98 ;;
          _ <~ emit_phase on_phase phase_prefix "completed" ;;
          ret (_format_mode_result score_ (snd built))
      end
  end.

(** ** [run_baseline_eval], [run_advanced_eval], [run_compare_eval] *)

(** [result["config"] = ...; result["conclusion"] = ...] on the dict that
    [_format_mode_result] built. *)
Definition with_config (result_ : value) (sample_size top_k fetch_k : Z)
    (mode : string) (conclusion : string) : value :=
  match result_ with
  | VDict entries =>
      VDict (dict_set "conclusion" (VStr conclusion)
               (dict_set "config"
                  (VDict [("sample_size", VInt sample_size);
                          ("top_k", VInt top_k);
                          ("fetch_k", VInt fetch_k);
                          ("mode", VStr mode)])
                  entries))
  | other => other
  end.

Definition run_mode_eval (env : Env) (mode : Mode) (conclusion : string)
    (sample_size top_k fetch_k : Z) (force_ingest : bool)
    (on_progress : option (callback Z))
    (on_phase : option (string -> res string)) : M value :=
  _ <~ lift (ingest env force_ingest) ;;
  result_ <~ _evaluate_mode env sample_size top_k fetch_k mode on_progress
               on_phase None ;;
  ret (with_config result_ sample_size top_k fetch_k (Mode_str mode)
         conclusion).

Definition run_baseline_eval (env : Env) :=
  run_mode_eval env baseline JobWorker.baseline_conclusion.

Definition run_advanced_eval (env : Env) :=
  run_mode_eval env advanced JobWorker.advanced_conclusion.

(** [deltas] and [conclusion] are computed from the metrics of the two
    dicts by float subtraction, [round] and [statistics.mean]; they are
    given by [compare_deltas]. *)
Definition run_compare_eval (env : Env) (sample_size top_k fetch_k : Z)
    (force_ingest : bool) (on_progress : option (callback Z))
    (on_phase : option (string -> res string)) : M value :=
  _ <~ tell_phase on_phase "baseline_initializing" ;;
  baseline_ <~ run_baseline_eval env sample_size top_k fetch_k force_ingest
                 (compare_baseline_progress on_progress) on_phase ;;
  _ <~ tell_phase on_phase "advanced_initializing" ;;
  advanced_ <~ run_advanced_eval env sample_size top_k fetch_k false
                 (compare_advanced_progress on_progress) on_phase ;;
  compared <~ lift (compare_deltas env baseline_ advanced_) ;;
  _ <~ tell_phase on_phase "completed" ;;
  ret (VDict [("baseline", baseline_); ("advanced", advanced_);
              ("delta", fst compared);
              ("conclusion", VStr (snd compared));
              ("config",
               VDict [("sample_size", VInt sample_size);
                      ("top_k", VInt top_k);
                      ("fetch_k", VInt fetch_k);
                      ("mode", VStr "compare")])]).

(** ** What the proofs speak of *)

(** Callbacks that report what they are told. *)
Definition echo : option (callback Z) := Some (fun x => Ok x).
Definition echo_phase : option (string -> res string) :=
  Some (fun s => Ok s).

Fixpoint ascending (l : list Z) : bool :=
  match l with
  | a :: (b :: _) as rest => (a <=? b) && ascending rest
  | _ => true
  end.

Definition is_prefix {A} (l full : list A) : Prop :=
  exists rest, full = (l ++ rest)%list.

(** [int((k / total) * 100)], when it is defined. *)
Definition ratio (k total : Z) : Z :=
  match int_ratio_times k total 100 with
  | Ok v => v
  | Raise _ => 0
  end.

(** What [_evaluate_mode] tells its progress callback: its own marks, and
    between them the rows of the test set, brought into 25..80. *)
Definition row_local (total k : Z) : Z :=
  25 + Aux.share 55 (Z.max 0 (Z.min (ratio (k + 1) total) 100)).

Definition row_locals (total : Z) (index count : nat) : list Z :=
  map (fun k => row_local total (Z.of_nat k)) (seq index count).

Definition full_locals (total : nat) : list Z :=
  ([5; 15; 25] ++ row_locals (Z.of_nat total) 0 total ++ [85; 98])%list.

Definition five_phases : list string :=
  ["initializing"; "dataset_generation"; "retrieval"; "scoring";
   "completed"].

Definition compare_phases : list string :=
  ("baseline_initializing" :: five_phases
   ++ "advanced_initializing" :: five_phases ++ ["completed"])%list.

(** The value [_map_progress] hands on, in closed form. *)
Definition scaled (start end_ p : Z) : Z :=
  match scaled_value start end_ p with
  | Ok v => v
  | Raise _ => 0
  end.

(** One row of the table of binary64 results: for a test set of [total]
    rows the local progress of every row is defined, from 0 to 100, and
    not below that of the row before. *)
Definition rows_ok (total : Z) : bool :=
  forallb (fun k =>
             match int_ratio_times (k + 1) total 100 with
             | Ok a =>
                 (0 <=? a) && (a <=? 100) &&
                 ((k =? 0) || (ratio k total <=? a))
             | Raise _ => false
             end)
    (Aux.upto (Z.to_nat total)).

(** The two evaluations of one mode. *)
Definition run_eval (mode : Mode) :=
  match mode with
  | baseline => run_baseline_eval
  | advanced => run_advanced_eval
  end.

Definition conclusion_of (mode : Mode) : string :=
  match mode with
  | baseline => JobWorker.baseline_conclusion
  | advanced => JobWorker.advanced_conclusion
  end.

(** The number of rows of the test set. *)
Definition rows_count (env : Env) (sample_size : Z) : nat :=
  match testset env sample_size with
  | Ok rows => List.length rows
  | Raise _ => 0%nat
  end.

(** The rows that give a sample: a question, and a context that is not
    blank. *)
Definition gives_sample (env : Env) (mode : Mode) (top_k fetch_k : Z)
    (row : Row) : bool :=
  negb (String.eqb (user_input row) "") &&
  match retrieve env mode (user_input row) top_k fetch_k with
  | Ok hits =>
      match contexts_of env hits with
      | [] => false
      | _ :: _ => true
      end
  | Raise _ => false
  end.

(** A world in which every outside call answers, to run the statements
    on: three rows, the second without a question. *)
Definition sample_hit : RetrieverHit :=
  {| chunk_id := "c1"; source := "docs/locators.md";
     text := "Locators are the central piece."; score := S754_zero false |}.

Definition sample_eval_env : Env :=
  {| ingest := fun _ => Ok tt;
     rpd_available := Ok tt;
     ragas_models := Ok tt;
     testset := fun _ =>
       Ok [{| user_input := "What is a locator?"; reference := "r1" |};
           {| user_input := ""; reference := "r2" |};
           {| user_input := "How to wait?"; reference := "r3" |}];
     retrieve := fun _ _ _ _ => Ok [sample_hit];
     is_blank := fun s => String.eqb s "";
     build_answer := fun _ _ => Ok "answer";
     scoring := fun _ =>
       Ok {| faithfulness := S754_zero false;
             context_precision := S754_zero false;
             context_recall := S754_zero false |};
     compare_deltas := fun _ _ => Ok (VDict [], "equal") |}.

Definition sample_eval_result : value :=
  match fst (run_eval baseline sample_eval_env 12 5 20 false echo
               echo_phase no_trace) with
  | Ok r => r
  | Raise _ => VNone
  end.

(** The same world with a test set whose only row has no question. *)
Definition mute_eval_env : Env :=
  {| ingest := ingest sample_eval_env;
     rpd_available := rpd_available sample_eval_env;
     ragas_models := ragas_models sample_eval_env;
     testset := fun _ => Ok [{| user_input := ""; reference := "r" |}];
     retrieve := retrieve sample_eval_env;
     is_blank := is_blank sample_eval_env;
     build_answer := build_answer sample_eval_env;
     scoring := scoring sample_eval_env;
     compare_deltas := compare_deltas sample_eval_env |}.

End EvalRun.

(* ================================================================== *)
(** * Facts about the runtime *)
(* ================================================================== *)

Section RuntimeFacts.

Lemma bind_ok {A B} (m : res A) (k : A -> res B) (b : B) :
  bind m k = Ok b -> exists a, m = Ok a /\ k a = Ok b.
Proof.
  destruct m as [a|e]; simpl; intros H; [eauto | discriminate].
Qed.

Lemma Ok_inj {A} (a b : A) : Ok a = Ok b -> a = b.
Proof. intros H. now injection H. Qed.

Lemma dict_get_set_same {V} (k : string) (v : V) (d : dict V) :
  dict_get k (dict_set k v d) = Some v.
Proof.
  induction d as [|[k' v'] d IH]; simpl.
  - now rewrite String.eqb_refl.
  - destruct (String.eqb k k') eqn:E; simpl; rewrite E; auto.
Qed.

Lemma dict_get_set_other {V} (k k0 : string) (v : V) (d : dict V) :
  k0 <> k -> dict_get k0 (dict_set k v d) = dict_get k0 d.
Proof.
  intros Hne. induction d as [|[k' v'] d IH]; simpl.
  - destruct (String.eqb k0 k) eqn:E; auto.
    apply String.eqb_eq in E. contradiction.
  - destruct (String.eqb k k') eqn:E; simpl.
    + apply String.eqb_eq in E. subst k'.
      destruct (String.eqb k0 k) eqn:E0; auto.
      apply String.eqb_eq in E0. contradiction.
    + now rewrite IH.
Qed.

Lemma JobKind_eqb_eq (a b : JobKind) : JobKind_eqb a b = true <-> a = b.
Proof.
  split.
  - destruct a, b; intros H; try reflexivity; discriminate H.
  - intros ->. destruct b; reflexivity.
Qed.

Lemma JobStatus_eqb_eq (a b : JobStatus) : JobStatus_eqb a b = true <-> a = b.
Proof.
  split.
  - destruct a, b; intros H; try reflexivity; discriminate H.
  - intros ->. destruct b; reflexivity.
Qed.

Lemma JobStatus_eqb_neq (a b : JobStatus) :
  JobStatus_eqb a b = false <-> a <> b.
Proof.
  split.
  - intros H ->. destruct b; discriminate H.
  - intros H. destruct (JobStatus_eqb a b) eqn:E; auto.
    apply JobStatus_eqb_eq in E. contradiction.
Qed.

End RuntimeFacts.

(* ================================================================== *)
(** * The progress helper *)
(* ================================================================== *)

Section ProgressScaling.

Import Evaluation.

Lemma in_upto (n : nat) (z : Z) : 0 <= z < Z.of_nat n -> In z (upto n).
Proof.
  intros H. unfold upto. apply in_map_iff. exists (Z.to_nat z). split.
  - lia.
  - apply in_seq. lia.
Qed.

Lemma share_table : forallb row_ok (upto 101) = true.
Proof. vm_compute. reflexivity. Qed.

Lemma row_of (span : Z) : 0 <= span <= 100 -> row_ok span = true.
Proof.
  intros H. pose proof share_table as T.
  rewrite forallb_forall in T. apply T. apply in_upto. lia.
Qed.

Lemma share_defined (span p : Z) :
  0 <= span <= 100 -> 0 <= p <= 100 ->
  int_ratio_times p 100 span = Ok (share span p).
Proof.
  intros Hs Hp. pose proof (row_of span Hs) as R. unfold row_ok in R.
  repeat rewrite andb_true_iff in R. destruct R as [[[D _] _] _].
  rewrite forallb_forall in D.
  specialize (D p (in_upto 101 p ltac:(lia))).
  unfold defined in D. unfold share.
  destruct (int_ratio_times p 100 span); [reflexivity | discriminate].
Qed.

Lemma share_ends (span : Z) :
  0 <= span <= 100 -> share span 0 = 0 /\ share span 100 = span.
Proof.
  intros Hs. pose proof (row_of span Hs) as R. unfold row_ok in R.
  repeat rewrite andb_true_iff in R. destruct R as [[[_ A] B] _].
  split; lia.
Qed.

Lemma share_step (span p : Z) :
  0 <= span <= 100 -> 0 <= p < 100 -> share span p <= share span (p + 1).
Proof.
  intros Hs Hp. pose proof (row_of span Hs) as R. unfold row_ok in R.
  repeat rewrite andb_true_iff in R. destruct R as [_ S].
  rewrite forallb_forall in S.
  specialize (S p (in_upto 100 p ltac:(lia))). lia.
Qed.

Lemma share_mono (span p q : Z) :
  0 <= span <= 100 -> 0 <= p <= q -> q <= 100 ->
  share span p <= share span q.
Proof.
  intros Hs Hpq Hq.
  replace q with (p + Z.of_nat (Z.to_nat (q - p))) in * by lia.
  induction (Z.to_nat (q - p)) as [|n IH].
  - rewrite Z.add_0_r. lia.
  - rewrite Nat2Z.inj_succ in *.
    transitivity (share span (p + Z.of_nat n)).
    + apply IH; lia.
    + replace (p + Z.succ (Z.of_nat n)) with (p + Z.of_nat n + 1) by lia.
      apply share_step; lia.
Qed.

Lemma share_range (span p : Z) :
  0 <= span <= 100 -> 0 <= p <= 100 -> 0 <= share span p <= span.
Proof.
  intros Hs Hp. destruct (share_ends span Hs) as [A B]. split.
  - rewrite <- A. apply share_mono; lia.
  - rewrite <- B at 2. apply share_mono; lia.
Qed.

(** [scaled_value] inside a well-formed sub-range, in closed form. *)
Lemma scaled_value_eq (start end_ p : Z) :
  0 <= start <= end_ -> end_ <= 100 ->
  scaled_value start end_ p
  = Ok (start + share (end_ - start) (Z.max 0 (Z.min p 100))).
Proof.
  intros H1 H2. unfold scaled_value.
  replace (Z.max 0 (Z.min start 100)) with start by lia.
  replace (Z.max start (Z.min end_ 100)) with end_ by lia.
  rewrite share_defined by lia. reflexivity.
Qed.

End ProgressScaling.

Section ProgressBridge.

Import Evaluation JobWorker.

(** C9.  Inside a sub-range [0 <= start <= end_ <= 100], the callback that
    [_map_progress] builds hands the parent [scaled_value start end_ p]:
    local 0 gives [start], local 100 gives [end_], every local value
    gives a value of [start .. end_], and a larger local value never gives a
    smaller one.  Hence every value the first sub-evaluation of
    [run_compare_eval] reports (sub-range 5..49) is below every value the
    second one reports (sub-range 50..95). *)
Theorem map_progress_scaled (start end_ : Z) :
  0 <= start <= end_ -> end_ <= 100 ->
  (forall E (parent : callback E),
      exists mapped,
        _map_progress (Some parent) start end_ = Some mapped /\
        forall p, mapped p = bind (scaled_value start end_ p) parent) /\
  scaled_value start end_ 0 = Ok start /\
  scaled_value start end_ 100 = Ok end_ /\
  (forall p, exists v,
      scaled_value start end_ p = Ok v /\ start <= v <= end_) /\
  (forall p q vp vq,
      p <= q ->
      scaled_value start end_ p = Ok vp ->
      scaled_value start end_ q = Ok vq -> vp <= vq) /\
  (forall p q vp vq,
      scaled_value 5 49 p = Ok vp ->
      scaled_value 50 95 q = Ok vq -> vp <= vq).
Proof.
  intros H1 H2.
  assert (Hs : 0 <= end_ - start <= 100) by lia.
  destruct (share_ends _ Hs) as [E0 E100].
  repeat split.
  - intros E parent. eexists. split; [reflexivity|]. intros p. reflexivity.
  - rewrite scaled_value_eq by lia.
    replace (Z.max 0 (Z.min 0 100)) with 0 by lia. rewrite E0. f_equal. lia.
  - rewrite scaled_value_eq by lia.
    replace (Z.max 0 (Z.min 100 100)) with 100 by lia. rewrite E100.
    f_equal. lia.
  - intros p. eexists. split; [apply scaled_value_eq; lia|].
    pose proof (share_range (end_ - start) (Z.max 0 (Z.min p 100)) Hs
                  ltac:(lia)). lia.
  - intros p q vp vq Hpq Hp Hq.
    rewrite scaled_value_eq in Hp, Hq by lia.
    apply Ok_inj in Hp, Hq. subst vp vq.
    pose proof (share_mono (end_ - start) (Z.max 0 (Z.min p 100))
                  (Z.max 0 (Z.min q 100)) Hs ltac:(lia) ltac:(lia)). lia.
  - intros p q vp vq Hp Hq.
    rewrite scaled_value_eq in Hp, Hq by lia.
    apply Ok_inj in Hp, Hq. subst vp vq.
    pose proof (share_range (49 - 5) (Z.max 0 (Z.min p 100))
                  ltac:(lia) ltac:(lia)).
    pose proof (share_range (95 - 50) (Z.max 0 (Z.min q 100))
                  ltac:(lia) ltac:(lia)). lia.
Qed.

Lemma map_progress_scaled_witness :
  (0 <= 25 <= 80 /\ 80 <= 100) /\
  scaled_value 25 80 0 = Ok 25 /\ scaled_value 25 80 100 = Ok 80.
Proof.
  split; [lia|].
  destruct (map_progress_scaled 25 80 ltac:(lia) ltac:(lia))
    as (_ & A & B & _).
  exact (conj A B).
Defined.

(** The helper runs on binary64, not on exact fractions: local 29 of a
    whole bar is 28. *)
Example scaled_value_29 : scaled_value 0 100 29 = Ok 28.
Proof. vm_compute. reflexivity. Qed.

Example scaled_value_compare_halves :
  scaled_value 5 49 50 = Ok 27 /\ scaled_value 50 95 50 = Ok 72.
Proof. vm_compute. split; reflexivity. Qed.

End ProgressBridge.

(* ================================================================== *)
(** * The registry functions, record by record *)
(* ================================================================== *)

Section RecordView.

Import JobWorker.

Lemma dict_set_same_value {V} (k : string) (v : V) (d : dict V) :
  dict_get k d = Some v -> dict_set k v d = d.
Proof.
  induction d as [|[k' v'] d IH]; simpl; [discriminate|].
  destruct (String.eqb k k') eqn:E; intros H.
  - now injection H as ->.
  - now rewrite IH.
Qed.

Lemma dict_set_set {V} (k : string) (x y : V) (d : dict V) :
  dict_set k x (dict_set k y d) = dict_set k x d.
Proof.
  induction d as [|[k' v'] d IH]; simpl.
  - now rewrite String.eqb_refl.
  - destruct (String.eqb k k') eqn:E; simpl; rewrite E; [reflexivity|].
    now rewrite IH.
Qed.

Variables (id : string) (jobs : registry) (j : JobState).
Hypothesis Hget : dict_get id jobs = Some j.

Lemma cancel_job_at (now : Z) :
  fst (cancel_job id now jobs) = dict_set id (cancel_record now j) jobs.
Proof.
  unfold cancel_job, cancel_record. rewrite Hget.
  destruct (negb (JobKind_eqb (kind j) run_tests)); simpl.
  - symmetry. now apply dict_set_same_value.
  - destruct (is_terminal (status j)); simpl; [|reflexivity].
    symmetry. now apply dict_set_same_value.
Qed.

Lemma set_progress_at (value_ : Z) :
  _set_progress id value_ jobs = dict_set id (progress_record value_ j) jobs.
Proof.
  unfold _set_progress, progress_record. rewrite Hget.
  destruct (negb (JobStatus_eqb (status j) running)); [|reflexivity].
  symmetry. now apply dict_set_same_value.
Qed.

Lemma set_phase_at (label : string) :
  _set_phase id label jobs = dict_set id (phase_record label j) jobs.
Proof.
  unfold _set_phase, phase_record. rewrite Hget.
  destruct (negb (JobStatus_eqb (status j) running)); [|reflexivity].
  symmetry. now apply dict_set_same_value.
Qed.

Lemma fail_job_at (code_ message_ : string) (details_ : option value)
    (now : Z) :
  _fail_job id code_ message_ details_ now jobs
  = Ok (dict_set id (fail_record code_ message_ details_ now j) jobs).
Proof.
  unfold _fail_job, fail_record. rewrite Hget.
  destruct (JobStatus_eqb (status j) canceled); [|reflexivity].
  f_equal. symmetry. now apply dict_set_same_value.
Qed.

Lemma timeout_job_at (code_ message_ : string) (now : Z) :
  _timeout_job id code_ message_ now jobs
  = Ok (dict_set id (timeout_record code_ message_ now j) jobs).
Proof.
  unfold _timeout_job, timeout_record. rewrite Hget.
  destruct (JobStatus_eqb (status j) canceled); [|reflexivity].
  f_equal. symmetry. now apply dict_set_same_value.
Qed.

Lemma run_job_enter_at (now : Z) :
  _run_job_enter id now jobs
  = Ok (dict_set id (fst (enter_record now j)) jobs,
        snd (enter_record now j)).
Proof.
  unfold _run_job_enter, enter_record. rewrite Hget.
  destruct (JobStatus_eqb (status j) canceled); [|reflexivity].
  simpl. do 2 f_equal. symmetry. now apply dict_set_same_value.
Qed.

Lemma run_job_record_at (result_payload : value) (now : Z) :
  _run_job_record id result_payload now jobs
  = Ok (dict_set id (store_record result_payload now j) jobs).
Proof.
  unfold _run_job_record, store_record. rewrite Hget.
  destruct (JobStatus_eqb (status j) canceled); [reflexivity|].
  destruct (is_dict result_payload
            && truthy (value_get result_payload "canceled")); reflexivity.
Qed.

End RecordView.

Section SliceView.

Import JobWorker.

Lemma run_job_dispatch_at (v : Validators) (id : string)
    (request : CreateJobRequest) (now now' : Z) (jobs : registry)
    (j : JobState) :
  dict_get id jobs = Some j ->
  _run_job_dispatch v id request now now' jobs
  = Ok (dict_set id (fst (dispatch_record v request now now' j)) jobs,
        snd (dispatch_record v request now now' j)).
Proof.
  intros Hget. unfold _run_job_dispatch, dispatch_record.
  rewrite (run_job_enter_at id jobs j Hget). simpl.
  destruct (enter_record now j) as [j1 goes_on]. simpl.
  destruct goes_on; simpl; [|reflexivity].
  destruct (_run_job_validate v request) as [awaited|errors|e];
    [reflexivity| |].
  - unfold _run_job_invalid.
    rewrite (fail_job_at id _ j1 (dict_get_set_same _ _ _)). simpl.
    now rewrite dict_set_set.
  - unfold _run_job_except.
    rewrite (fail_job_at id _ j1 (dict_get_set_same _ _ _)). simpl.
    now rewrite dict_set_set.
Qed.

Lemma run_job_resume_at (id : string) (request : CreateJobRequest)
    (awaited : Await) (answer : Answer) (now : Z) (jobs : registry)
    (j : JobState) :
  dict_get id jobs = Some j ->
  _run_job_resume id request awaited answer now jobs
  = option_map (fun j' => Ok (dict_set id j' jobs))
      (resume_record request awaited answer now j).
Proof.
  intros Hget. unfold _run_job_resume, resume_record.
  destruct (_run_job_await request awaited answer) as [[[p|e]|[]]|]; simpl.
  - f_equal. now apply run_job_record_at.
  - unfold _run_job_except. f_equal. now apply fail_job_at.
  - f_equal. now apply timeout_job_at.
  - reflexivity.
Qed.

(** A job that is not in the registry: nothing is written. *)
Lemma absent_untouched (id : string) (jobs : registry) :
  dict_get id jobs = None ->
  (forall now, fst (cancel_job id now jobs) = jobs) /\
  (forall x, _set_progress id x jobs = jobs) /\
  (forall l, _set_phase id l jobs = jobs) /\
  (forall v request now now',
      _run_job_dispatch v id request now now' jobs = Raise (KeyError id)) /\
  (forall request awaited answer now r,
      _run_job_resume id request awaited answer now jobs = Some r ->
      r = Raise (KeyError id)).
Proof.
  intros Hnone. repeat split; intros.
  - unfold cancel_job. now rewrite Hnone.
  - unfold _set_progress. now rewrite Hnone.
  - unfold _set_phase. now rewrite Hnone.
  - unfold _run_job_dispatch, _run_job_enter. now rewrite Hnone.
  - unfold _run_job_resume in H.
    destruct (_run_job_await request awaited answer) as [[[p|e]|[]]|];
      try discriminate; injection H as <-.
    + unfold _run_job_record. now rewrite Hnone.
    + unfold _run_job_except, _fail_job. now rewrite Hnone.
    + unfold _timeout_job. now rewrite Hnone.
Qed.

(** One turn of the loop, seen from the job it is about. *)
Lemma step_at (v : Validators) (w w' : World) (ev : Event) (id : string)
    (j : JobState) (t : Task) :
  step v w ev = Some w' ->
  target ev = Some id ->
  dict_get id (jobs w) = Some j ->
  dict_get id (tasks w) = Some t ->
  exists j' t',
    job_step v ev j t = Some (j', t') /\
    jobs w' = dict_set id j' (jobs w) /\
    tasks w' = dict_set id t' (tasks w).
Proof.
  intros Hstep Htarget Hj Ht.
  destruct ev; simpl in Htarget; try discriminate;
    injection Htarget as ->; simpl in Hstep |- *.
  - rewrite Hj in Hstep. discriminate.
  - injection Hstep as <-. simpl. exists (cancel_record now j), t.
    repeat split.
    + now apply cancel_job_at.
    + symmetry. now apply dict_set_same_value.
  - injection Hstep as <-. simpl. exists j, t. repeat split; symmetry;
      now apply dict_set_same_value.
  - rewrite Ht in Hstep. destruct (task_state t); try discriminate.
    rewrite (run_job_dispatch_at v id _ now now' _ j Hj) in Hstep.
    destruct (dispatch_record v (task_request t) now now' j)
      as [j' [awaited|]]; simpl in Hstep; injection Hstep as <-;
      eexists; eexists; repeat split.
  - injection Hstep as <-. simpl. exists (progress_record value_ j), t.
    repeat split.
    + now apply set_progress_at.
    + symmetry. now apply dict_set_same_value.
  - injection Hstep as <-. simpl. exists (phase_record label j), t.
    repeat split.
    + now apply set_phase_at.
    + symmetry. now apply dict_set_same_value.
  - rewrite Ht in Hstep. destruct (task_state t); try discriminate.
    rewrite (run_job_resume_at id _ awaited answer now _ j Hj) in Hstep.
    destruct (resume_record (task_request t) awaited answer now j)
      as [j'|]; simpl in Hstep; [|discriminate].
    injection Hstep as <-. eexists; eexists; repeat split.
Qed.

(** The other jobs are left alone. *)
Lemma step_elsewhere (v : Validators) (w w' : World) (ev : Event)
    (id : string) :
  step v w ev = Some w' ->
  target ev <> Some id ->
  dict_get id (jobs w') = dict_get id (jobs w) /\
  dict_get id (tasks w') = dict_get id (tasks w).
Proof.
  intros Hstep Hother.
  assert (Hset : forall V (d : dict V) k x,
             Some k <> Some id -> dict_get id (dict_set k x d) = dict_get id d).
  { intros V d k x Hk. apply dict_get_set_other. congruence. }
  destruct ev as [k request now|k now|k|ks ss limit|k now now'|k x|k l
                 |k answer now]; simpl in Hother, Hstep.
  - destruct (dict_get k (jobs w)); [discriminate|].
    injection Hstep as <-. simpl. split; now apply Hset.
  - injection Hstep as <-. simpl. split; [|reflexivity].
    destruct (dict_get k (jobs w)) as [j|] eqn:Hj.
    + rewrite (cancel_job_at k _ j Hj). now apply Hset.
    + now rewrite (proj1 (absent_untouched k _ Hj)).
  - injection Hstep as <-. now simpl.
  - injection Hstep as <-. now simpl.
  - destruct (dict_get k (tasks w)) as [t|]; [|discriminate].
    destruct (task_state t); try discriminate.
    destruct (dict_get k (jobs w)) as [j|] eqn:Hj.
    + rewrite (run_job_dispatch_at v k _ now now' _ j Hj) in Hstep.
      destruct (dispatch_record v (task_request t) now now' j)
        as [j' [awaited|]]; simpl in Hstep; injection Hstep as <-; simpl;
        split; now apply Hset.
    + destruct (absent_untouched k _ Hj) as (_ & _ & _ & D & _).
      rewrite D in Hstep. injection Hstep as <-. simpl.
      split; [reflexivity | now apply Hset].
  - injection Hstep as <-. simpl. split; [|reflexivity].
    destruct (dict_get k (jobs w)) as [j|] eqn:Hj.
    + rewrite (set_progress_at k _ j Hj). now apply Hset.
    + now rewrite (proj1 (proj2 (absent_untouched k _ Hj))).
  - injection Hstep as <-. simpl. split; [|reflexivity].
    destruct (dict_get k (jobs w)) as [j|] eqn:Hj.
    + rewrite (set_phase_at k _ j Hj). now apply Hset.
    + destruct (absent_untouched k _ Hj) as (_ & _ & P & _).
      now rewrite P.
  - destruct (dict_get k (tasks w)) as [t|]; [|discriminate].
    destruct (task_state t) as [|awaited|]; try discriminate.
    destruct (_run_job_resume k (task_request t) awaited answer now (jobs w))
      as [r|] eqn:Hr; [|discriminate].
    injection Hstep as <-. simpl. split; [|now apply Hset].
    destruct (dict_get k (jobs w)) as [j|] eqn:Hj.
    + rewrite (run_job_resume_at k _ awaited answer now _ j Hj) in Hr.
      destruct (resume_record (task_request t) awaited answer now j);
        simpl in Hr; [|discriminate].
      injection Hr as <-. now apply Hset.
    + destruct (absent_untouched k _ Hj) as (_ & _ & _ & _ & R).
      now rewrite (R _ _ _ _ _ Hr).
Qed.

End SliceView.

(* ================================================================== *)
(** * The invariant of the reachable worlds *)
(* ================================================================== *)

Section Invariant.

Import JobWorker.

Variable v : Validators.

(** Only the scripted tests can hand back a payload flagged as canceled:
    the dicts of the other kinds have no such key. *)
Lemma await_not_flagged (request : CreateJobRequest) (awaited : Await)
    (answer : Answer) (p : value) :
  _run_job_await request awaited answer = Some (inl (Ok p)) ->
  req_kind request <> run_tests ->
  is_dict p && truthy (value_get p "canceled") = false.
Proof.
  unfold _run_job_await. intros H Hk.
  destruct (req_kind request); try contradiction;
    destruct awaited; try discriminate;
    destruct (reply answer) as [sr|run|run|env stops]; try discriminate.
  - destruct sr as [r|e]; simpl in H; [|discriminate].
    injection H as <-. reflexivity.
  - unfold eval_branch, wait_for in H.
    destruct (_ <? _); [discriminate|].
    destruct run as [r|[]]; try discriminate. injection H as <-. reflexivity.
  - unfold eval_branch, wait_for in H.
    destruct (_ <? _); [discriminate|].
    destruct run as [r|[]]; try discriminate. injection H as <-. reflexivity.
  - unfold eval_branch, wait_for in H.
    destruct (_ <? _); [discriminate|].
    destruct run as [[[[b a] d] c]|[]]; try discriminate.
    injection H as <-. reflexivity.
Qed.

Ltac inv_goal :=
  constructor; simpl in *; unfold errored in *;
  try tauto; try lia; try congruence;
  intuition (try discriminate; try congruence; try lia).

Lemma job_step_inv (ev : Event) (j j' : JobState) (t t' : Task) :
  job_inv j t ->
  job_step v ev j t = Some (j', t') ->
  job_inv j' t'.
Proof.
  intros Hinv Hstep.
  destruct j as [jid k s ph pr cr st fi re er].
  destruct t as [rq ts n].
  destruct Hinv as [Hk Ht Hc He Hr Hp Hd]. simpl in *.
  destruct ev as [i request now|i now|i|ks ss limit|i now now'|i x|i l
                 |i answer now]; simpl in Hstep; try discriminate.
  - (* Cancel *)
    injection Hstep as <- <-. unfold cancel_record. simpl.
    destruct (negb (JobKind_eqb k run_tests)) eqn:Ek; [inv_goal|].
    apply negb_false_iff, JobKind_eqb_eq in Ek.
    destruct s, ts; simpl; inv_goal.
  - (* Get *)
    injection Hstep as <- <-. inv_goal.
  - (* List *)
    injection Hstep as <- <-. inv_goal.
  - (* Dispatch *)
    destruct ts; try discriminate.
    unfold dispatch_record, enter_record in Hstep. simpl in Hstep.
    destruct Ht as ([Hs|Hs] & Hst & Hn & Hpr); subst s; simpl in Hstep.
    + destruct (_run_job_validate v rq) as [awaited|errors|e];
        simpl in Hstep; injection Hstep as <- <-; inv_goal.
    + injection Hstep as <- <-. inv_goal.
  - (* Progress *)
    injection Hstep as <- <-. unfold progress_record. simpl.
    destruct s, ts; simpl; inv_goal.
  - (* Phase *)
    injection Hstep as <- <-. unfold phase_record. simpl.
    destruct s, ts; simpl; inv_goal.
  - (* Resume *)
    destruct ts as [|awaited|]; try discriminate.
    unfold resume_record in Hstep.
    destruct (_run_job_await rq awaited answer) as [[[p|e]|[]]|] eqn:Ha;
      try discriminate; injection Hstep as <- <-.
    + unfold store_record. simpl.
      destruct Ht as [Hs|Hs]; subst s; simpl.
      * destruct (is_dict p && truthy (value_get p "canceled")) eqn:Ef.
        -- assert (k = run_tests).
           { destruct (JobKind_eqb k run_tests) eqn:Ek.
             - now apply JobKind_eqb_eq.
             - rewrite (await_not_flagged rq awaited answer p Ha) in Ef;
                 [discriminate|].
               intros Hrt. rewrite Hk, Hrt in Ek. discriminate. }
           inv_goal.
        -- inv_goal.
      * destruct er; simpl; inv_goal.
    + unfold fail_record. simpl.
      destruct Ht as [Hs|Hs]; subst s; simpl; inv_goal.
    + unfold timeout_record. simpl.
      destruct Ht as [Hs|Hs]; subst s; simpl; inv_goal.
Qed.

Lemma start_inv : world_inv start.
Proof. intros id. exact I. Qed.

Lemma step_inv (w w' : World) (ev : Event) :
  world_inv w -> step v w ev = Some w' -> world_inv w'.
Proof.
  intros Hinv Hstep id. specialize (Hinv id).
  destruct (option_map (String.eqb id) (target ev)) as [[|]|] eqn:Et.
  - (* the event is about [id] *)
    assert (Htarget : target ev = Some id).
    { destruct (target ev) as [k|]; [|discriminate]. simpl in Et.
      injection Et as Et. apply String.eqb_eq in Et. now subst. }
    destruct (dict_get id (jobs w)) as [j|] eqn:Hj;
      destruct (dict_get id (tasks w)) as [t|] eqn:Ht; try contradiction.
    + destruct (step_at v w w' ev id j t Hstep Htarget Hj Ht)
        as (j' & t' & Hjs & -> & ->).
      rewrite !dict_get_set_same. eapply job_step_inv; eauto.
    + destruct ev as [i request now|i now|i|ks ss limit|i now now'|i x|i l
                     |i answer now]; simpl in Htarget; try discriminate;
        injection Htarget as ->; simpl in Hstep.
      * rewrite Hj in Hstep. injection Hstep as <-. simpl.
        rewrite !dict_get_set_same. constructor; simpl; unfold errored;
          intuition (try discriminate; try congruence; try lia).
      * injection Hstep as <-. simpl.
        rewrite (proj1 (absent_untouched id _ Hj)). now rewrite Hj, Ht.
      * injection Hstep as <-. simpl. now rewrite Hj, Ht.
      * rewrite Ht in Hstep. discriminate.
      * injection Hstep as <-. simpl.
        rewrite (proj1 (proj2 (absent_untouched id _ Hj))).
        now rewrite Hj, Ht.
      * injection Hstep as <-. simpl.
        destruct (absent_untouched id _ Hj) as (_ & _ & P & _).
        rewrite P. now rewrite Hj, Ht.
      * rewrite Ht in Hstep. discriminate.
  - (* the event is about another job *)
    assert (Hother : target ev <> Some id).
    { destruct (target ev) as [k|]; [|discriminate]. simpl in Et.
      injection Et as Et. intros [= ->]. rewrite String.eqb_refl in Et.
      discriminate. }
    destruct (step_elsewhere v w w' ev id Hstep Hother) as [-> ->].
    exact Hinv.
  - assert (Hother : target ev <> Some id).
    { destruct (target ev); [discriminate | congruence]. }
    destruct (step_elsewhere v w w' ev id Hstep Hother) as [-> ->].
    exact Hinv.
Qed.

Lemma run_inv (events : list Event) (w w' : World) :
  world_inv w -> run v w events = Some w' -> world_inv w'.
Proof.
  revert w. induction events as [|ev events IH]; simpl; intros w Hinv Hrun.
  - now injection Hrun as <-.
  - destruct (step v w ev) as [w1|] eqn:Hstep; [|discriminate].
    eapply IH; [|exact Hrun]. eapply step_inv; eauto.
Qed.

Lemma reachable_inv (w : World) : reachable v w -> world_inv w.
Proof. intros [events Hrun]. eapply run_inv; [apply start_inv | eauto]. Qed.

Lemma reachable_job (w : World) (id : string) (j : JobState) :
  reachable v w -> dict_get id (jobs w) = Some j ->
  exists t, dict_get id (tasks w) = Some t /\ job_inv j t.
Proof.
  intros Hr Hj. pose proof (reachable_inv w Hr id) as H. rewrite Hj in H.
  destruct (dict_get id (tasks w)) as [t|]; [eauto | contradiction].
Qed.

Lemma reachable_step (w w' : World) (ev : Event) :
  reachable v w -> step v w ev = Some w' -> reachable v w'.
Proof.
  intros [events Hrun] Hstep. exists (events ++ [ev])%list.
  revert Hrun. generalize start. induction events as [|e events IH];
    simpl; intros w0 Hrun.
  - injection Hrun as ->. now rewrite Hstep.
  - destruct (step v w0 e); [|discriminate]. now apply IH.
Qed.

End Invariant.

(* ================================================================== *)
(** * The lifecycle *)
(* ================================================================== *)

Section Lifecycle.

Import JobWorker.

Variable v : Validators.

(** One turn of the loop, seen from any job of the registry. *)
Lemma step_cases (w w' : World) (ev : Event) (id : string) (j : JobState)
    (t : Task) :
  step v w ev = Some w' ->
  dict_get id (jobs w) = Some j ->
  dict_get id (tasks w) = Some t ->
  exists j' t',
    dict_get id (jobs w') = Some j' /\
    dict_get id (tasks w') = Some t' /\
    ((j' = j /\ t' = t /\ target ev <> Some id) \/
     (target ev = Some id /\ job_step v ev j t = Some (j', t'))).
Proof.
  intros Hstep Hj Ht.
  destruct (option_map (String.eqb id) (target ev)) as [[|]|] eqn:Et.
  - assert (Htarget : target ev = Some id).
    { destruct (target ev) as [k|]; [|discriminate]. simpl in Et.
      injection Et as Et. apply String.eqb_eq in Et. now subst. }
    destruct (step_at v w w' ev id j t Hstep Htarget Hj Ht)
      as (j' & t' & Hjs & -> & ->).
    exists j', t'. rewrite !dict_get_set_same. auto 6.
  - assert (Hother : target ev <> Some id).
    { destruct (target ev) as [k|]; [|discriminate]. simpl in Et.
      injection Et as Et. intros [= ->]. rewrite String.eqb_refl in Et.
      discriminate. }
    destruct (step_elsewhere v w w' ev id Hstep Hother) as [-> ->].
    exists j, t. auto 6.
  - assert (Hother : target ev <> Some id).
    { destruct (target ev); [discriminate | congruence]. }
    destruct (step_elsewhere v w w' ev id Hstep Hother) as [-> ->].
    exists j, t. auto 6.
Qed.

(** A property of a job and its task that every event keeps holds along
    every run. *)
Lemma run_keeps (Q : JobState -> Task -> Prop) :
  (forall ev j t j' t',
      Q j t -> job_step v ev j t = Some (j', t') -> Q j' t') ->
  forall events w w' id j t,
    dict_get id (jobs w) = Some j ->
    dict_get id (tasks w) = Some t ->
    Q j t ->
    run v w events = Some w' ->
    exists j' t',
      dict_get id (jobs w') = Some j' /\
      dict_get id (tasks w') = Some t' /\ Q j' t'.
Proof.
  intros Hkeep events.
  induction events as [|ev events IH]; simpl; intros w w' id j t Hj Ht HQ Hrun.
  - injection Hrun as <-. eauto.
  - destruct (step v w ev) as [w1|] eqn:Hstep; [|discriminate].
    destruct (step_cases w w1 ev id j t Hstep Hj Ht)
      as (j1 & t1 & Hj1 & Ht1 & [(-> & -> & _)|(_ & Hjs)]).
    + eapply IH; eauto.
    + eapply IH; eauto.
Qed.

(** What an event does to a job in a terminal state: nothing, but for the
    payload that the unit of work of a canceled job hands back. *)
Lemma job_step_terminal (ev : Event) (j j' : JobState) (t t' : Task) :
  job_inv j t ->
  is_terminal (status j) = true ->
  job_step v ev j t = Some (j', t') ->
  (j' = j \/
   (status j = canceled /\
    (exists i answer now, ev = Resume i answer now) /\
    (exists a, task_state t = Awaiting a) /\
    task_state t' = Finished /\
    exists p, j' = set_result (Some (_to_json_safe p)) j)) /\
  (task_state t = Finished -> t' = t).
Proof.
  intros Hinv Hterm Hstep.
  destruct j as [jid k s ph pr cr st fi re er].
  destruct t as [rq ts n].
  destruct Hinv as [Hk Ht Hc He Hr Hp Hd]. simpl in *.
  destruct ev as [i request now|i now|i|ks ss limit|i now now'|i x|i l
                 |i answer now]; simpl in Hstep; try discriminate.
  - injection Hstep as <- <-. unfold cancel_record. simpl.
    rewrite Hterm. destruct (negb (JobKind_eqb k run_tests)); auto.
  - injection Hstep as <- <-. auto.
  - injection Hstep as <- <-. auto.
  - destruct ts; try discriminate.
    unfold dispatch_record, enter_record in Hstep. simpl in Hstep.
    destruct Ht as ([Hs|Hs] & _); subst s; [discriminate|].
    simpl in Hstep. injection Hstep as <- <-.
    split; [auto | discriminate].
  - injection Hstep as <- <-. unfold progress_record. simpl.
    destruct s; try discriminate; auto.
  - injection Hstep as <- <-. unfold phase_record. simpl.
    destruct s; try discriminate; auto.
  - destruct ts as [|awaited|]; try discriminate.
    destruct Ht as [Hs|Hs]; subst s; [discriminate|].
    unfold resume_record in Hstep.
    destruct (_run_job_await rq awaited answer) as [[[p|e]|[]]|];
      try discriminate; injection Hstep as <- <-;
      (split; [|discriminate]).
    + right. repeat split; eauto.
      exists p. unfold store_record. simpl.
      destruct er as [e|]; [reflexivity|].
      exfalso. apply (proj2 He); unfold errored; auto.
    + left. reflexivity.
    + left. reflexivity.
Qed.

End Lifecycle.

Section RegistryCalls.

Import JobWorker.

Variable v : Validators.

(** C4.  Canceling an existing job of a kind other than [run_tests] raises
    the [ValueError] that the route turns into the invalid-operation
    response (400, [INVALID_OPERATION]); the registry, and with it the
    record and its status, is left as it was. *)
Theorem cancel_unsupported_kind (id : string) (now : Z) (jobs : registry)
    (current : JobState) :
  dict_get id jobs = Some current ->
  kind current <> run_tests ->
  cancel_job id now jobs
  = (jobs, Raise (ValueError "Only run_tests jobs can be canceled.")) /\
  Api.post_cancel_job id now jobs
  = (jobs, Ok (Api.HTTPException 400 "INVALID_OPERATION"
                 "Only run_tests jobs can be canceled.")) /\
  dict_get id (fst (cancel_job id now jobs)) = Some current.
Proof.
  intros Hget Hkind.
  assert (E : cancel_job id now jobs
              = (jobs, Raise (ValueError
                                "Only run_tests jobs can be canceled."))).
  { unfold cancel_job. rewrite Hget.
    destruct (JobKind_eqb (kind current) run_tests) eqn:Ek; [|reflexivity].
    apply JobKind_eqb_eq in Ek. contradiction. }
  split; [exact E|]. split.
  - unfold Api.post_cancel_job. rewrite E. reflexivity.
  - rewrite E. exact Hget.
Qed.

(** C3.  [_set_progress] on a running job records the larger of the current
    progress and the incoming value cut at 99, so the progress does not
    decrease and stays below 100; on a job that is not running, and so on a
    job in a terminal state, the registry is left as it is.  A sequence of
    calls on a running job accumulates the same way.  The running jobs of
    the reachable worlds have a progress from 5 to 99. *)
Theorem set_progress_running_max (id : string) (jobs : registry)
    (current : JobState) :
  dict_get id jobs = Some current ->
  (status current = running ->
   forall values,
     exists current',
       dict_get id (fold_left (fun r x => _set_progress id x r) values jobs)
       = Some current' /\
       current' = set_progress
                    (fold_left (fun acc x => Z.max acc (Z.min x 99)) values
                       (progress current)) current /\
       progress current <= progress current' /\
       (progress current <= 99 -> progress current' <= 99)) /\
  (status current = running ->
   forall x, dict_get id (_set_progress id x jobs)
             = Some (set_progress
                       (Z.max (progress current) (Z.min x 99)) current)) /\
  (status current <> running ->
   forall x, _set_progress id x jobs = jobs) /\
  (forall w, reachable v w -> JobWorker.jobs w = jobs ->
             status current = running -> 5 <= progress current <= 99).
Proof.
  intros Hget.
  assert (One : forall r c x, dict_get id r = Some c -> status c = running ->
                  dict_get id (_set_progress id x r)
                  = Some (set_progress (Z.max (progress c) (Z.min x 99)) c)).
  { intros r c x Hr Hc. unfold _set_progress. rewrite Hr, Hc. simpl.
    apply dict_get_set_same. }
  split; [|split; [|split]].
  - intros Hrun values. revert jobs current Hget Hrun.
    induction values as [|x values IH]; intros jobs current Hget Hrun; simpl.
    + exists current. split; [assumption|]. split; [|lia].
      destruct current; reflexivity.
    + specialize (One jobs current x Hget Hrun).
      destruct (IH _ _ One Hrun) as (c' & G & Eq & Le & Lt).
      exists c'. split; [exact G|]. split; [rewrite Eq; reflexivity|].
      simpl in Le, Lt. split; [lia|]. intros H. apply Lt. lia.
  - intros Hrun x. now apply One.
  - intros Hnot x. unfold _set_progress. rewrite Hget.
    destruct (JobStatus_eqb (status current) running) eqn:E; simpl; auto.
    apply JobStatus_eqb_eq in E. contradiction.
  - intros w Hreach <- Hrun.
    destruct (reachable_job v w id current Hreach Hget) as (t & _ & Hinv).
    now apply (inv_running _ _ Hinv).
Qed.

End RegistryCalls.

Lemma cancel_unsupported_kind_witness :
  dict_get "eval" (JobWorker.jobs (world_after sample_events))
  = Some (job_of "eval" (world_after sample_events)) /\
  kind (job_of "eval" (world_after sample_events)) <> run_tests /\
  status (job_of "eval" (world_after sample_events)) = running /\
  JobWorker.cancel_job "eval" 20 (JobWorker.jobs (world_after sample_events))
  = (JobWorker.jobs (world_after sample_events),
     Raise (ValueError "Only run_tests jobs can be canceled.")).
Proof.
  assert (G : dict_get "eval" (JobWorker.jobs (world_after sample_events))
              = Some (job_of "eval" (world_after sample_events)))
    by reflexivity.
  assert (K : kind (job_of "eval" (world_after sample_events)) <> run_tests)
    by (vm_compute; discriminate).
  split; [exact G|]. split; [exact K|]. split; [reflexivity|].
  exact (proj1 (cancel_unsupported_kind "eval" 20 _ _ G K)).
Defined.

Lemma set_progress_running_max_witness :
  dict_get "eval" (JobWorker.jobs (world_after sample_events))
  = Some (job_of "eval" (world_after sample_events)) /\
  status (job_of "eval" (world_after sample_events)) = running /\
  dict_get "eval"
    (JobWorker._set_progress "eval" 250
       (JobWorker.jobs (world_after sample_events)))
  = Some (set_progress
            (Z.max (progress (job_of "eval" (world_after sample_events)))
               (Z.min 250 99))
            (job_of "eval" (world_after sample_events))).
Proof.
  assert (G : dict_get "eval" (JobWorker.jobs (world_after sample_events))
              = Some (job_of "eval" (world_after sample_events)))
    by reflexivity.
  assert (R : status (job_of "eval" (world_after sample_events)) = running)
    by reflexivity.
  split; [exact G|]. split; [exact R|].
  exact (proj1 (proj2 (set_progress_running_max sample_validators
                         "eval" _ _ G)) R 250).
Defined.

Section LifecycleInvariants.

Import JobWorker.

Variable v : Validators.

(** C7.  In every reachable world a record carries an error exactly when
    its status is [failed], [timeout] or [canceled]; a completed record has
    progress 100 and no error.  The critical section that records a payload
    either completes the job, forcing progress to 100 and the error to
    null, or leaves it canceled with the progress it had; [_fail_job],
    [_timeout_job] and [cancel_job] leave the progress as it was. *)
Theorem error_iff_unsuccessful (w : World) (id : string) (j : JobState) :
  reachable v w ->
  dict_get id (jobs w) = Some j ->
  (error j <> None <->
   status j = failed \/ status j = timeout \/ status j = canceled) /\
  (status j = completed -> progress j = 100 /\ error j = None) /\
  0 <= progress j <= 100 /\
  (forall payload now, exists j',
      _run_job_record id payload now (jobs w)
      = Ok (dict_set id j' (jobs w)) /\
      ((status j' = completed /\ progress j' = 100 /\ error j' = None) \/
       (status j' = canceled /\ progress j' = progress j /\
        error j' <> None))) /\
  (forall code_ message_ details_ now, exists j',
      _fail_job id code_ message_ details_ now (jobs w)
      = Ok (dict_set id j' (jobs w)) /\
      progress j' = progress j /\ error j' <> None /\
      (status j' = failed \/ status j' = canceled)) /\
  (forall code_ message_ now, exists j',
      _timeout_job id code_ message_ now (jobs w)
      = Ok (dict_set id j' (jobs w)) /\
      progress j' = progress j /\ error j' <> None /\
      (status j' = timeout \/ status j' = canceled)) /\
  (forall now, exists j',
      fst (cancel_job id now (jobs w)) = dict_set id j' (jobs w) /\
      progress j' = progress j).
Proof.
  intros Hreach Hj.
  destruct (reachable_job v w id j Hreach Hj) as (t & Ht & Hinv).
  destruct Hinv as [Hk Hts Hc He Hr Hp Hd].
  split; [exact He|]. split.
  { intros Hs. split; [auto|].
    destruct (error j) eqn:E; [|reflexivity].
    assert (H : errored (status j)) by (apply He; discriminate).
    unfold errored in H. rewrite Hs in H.
    destruct H as [H|[H|H]]; discriminate. }
  split; [exact Hp|]. split; [|split; [|split]].
  - intros payload now. exists (store_record payload now j).
    split; [now apply run_job_record_at|].
    unfold store_record.
    destruct (JobStatus_eqb (status j) canceled) eqn:Es.
    + apply JobStatus_eqb_eq in Es. right. simpl.
      assert (Her : error j <> None) by (apply He; unfold errored; auto).
      destruct (error j) eqn:Ee; [|contradiction]. simpl. rewrite Ee.
      repeat split; auto; discriminate.
    + destruct (is_dict payload && truthy (value_get payload "canceled"));
        simpl; [right | left]; repeat split; auto; discriminate.
  - intros code_ message_ details_ now.
    exists (fail_record code_ message_ details_ now j).
    split; [now apply fail_job_at|]. unfold fail_record.
    destruct (JobStatus_eqb (status j) canceled) eqn:Es; simpl.
    + apply JobStatus_eqb_eq in Es. repeat split; auto.
      apply He. unfold errored. auto.
    + repeat split; auto; discriminate.
  - intros code_ message_ now.
    exists (timeout_record code_ message_ now j).
    split; [now apply timeout_job_at|]. unfold timeout_record.
    destruct (JobStatus_eqb (status j) canceled) eqn:Es; simpl.
    + apply JobStatus_eqb_eq in Es. repeat split; auto.
      apply He. unfold errored. auto.
    + repeat split; auto; discriminate.
  - intros now. exists (cancel_record now j).
    split; [now apply cancel_job_at|]. unfold cancel_record.
    destruct (negb (JobKind_eqb (kind j) run_tests)); [reflexivity|].
    destruct (is_terminal (status j)); reflexivity.
Qed.

(** C2.  Once a record of a reachable world is in a terminal state, no
    turn of the event loop changes its status, progress, phase or error.
    The record is left whole, with one exception: the unit of work of a
    canceled job, when it answers, has its payload stored as the result;
    that ends the coroutine, after which nothing writes the record any
    more.  Canceling again hands the record back unchanged. *)
Theorem terminal_is_final (w w' : World) (ev : Event) (id : string)
    (j : JobState) :
  reachable v w ->
  dict_get id (jobs w) = Some j ->
  is_terminal (status j) = true ->
  step v w ev = Some w' ->
  exists j',
    dict_get id (jobs w') = Some j' /\
    status j' = status j /\ progress j' = progress j /\
    phase j' = phase j /\ error j' = error j /\
    (j' = j \/
     (status j = canceled /\
      (exists answer now, ev = Resume id answer now) /\
      (exists p, j' = set_result (Some (_to_json_safe p)) j) /\
      (exists t a, dict_get id (tasks w) = Some t /\
                   task_state t = Awaiting a) /\
      (exists t', dict_get id (tasks w') = Some t' /\
                  task_state t' = Finished))) /\
    (forall t, dict_get id (tasks w) = Some t ->
               task_state t = Finished ->
               j' = j /\ dict_get id (tasks w') = Some t) /\
    (status j = canceled -> kind j = run_tests) /\
    (kind j = run_tests ->
     forall now, cancel_job id now (jobs w) = (jobs w, Ok (Some j))).
Proof.
  intros Hreach Hj Hterm Hstep.
  destruct (reachable_job v w id j Hreach Hj) as (t & Ht & Hinv).
  assert (Hcancel : kind j = run_tests ->
            forall now, cancel_job id now (jobs w) = (jobs w, Ok (Some j))).
  { intros Hk now. unfold cancel_job. rewrite Hj, Hk, Hterm. reflexivity. }
  destruct (step_cases v w w' ev id j t Hstep Hj Ht)
    as (j' & t' & Hj' & Ht' & [(-> & -> & _)|(Htarget & Hjs)]).
  - exists j. split; [exact Hj'|]. do 4 (split; [reflexivity|]).
    split; [left; reflexivity|].
    split; [intros t0 Ht0 _; split; [reflexivity | congruence]|].
    split; [apply (inv_canceled _ _ Hinv) | exact Hcancel].
  - destruct (job_step_terminal v ev j j' t t' Hinv Hterm Hjs)
      as [[->|(Hs & (i & answer & now & ->) & (a & Ha) & Hfin & p & ->)]
          Hkeep].
    + exists j. split; [exact Hj'|]. do 4 (split; [reflexivity|]).
      split; [left; reflexivity|].
      split; [|split; [apply (inv_canceled _ _ Hinv) | exact Hcancel]].
      intros t0 Ht0 Hf. split; [reflexivity|].
      assert (t0 = t) by congruence. subst t0.
      rewrite (Hkeep Hf) in Ht'. exact Ht'.
    + simpl in Htarget. injection Htarget as ->.
      exists (set_result (Some (_to_json_safe p)) j).
      split; [exact Hj'|]. do 4 (split; [reflexivity|]).
      split; [|split; [|split; [apply (inv_canceled _ _ Hinv)
                                | exact Hcancel]]].
      * right. split; [exact Hs|]. split; [eauto|]. split; [eauto|].
        split; eauto.
      * intros t0 Ht0 Hf. assert (t0 = t) by congruence. subst t0.
        rewrite Ha in Hf. discriminate.
Qed.

End LifecycleInvariants.

Section Cancellation.

Import JobWorker.

Variable v : Validators.

(** C5.  A [run_tests] job canceled while still [queued] is, after any
    further run of the event loop, [canceled] with the [CANCELED_BY_USER]
    error and [finished_at] stamped by the cancellation; [started_at] is
    still null, and its coroutine has not called the unit of work and does
    not wait for it. *)
Theorem cancel_while_queued (w w' : World) (id : string) (j : JobState)
    (now : Z) (events : list Event) :
  reachable v w ->
  dict_get id (jobs w) = Some j ->
  kind j = run_tests ->
  status j = queued ->
  run v w (Cancel id now :: events) = Some w' ->
  exists j' t',
    dict_get id (jobs w') = Some j' /\
    dict_get id (tasks w') = Some t' /\
    status j' = canceled /\
    error j' = Some canceled_by_user /\
    finished_at j' = Some now /\
    started_at j' = None /\
    task_invocations t' = 0%nat /\
    (forall a, task_state t' <> Awaiting a).
Proof.
  intros Hreach Hj Hkind Hq Hrun.
  destruct (reachable_job v w id j Hreach Hj) as (t & Ht & Hinv).
  pose proof (inv_task _ _ Hinv) as Hts.
  set (jc := set_error (Some canceled_by_user)
               (set_finished_at (Some now)
                  (set_phase (Some "canceled") (set_status canceled j)))).
  assert (Hjc : cancel_record now j = jc).
  { unfold cancel_record. rewrite Hkind, Hq. reflexivity. }
  set (Q := fun (j' : JobState) (t' : Task) =>
              j' = jc /\ task_invocations t' = 0%nat /\
              (task_state t' = Spawned \/ task_state t' = Finished)).
  assert (Hkeep : forall ev j1 t1 j2 t2,
             Q j1 t1 -> job_step v ev j1 t1 = Some (j2, t2) -> Q j2 t2).
  { intros ev j1 t1 j2 t2 (-> & Hn & Hst) Hs. unfold Q.
    destruct ev as [i request n0|i n0|i|ks ss limit|i n0 n1|i x|i l
                   |i answer n0]; simpl in Hs; try discriminate.
    - injection Hs as <- <-. unfold cancel_record. simpl.
      destruct (negb (JobKind_eqb (kind j) run_tests)); auto.
    - injection Hs as <- <-. auto.
    - injection Hs as <- <-. auto.
    - destruct Hst as [Hst|Hst]; rewrite Hst in Hs; [|discriminate].
      unfold dispatch_record, enter_record in Hs. simpl in Hs.
      injection Hs as <- <-. simpl. auto.
    - injection Hs as <- <-. auto.
    - injection Hs as <- <-. auto.
    - destruct Hst as [Hst|Hst]; rewrite Hst in Hs; discriminate. }
  assert (Hsp : task_state t = Spawned /\ started_at j = None /\
                task_invocations t = 0%nat).
  { rewrite Hq in Hts. destruct (task_state t) as [|a|].
    - destruct Hts as (_ & Hst & Hn & _). auto.
    - destruct Hts; discriminate.
    - discriminate. }
  destruct Hsp as (Hsp & Hst0 & Hn0).
  simpl in Hrun.
  set (w1 := {| jobs := fst (cancel_job id now (jobs w));
                tasks := tasks w |}) in Hrun.
  assert (Hj1 : dict_get id (jobs w1) = Some jc).
  { simpl. rewrite (cancel_job_at id _ j Hj), Hjc. apply dict_get_set_same. }
  assert (Ht1 : dict_get id (tasks w1) = Some t) by exact Ht.
  assert (HQ : Q jc t) by (unfold Q; auto).
  destruct (run_keeps v Q Hkeep events w1 w' id jc t Hj1 Ht1 HQ Hrun)
    as (j' & t' & Hj' & Ht' & -> & Hn & Hst).
  exists jc, t'. repeat split; auto.
  intros a Ha. destruct Hst; congruence.
Qed.

End Cancellation.

Section Dispatch.

Import JobWorker.

Variable v : Validators.

(** C1, as the code has it.  The coroutine of a queued job first makes the
    transition to [running] (phase [initializing], [started_at] stamped,
    progress 5) and validates the payload after it.  When the validation
    fails, the same slice of the coroutine moves the job on to [failed]
    with the code [INVALID_INPUT]; the record keeps [started_at] and the
    progress 5, the unit of work is not called and the coroutine ends. *)
Theorem invalid_payload_fails_after_running (w : World) (id : string)
    (j : JobState) (t : Task) (now now' : Z) (errors : value) :
  reachable v w ->
  dict_get id (jobs w) = Some j ->
  dict_get id (tasks w) = Some t ->
  status j = queued ->
  _run_job_validate v (task_request t) = Invalid errors ->
  exists j1 j2 w',
    _run_job_enter id now (jobs w) = Ok (dict_set id j1 (jobs w), true) /\
    status j1 = running /\ phase j1 = Some "initializing" /\
    started_at j1 = Some now /\ progress j1 = 5 /\
    _run_job_dispatch v id (task_request t) now now' (jobs w)
    = Ok (dict_set id j2 (jobs w), None) /\
    step v w (Dispatch id now now') = Some w' /\
    dict_get id (jobs w') = Some j2 /\
    status j2 = failed /\ phase j2 = Some "failed" /\
    error j2 = Some {| code := "INVALID_INPUT";
                       message := "Invalid job payload.";
                       details := Some (VDict [("errors",
                                                _to_json_safe errors)]) |} /\
    finished_at j2 = Some now' /\ started_at j2 = Some now /\
    progress j2 = 5 /\
    exists t',
      dict_get id (tasks w') = Some t' /\
      task_state t' = Finished /\ task_invocations t' = 0%nat.
Proof.
  intros Hreach Hj Ht Hq Hval.
  destruct (reachable_job v w id j Hreach Hj) as (t0 & Ht0 & Hinv).
  assert (t0 = t) by congruence. subst t0.
  pose proof (inv_task _ _ Hinv) as Hts. rewrite Hq in Hts.
  destruct (task_state t) as [|a|] eqn:Hstate;
    [|destruct Hts; discriminate|discriminate].
  destruct Hts as (_ & _ & Hn & _).
  set (j1 := set_progress 5
               (set_started_at (Some now)
                  (set_phase (Some "initializing")
                     (set_status running j)))).
  set (j2 := fail_record "INVALID_INPUT" "Invalid job payload."
               (Some (VDict [("errors", errors)])) now' j1).
  assert (He : enter_record now j = (j1, true)).
  { unfold enter_record. rewrite Hq. reflexivity. }
  assert (Hd : dispatch_record v (task_request t) now now' j = (j2, None)).
  { unfold dispatch_record. rewrite He. simpl. rewrite Hval. reflexivity. }
  assert (Hdis : _run_job_dispatch v id (task_request t) now now' (jobs w)
                 = Ok (dict_set id j2 (jobs w), None)).
  { rewrite (run_job_dispatch_at v id _ now now' _ j Hj), Hd. reflexivity. }
  exists j1, j2. eexists.
  split; [rewrite (run_job_enter_at id _ j Hj), He; reflexivity|].
  do 4 (split; [reflexivity|]).
  split; [exact Hdis|].
  split; [simpl; rewrite Ht, Hstate, Hdis; reflexivity|].
  split; [simpl; apply dict_get_set_same|].
  do 6 (split; [reflexivity|]).
  eexists. split; [simpl; apply dict_get_set_same|].
  split; [reflexivity | exact Hn].
Qed.

(** C6, as the code has it.  The three evaluation kinds run under one
    deadline, [EVAL_JOB_TIMEOUT_SECONDS]: when the awaited evaluation of a
    reachable world answers after more than 900 seconds, whatever it
    answers, the job goes to [timeout] with the code [EVAL_TIMEOUT] and the
    message that tells to lower the workload, and keeps its progress.  The
    other kinds run under no deadline: the time their unit of work takes
    changes nothing. *)
Theorem eval_deadline (w : World) (id : string) (j : JobState) :
  reachable v w ->
  dict_get id (jobs w) = Some j ->
  (kind j = eval_baseline \/ kind j = eval_advanced \/
   kind j = eval_compare ->
   forall answer now w',
     EVAL_JOB_TIMEOUT_SECONDS < elapsed_seconds answer ->
     step v w (Resume id answer now) = Some w' ->
     exists j',
       dict_get id (jobs w') = Some j' /\
       status j' = timeout /\ phase j' = Some "timeout" /\
       error j' = Some {| code := "EVAL_TIMEOUT";
                          message := eval_timeout_message;
                          details := None |} /\
       finished_at j' = Some now /\ progress j' = progress j) /\
  (kind j = scan \/ kind j = run_tests \/ kind j = report_pdf ->
   forall answer elapsed now,
     step v w (Resume id {| elapsed_seconds := elapsed;
                            reply := reply answer |} now)
     = step v w (Resume id answer now)).
Proof.
  intros Hreach Hj.
  destruct (reachable_job v w id j Hreach Hj) as (t & Ht & Hinv).
  pose proof (inv_kind _ _ Hinv) as Hk.
  split.
  - intros Hkind answer now w' Hlate Hstep.
    destruct (step_at v w w' _ id j t Hstep eq_refl Hj Ht)
      as (j' & t' & Hjs & -> & _).
    exists j'. split; [apply dict_get_set_same|].
    simpl in Hjs. pose proof (inv_task _ _ Hinv) as Hts.
    destruct (task_state t) as [|awaited|]; try discriminate.
    assert (Hrun : status j = running).
    { destruct Hts as [Hs|Hs]; [exact Hs|].
      apply (inv_canceled _ _ Hinv) in Hs.
      destruct Hkind as [H|[H|H]]; congruence. }
    unfold resume_record in Hjs.
    assert (Ha : _run_job_await (task_request t) awaited answer
                 = Some (inr tt)
                 \/ _run_job_await (task_request t) awaited answer = None).
    { unfold _run_job_await. rewrite <- Hk.
      apply Z.ltb_lt in Hlate.
      destruct Hkind as [H|[H|H]]; rewrite H;
        destruct awaited; auto;
        destruct (reply answer); auto;
        unfold eval_branch, wait_for; rewrite Hlate; auto. }
    destruct Ha as [Ha|Ha]; rewrite Ha in Hjs; [|discriminate].
    injection Hjs as <- _. unfold timeout_record. rewrite Hrun. simpl.
    repeat split; reflexivity.
  - intros Hkind answer elapsed now. simpl. rewrite Ht.
    destruct (task_state t) as [|awaited|]; try reflexivity.
    unfold _run_job_resume, _run_job_await. rewrite <- Hk. simpl.
    destruct Hkind as [H|[H|H]]; rewrite H; reflexivity.
Qed.

End Dispatch.

(** C1 as stated does not hold: the scan below has an invalid payload, and
    the first critical section of its coroutine, which runs before the
    validation, leaves it [running]; the failed record that follows carries
    the [started_at] and the progress of that transition. *)
Lemma invalid_scan_was_running :
  JobWorker._run_job_validate sample_validators bad_scan_request
  = JobWorker.Invalid (VList [VStr "url: field required"]) /\
  exists jobs1 jobs2,
    JobWorker._run_job_enter "scan" 12
      (JobWorker.jobs (world_after [JobWorker.Create "scan" bad_scan_request 11]))
    = Ok (jobs1, true) /\
    option_map status (dict_get "scan" jobs1) = Some running /\
    JobWorker._run_job_dispatch sample_validators "scan" bad_scan_request
      12 13
      (JobWorker.jobs (world_after [JobWorker.Create "scan" bad_scan_request 11]))
    = Ok (jobs2, None) /\
    option_map status (dict_get "scan" jobs2) = Some failed /\
    option_map started_at (dict_get "scan" jobs2) = Some (Some 12) /\
    option_map progress (dict_get "scan" jobs2) = Some 5.
Proof.
  split; [reflexivity|].
  eexists. eexists.
  split; [reflexivity|]. split; [reflexivity|].
  split; [reflexivity|]. repeat split; reflexivity.
Qed.

(** C6 as stated does not hold: no deadline, however long, turns a scan
    that outlasts it into a [timeout]; the scan completes. *)
Lemma scan_outlives_every_deadline :
  ~ exists deadline : Z,
      forall elapsed,
        deadline < elapsed ->
        option_map status
          (dict_get "s"
             (JobWorker.jobs
                (world_after
                   (scan_events
                      ++ [JobWorker.Resume "s" (scan_answer elapsed) 9]))))
        = Some timeout.
Proof.
  intros [deadline H]. specialize (H (deadline + 1) ltac:(lia)).
  vm_compute in H. discriminate H.
Qed.

Example scan_completes_after_a_day :
  option_map status
    (dict_get "s"
       (JobWorker.jobs
          (world_after
             (scan_events ++ [JobWorker.Resume "s" (scan_answer 86400) 9]))))
  = Some completed.
Proof. reflexivity. Qed.

Section Witnesses.

Import JobWorker.

Lemma sample_reachable (events : list Event) (w : World) :
  run sample_validators start events = Some w ->
  reachable sample_validators w.
Proof. intros H. now exists events. Qed.

Lemma invalid_payload_fails_after_running_witness :
  reachable sample_validators
    (world_after [Create "scan" bad_scan_request 11]) /\
  status (job_of "scan" (world_after [Create "scan" bad_scan_request 11]))
  = queued /\
  _run_job_validate sample_validators bad_scan_request
  = Invalid (VList [VStr "url: field required"]) /\
  exists j1 j2 w',
    status j1 = running /\ started_at j1 = Some 12 /\
    step sample_validators
      (world_after [Create "scan" bad_scan_request 11])
      (Dispatch "scan" 12 13) = Some w' /\
    dict_get "scan" (jobs w') = Some j2 /\
    status j2 = failed /\ started_at j2 = Some 12 /\ progress j2 = 5.
Proof.
  assert (R : reachable sample_validators
                (world_after [Create "scan" bad_scan_request 11]))
    by (apply (sample_reachable [Create "scan" bad_scan_request 11]);
        reflexivity).
  split; [exact R|]. split; [reflexivity|]. split; [reflexivity|].
  destruct (invalid_payload_fails_after_running sample_validators
              (world_after [Create "scan" bad_scan_request 11]) "scan"
              (job_of "scan"
                 (world_after [Create "scan" bad_scan_request 11]))
              (task_of "scan"
                 (world_after [Create "scan" bad_scan_request 11]))
              12 13 (VList [VStr "url: field required"])
              R eq_refl eq_refl eq_refl eq_refl)
    as (j1 & j2 & w' & _ & A & _ & B & _ & _ & C & D & E & _ & _ & _ & F
        & G & _).
  exists j1, j2, w'. auto 10.
Defined.

Lemma eval_deadline_witness :
  reachable sample_validators (world_after sample_events) /\
  kind (job_of "eval" (world_after sample_events)) = eval_baseline /\
  EVAL_JOB_TIMEOUT_SECONDS < elapsed_seconds (eval_answer 901) /\
  exists j',
    dict_get "eval"
      (jobs (world_after (sample_events
                            ++ [Resume "eval" (eval_answer 901) 50])))
    = Some j' /\
    status j' = timeout /\
    progress j' = progress (job_of "eval" (world_after sample_events)).
Proof.
  assert (R : reachable sample_validators (world_after sample_events))
    by (apply (sample_reachable sample_events); reflexivity).
  split; [exact R|]. split; [reflexivity|]. split; [reflexivity|].
  destruct (proj1 (eval_deadline sample_validators
                     (world_after sample_events) "eval"
                     (job_of "eval" (world_after sample_events))
                     R eq_refl)
              (or_introl eq_refl) (eval_answer 901) 50
              (world_after (sample_events
                              ++ [Resume "eval" (eval_answer 901) 50]))
              eq_refl eq_refl)
    as (j' & A & B & _ & _ & _ & C).
  exists j'. auto.
Defined.

Lemma error_iff_unsuccessful_witness :
  reachable sample_validators (world_after sample_events) /\
  status (job_of "tests" (world_after sample_events)) = canceled /\
  (error (job_of "tests" (world_after sample_events)) <> None <->
   status (job_of "tests" (world_after sample_events)) = failed \/
   status (job_of "tests" (world_after sample_events)) = timeout \/
   status (job_of "tests" (world_after sample_events)) = canceled).
Proof.
  assert (R : reachable sample_validators (world_after sample_events))
    by (apply (sample_reachable sample_events); reflexivity).
  split; [exact R|]. split; [reflexivity|].
  exact (proj1 (error_iff_unsuccessful sample_validators
                  (world_after sample_events) "tests"
                  (job_of "tests" (world_after sample_events))
                  R eq_refl)).
Defined.

Lemma terminal_is_final_witness :
  reachable sample_validators (world_after sample_events) /\
  is_terminal (status (job_of "tests" (world_after sample_events))) = true /\
  step sample_validators (world_after sample_events)
    (Resume "tests" tests_answer 40)
  = Some (world_after (sample_events ++ [Resume "tests" tests_answer 40])) /\
  exists j',
    dict_get "tests"
      (jobs (world_after (sample_events
                            ++ [Resume "tests" tests_answer 40])))
    = Some j' /\
    status j' = canceled /\
    progress j' = progress (job_of "tests" (world_after sample_events)).
Proof.
  assert (R : reachable sample_validators (world_after sample_events))
    by (apply (sample_reachable sample_events); reflexivity).
  assert (S : step sample_validators (world_after sample_events)
                (Resume "tests" tests_answer 40)
              = Some (world_after
                        (sample_events ++ [Resume "tests" tests_answer 40])))
    by (vm_compute; reflexivity).
  split; [exact R|]. split; [reflexivity|]. split; [exact S|].
  destruct (terminal_is_final sample_validators
              (world_after sample_events) _ (Resume "tests" tests_answer 40)
              "tests" (job_of "tests" (world_after sample_events))
              R eq_refl eq_refl S)
    as (j' & A & B & C & _).
  exists j'. split; [exact A|]. split; [exact B | exact C].
Defined.

Lemma cancel_while_queued_witness :
  reachable sample_validators (world_after queued_events) /\
  kind (job_of "tests" (world_after queued_events)) = run_tests /\
  status (job_of "tests" (world_after queued_events)) = queued /\
  exists j' t',
    dict_get "tests"
      (jobs (world_after (queued_events
                            ++ Cancel "tests" 11 :: after_cancel_events)))
    = Some j' /\
    dict_get "tests"
      (tasks (world_after (queued_events
                             ++ Cancel "tests" 11 :: after_cancel_events)))
    = Some t' /\
    status j' = canceled /\ finished_at j' = Some 11 /\
    started_at j' = None /\ task_invocations t' = 0%nat.
Proof.
  assert (R : reachable sample_validators (world_after queued_events))
    by (apply (sample_reachable queued_events); reflexivity).
  split; [exact R|]. split; [reflexivity|]. split; [reflexivity|].
  destruct (cancel_while_queued sample_validators
              (world_after queued_events)
              (world_after (queued_events
                              ++ Cancel "tests" 11 :: after_cancel_events))
              "tests" (job_of "tests" (world_after queued_events)) 11
              after_cancel_events R eq_refl eq_refl eq_refl eq_refl)
    as (j' & t' & A & B & C & _ & D & E & F & _).
  exists j', t'. auto 10.
Defined.

End Witnesses.

(* ================================================================== *)
(** * The scripted test run *)
(* ================================================================== *)

Section TestRun.

Import TestRunner.

Variables (env : Env) (on_progress : option (Z -> res unit))
          (should_stop : option (nat -> bool)).

Lemma poll_keeps (st : Loop) :
  l_results (snd (poll should_stop st)) = l_results st /\
  l_canceled (snd (poll should_stop st)) = l_canceled st.
Proof. unfold poll. destruct should_stop; simpl; auto. Qed.

Lemma report_keeps (done total : Z) (st st' : Loop) :
  report on_progress done total st = Ok st' ->
  l_results st' = l_results st /\ l_canceled st' = l_canceled st.
Proof.
  unfold report. destruct on_progress as [tell|].
  - intros H. apply bind_ok in H. destruct H as (x & _ & H).
    apply bind_ok in H. destruct H as (u & _ & H).
    injection H as <-. simpl. auto.
  - intros H. injection H as <-. auto.
Qed.

Lemma gather_length {A} (calls : list (res A)) (l : list A) :
  gather calls = Ok l -> List.length l = List.length calls.
Proof.
  revert l. induction calls as [|c calls IH]; simpl; intros l H.
  - now injection H as <-.
  - destruct c as [a|e]; [|discriminate].
    destruct (gather calls) as [l0|e]; [|discriminate].
    injection H as <-. simpl. f_equal. now apply IH.
Qed.

Lemma batch_calls_length (index : nat) (batch : list FlowSpecTest) :
  List.length (batch_calls env index batch) = List.length batch.
Proof.
  revert index. induction batch as [|t batch IH]; simpl; intros index; auto.
Qed.

Lemma slice_length {A} (l : list A) (lo hi : Z) :
  0 <= lo <= hi ->
  Z.of_nat (List.length (slice l lo hi))
  = Z.min (Z.of_nat (List.length l)) hi - Z.min (Z.of_nat (List.length l)) lo.
Proof.
  intros H. unfold slice, slice_index.
  rewrite length_firstn, length_skipn.
  destruct (lo <? 0) eqn:El; [apply Z.ltb_lt in El; lia|].
  destruct (hi <? 0) eqn:Eh; [apply Z.ltb_lt in Eh; lia|].
  lia.
Qed.

(** The HTTP loop: one result per test begun, and a test left over when the
    loop was told to stop. *)
Lemma http_loop_counts (total : Z) (todo : list FlowSpecTest) :
  forall (index : nat) (st st' : Loop),
    http_loop env on_progress should_stop total index todo st = Ok st' ->
    l_canceled st = false ->
    (List.length (l_results st')
     <= List.length (l_results st) + List.length todo)%nat /\
    (l_canceled st' = true ->
     (List.length (l_results st')
      < List.length (l_results st) + List.length todo)%nat).
Proof.
  induction todo as [|test rest IH]; simpl; intros index st st' H Hc.
  - injection H as <-. split; [lia|]. intros E. congruence.
  - destruct (poll_keeps st) as [Pr Pc].
    destruct (poll should_stop st) as [stop st1]. simpl in Pr, Pc.
    destruct stop.
    + injection H as <-. simpl. rewrite Pr. split; lia.
    + apply bind_ok in H. destruct H as (entry & _ & H).
      apply bind_ok in H. destruct H as (st2 & Hrep & H).
      apply report_keeps in Hrep. destruct Hrep as [Rr Rc]. simpl in Rr, Rc.
      destruct (IH _ _ _ H ltac:(congruence)) as [A B].
      rewrite Rr, length_app, Pr in A, B. simpl in A, B.
      split; [lia|]. intros E. specialize (B E). lia.
Qed.

(** The loop over batches, from the batch number [a] on. *)
Lemma batch_loop_counts (tests : list FlowSpecTest) (batch_size : Z)
    (n : nat) :
  0 < batch_size ->
  forall (a : nat) (st st' : Loop),
    (forall k, (a <= k < a + n)%nat ->
               Z.of_nat k * batch_size < Z.of_nat (List.length tests)) ->
    Z.of_nat (List.length (l_results st))
    = Z.min (Z.of_nat (List.length tests)) (Z.of_nat a * batch_size) ->
    l_canceled st = false ->
    batch_loop env on_progress should_stop tests batch_size
      (map (fun k => Z.of_nat k * batch_size) (seq a n)) st = Ok st' ->
    Z.of_nat (List.length (l_results st')) <= Z.of_nat (List.length tests) /\
    (l_canceled st' = true ->
     Z.of_nat (List.length (l_results st')) < Z.of_nat (List.length tests)).
Proof.
  intros Hbs. induction n as [|n IH]; simpl; intros a st st' Hlt Hlen Hc H.
  - injection H as <-. split; [lia|]. intros E. congruence.
  - destruct (poll_keeps st) as [Pr Pc].
    destruct (poll should_stop st) as [stop st1]. simpl in Pr, Pc.
    pose proof (Hlt a ltac:(lia)) as Ha.
    destruct stop.
    + injection H as <-. simpl. rewrite Pr. split; lia.
    + apply bind_ok in H. destruct H as (batch_results & Hg & H).
      apply bind_ok in H. destruct H as (st2 & Hrep & H).
      apply report_keeps in Hrep. destruct Hrep as [Rr Rc]. simpl in Rr, Rc.
      apply gather_length in Hg. rewrite batch_calls_length in Hg.
      apply (IH (S a) st2 st'); auto.
      * intros k Hk. apply Hlt. lia.
      * rewrite Rr, length_app, Pr, Nat2Z.inj_add, Hg, slice_length by lia.
        rewrite Hlen. lia.
      * congruence.
Qed.

Lemma range0_offsets (stop step : Z) (offsets : list Z) :
  range0 stop step = Ok offsets ->
  offsets = [] \/
  (0 < step /\
   exists n, offsets = map (fun k => Z.of_nat k * step) (seq 0 n) /\
             forall k, (k < n)%nat -> Z.of_nat k * step < stop).
Proof.
  unfold range0. destruct (step =? 0) eqn:E0; [discriminate|].
  destruct ((step <? 0) || (stop <=? 0)) eqn:E1; intros H; injection H as <-.
  - now left.
  - right. apply orb_false_iff in E1. destruct E1 as [E1 E2].
    apply Z.ltb_ge in E1. apply Z.leb_gt in E2. apply Z.eqb_neq in E0.
    split; [lia|]. eexists. split; [reflexivity|].
    intros k Hk.
    assert (Hq : Z.of_nat k + 1 <= (stop + step - 1) / step) by lia.
    assert (Hm : step * ((stop + step - 1) / step) <= stop + step - 1)
      by (apply Z.mul_div_le; lia).
    nia.
Qed.

Lemma count_passed_bounds (results : list value) (passed : Z) :
  count_passed results = Ok passed ->
  0 <= passed <= Z.of_nat (List.length results).
Proof.
  revert passed. induction results as [|item rest IH]; simpl; intros p H.
  - injection H as <-. lia.
  - apply bind_ok in H. destruct H as (s & _ & H).
    apply bind_ok in H. destruct H as (n & Hn & H).
    injection H as <-. specialize (IH n Hn).
    destruct (eq_str s "passed"); lia.
Qed.

End TestRun.

Section TestRunSummary.

Import TestRunner.

(** C10.  Whenever [run_flow_spec_tests] returns, its dict is the summary
    of the per-test entries it lists: [passed + failed = total], [total]
    is the number of entries and at most the number of input tests, and a
    run flagged [canceled] has strictly fewer entries than input tests. *)
Theorem run_flow_spec_tests_counts (env : Env) (url : string)
    (tests : list FlowSpecTest) (batch_size : Z)
    (on_progress : option (Z -> res unit))
    (should_stop : option (nat -> bool)) (r : value) (emitted : list Z) :
  run_flow_spec_tests env url tests batch_size on_progress should_stop
  = Ok (r, emitted) ->
  exists total passed failed_ canceled_ entries,
    r = summary url total passed failed_ (run_duration_ms env) batch_size
          canceled_ entries /\
    passed + failed_ = total /\
    0 <= passed /\ 0 <= failed_ /\
    total = Z.of_nat (List.length entries) /\
    total <= Z.of_nat (List.length tests) /\
    (canceled_ = true -> total < Z.of_nat (List.length tests)).
Proof.
  unfold run_flow_spec_tests. intros H.
  apply bind_ok in H. destruct H as (st & Hloop & H).
  apply bind_ok in H. destruct H as (passed & Hp & H).
  injection H as <- <-.
  apply count_passed_bounds in Hp.
  exists (Z.of_nat (List.length (l_results st))), passed,
    (Z.of_nat (List.length (l_results st)) - passed),
    (l_canceled st), (l_results st).
  split; [reflexivity|]. split; [lia|]. split; [lia|]. split; [lia|].
  split; [reflexivity|].
  destruct (playwright_available env).
  - apply bind_ok in Hloop. destruct Hloop as (u & _ & Hloop).
    unfold finally_close in Hloop. destruct (close env); [|discriminate].
    apply bind_ok in Hloop. destruct Hloop as (offsets & Hr & Hloop).
    apply range0_offsets in Hr.
    destruct Hr as [->|(Hbs & n & -> & Hlt)].
    + simpl in Hloop. injection Hloop as <-. simpl.
      split; [lia|]. discriminate.
    + apply (batch_loop_counts env on_progress should_stop tests batch_size
               n Hbs 0 loop_start st); auto.
      * intros k Hk. apply Hlt. lia.
      * simpl. lia.
  - apply http_loop_counts in Hloop; [|reflexivity]. simpl in Hloop.
    destruct Hloop as [A B]. split; [lia|]. intros E. specialize (B E). lia.
Qed.

End TestRunSummary.

Lemma run_flow_spec_tests_counts_witness :
  sample_run = Ok (sample_result, sample_emitted) /\
  value_get sample_result "total" = VInt 4 /\
  value_get sample_result "canceled" = VBool true /\
  sample_emitted = [40] /\
  exists total passed failed_ canceled_ entries,
    sample_result
    = TestRunner.summary "https://shop.test" total passed failed_ 40 4
        canceled_ entries /\
    passed + failed_ = total /\
    total = Z.of_nat (List.length entries) /\
    total <= 10 /\
    (canceled_ = true -> total < 10).
Proof.
  assert (H : sample_run = Ok (sample_result, sample_emitted))
    by (vm_compute; reflexivity).
  split; [exact H|]. split; [vm_compute; reflexivity|].
  split; [vm_compute; reflexivity|]. split; [vm_compute; reflexivity|].
  destruct (run_flow_spec_tests_counts (sample_env true)
              "https://shop.test" sample_tests 4 (Some (fun _ => Ok tt))
              (Some stop_at_second_poll) sample_result sample_emitted H)
    as (total & passed & failed_ & canceled_ & entries
        & A & B & _ & _ & C & D & E).
  exists total, passed, failed_, canceled_, entries.
  split; [exact A|]. split; [exact B|]. split; [exact C|].
  split; [exact D | exact E].
Defined.

Section TestRunReturns.

Import TestRunner.

Variables (env : Env) (should_stop : option (nat -> bool)).

Hypothesis http_answers : forall i t, exists p, probe_http env i t = Ok p.
Hypothesis playwright_answers :
  forall i t, exists p, probe_playwright env i t = Ok p.

Lemma test_entry_has_status (test : FlowSpecTest) (p : Probe) :
  has_status (test_entry test p).
Proof.
  unfold has_status, test_entry.
  destruct (probe_verdict p); eexists; reflexivity.
Qed.

Lemma http_loop_returns (total : Z) (todo : list FlowSpecTest) :
  forall (index : nat) (st : Loop),
    Forall has_status (l_results st) ->
    exists st',
      http_loop env None should_stop total index todo st = Ok st' /\
      Forall has_status (l_results st') /\ l_emitted st' = l_emitted st.
Proof.
  induction todo as [|test rest IH]; simpl; intros index st Hst.
  - eauto.
  - assert (P : l_results (snd (poll should_stop st)) = l_results st /\
                l_emitted (snd (poll should_stop st)) = l_emitted st)
      by (unfold poll; destruct should_stop; simpl; auto).
    destruct (poll should_stop st) as [stop st1]. simpl in P.
    destruct P as [Pr Pe]. destruct stop.
    + eexists. split; [reflexivity|]. simpl. rewrite Pr, Pe. auto.
    + unfold _run_test_with_http.
      destruct (http_answers index test) as [p ->]. simpl.
      destruct (IH (S index) (extend_results [test_entry test p] st1))
        as (st' & H & F & E).
      * simpl. rewrite Pr. apply Forall_app. split; [exact Hst|].
        constructor; [apply test_entry_has_status | constructor].
      * exists st'. split; [exact H|]. split; [exact F|].
        rewrite E. simpl. exact Pe.
Qed.

Lemma batch_calls_return (batch : list FlowSpecTest) :
  forall index, exists entries,
    gather (batch_calls env index batch) = Ok entries /\
    Forall has_status entries.
Proof.
  induction batch as [|test rest IH]; simpl; intros index.
  - exists []. auto.
  - unfold _run_test_with_playwright.
    destruct (playwright_answers index test) as [p ->]. simpl.
    destruct (IH (S index)) as (entries & -> & F).
    eexists. split; [reflexivity|].
    constructor; [apply test_entry_has_status | exact F].
Qed.

Lemma batch_loop_returns (tests : list FlowSpecTest) (batch_size : Z)
    (offsets : list Z) :
  forall st : Loop,
    Forall has_status (l_results st) ->
    exists st',
      batch_loop env None should_stop tests batch_size offsets st = Ok st' /\
      Forall has_status (l_results st') /\ l_emitted st' = l_emitted st.
Proof.
  induction offsets as [|offset rest IH]; simpl; intros st Hst.
  - eauto.
  - assert (P : l_results (snd (poll should_stop st)) = l_results st /\
                l_emitted (snd (poll should_stop st)) = l_emitted st)
      by (unfold poll; destruct should_stop; simpl; auto).
    destruct (poll should_stop st) as [stop st1]. simpl in P.
    destruct P as [Pr Pe]. destruct stop.
    + eexists. split; [reflexivity|]. simpl. rewrite Pr, Pe. auto.
    + destruct (batch_calls_return
                  (slice tests offset (offset + batch_size))
                  (Z.to_nat offset)) as (entries & -> & F). simpl.
      destruct (IH (extend_results entries st1)) as (st' & H & F' & E).
      * simpl. rewrite Pr. apply Forall_app. auto.
      * exists st'. split; [exact H|]. split; [exact F'|].
        rewrite E. simpl. exact Pe.
Qed.

Lemma count_passed_returns (results : list value) :
  Forall has_status results -> exists n, count_passed results = Ok n.
Proof.
  induction 1 as [|item rest [s Hs] _ [n IH]]; simpl.
  - eauto.
  - rewrite Hs, IH. simpl. eauto.
Qed.

(** The run does return: when the browser starts and stops, every check
    answers and the batch size is not 0 (the HTTP fallback does not look at
    it), the function hands back its dict.  Without a progress callback it
    computes no float. *)
Lemma run_flow_spec_tests_returns (url : string)
    (tests : list FlowSpecTest) (batch_size : Z) :
  launch env = Ok tt ->
  close env = Ok tt ->
  (playwright_available env = true -> batch_size <> 0) ->
  exists r,
    run_flow_spec_tests env url tests batch_size None should_stop
    = Ok (r, []).
Proof.
  intros Hl Hc Hbs. unfold run_flow_spec_tests.
  assert (L : exists st,
             (if playwright_available env
              then _ <- launch env ;;
                   finally_close env
                     (offsets <- range0 (Z.of_nat (List.length tests))
                                   batch_size ;;
                      batch_loop env None should_stop tests batch_size
                        offsets loop_start)
              else http_loop env None should_stop
                     (Z.of_nat (List.length tests)) 0 tests loop_start)
             = Ok st /\
             Forall has_status (l_results st) /\ l_emitted st = []).
  { destruct (playwright_available env).
    - rewrite Hl. simpl. unfold finally_close. rewrite Hc.
      unfold range0. specialize (Hbs eq_refl).
      apply Z.eqb_neq in Hbs. rewrite Hbs.
      destruct ((batch_size <? 0)
                || (Z.of_nat (List.length tests) <=? 0)); simpl.
      + exists loop_start. auto.
      + apply batch_loop_returns. constructor.
    - apply http_loop_returns. constructor. }
  destruct L as (st & -> & F & E). simpl.
  destruct (count_passed_returns _ F) as [n ->]. simpl.
  rewrite E. eauto.
Qed.

End TestRunReturns.

(* ================================================================== *)
(** * The listing *)
(* ================================================================== *)

Section Listing.

Import JobWorker.

Context {A : Type} (key : A -> Z).

Lemma insert_desc_perm (x : A) (l : list A) :
  Permutation (insert_desc key x l) (x :: l).
Proof.
  induction l as [|y l IH]; simpl; [reflexivity|].
  destruct (key x <? key y); [|reflexivity].
  rewrite IH. apply perm_swap.
Qed.

Lemma sort_desc_perm (l : list A) : Permutation (sort_desc key l) l.
Proof.
  induction l as [|x l IH]; simpl; [reflexivity|].
  unfold sort_desc in *. simpl. rewrite insert_desc_perm. now constructor.
Qed.

Lemma insert_desc_sorted (x : A) (l : list A) :
  StronglySorted (later_first key) l ->
  StronglySorted (later_first key) (insert_desc key x l).
Proof.
  induction 1 as [|y l Hs IH Hall]; simpl.
  - repeat constructor.
  - destruct (key x <? key y) eqn:E.
    + apply Z.ltb_lt in E. constructor; [exact IH|].
      rewrite (Forall_forall (later_first key y)). intros z Hz.
      apply (Permutation_in _ (insert_desc_perm x l)) in Hz.
      destruct Hz as [<-|Hz].
      * unfold later_first. lia.
      * rewrite Forall_forall in Hall. now apply Hall.
    + apply Z.ltb_ge in E. constructor; [now constructor|].
      constructor; [exact E|].
      eapply Forall_impl; [|exact Hall].
      unfold later_first. intros z Hz. lia.
Qed.

Lemma sort_desc_sorted (l : list A) :
  StronglySorted (later_first key) (sort_desc key l).
Proof.
  induction l as [|x l IH]; [constructor|].
  unfold sort_desc in *. simpl. now apply insert_desc_sorted.
Qed.

(** The sort is stable: the records of one key keep their order. *)
Lemma insert_desc_stable (k : Z) (x : A) (l : list A) :
  filter (fun y => key y =? k) (insert_desc key x l)
  = filter (fun y => key y =? k) (x :: l).
Proof.
  induction l as [|y l IH]; [reflexivity|].
  simpl insert_desc. destruct (key x <? key y) eqn:E; [|reflexivity].
  apply Z.ltb_lt in E. simpl in *.
  destruct (key y =? k) eqn:Ey, (key x =? k) eqn:Ex;
    rewrite IH; try reflexivity.
  apply Z.eqb_eq in Ey, Ex. lia.
Qed.

Lemma sort_desc_stable (k : Z) (l : list A) :
  filter (fun y => key y =? k) (sort_desc key l)
  = filter (fun y => key y =? k) l.
Proof.
  induction l as [|x l IH]; [reflexivity|].
  unfold sort_desc in *. simpl fold_right.
  rewrite insert_desc_stable. simpl. now rewrite IH.
Qed.

Lemma filter_twice (f g : A -> bool) (l : list A) :
  filter g (filter f l) = filter (fun x => f x && g x) l.
Proof.
  induction l as [|x l IH]; simpl; [reflexivity|].
  destruct (f x); simpl; [destruct (g x)|]; now rewrite IH.
Qed.

Lemma filter_all (l : list A) : filter (fun _ => true) l = l.
Proof. induction l as [|x l IH]; simpl; [reflexivity | now rewrite IH]. Qed.

Lemma slice_to_first (l : list A) (hi : Z) :
  0 <= hi -> slice_to l hi = firstn (Z.to_nat hi) l.
Proof.
  intros H. unfold slice_to, slice_index.
  destruct (hi <? 0) eqn:E; [apply Z.ltb_lt in E; lia|].
  destruct (Z_le_gt_dec hi (Z.of_nat (List.length l))) as [Hle|Hgt].
  - f_equal. lia.
  - rewrite !firstn_all2 by lia. reflexivity.
Qed.

Lemma slice_to_drop (l : list A) (hi : Z) :
  hi < 0 ->
  slice_to l hi = firstn (List.length l - Z.to_nat (- hi)) l.
Proof.
  intros H. unfold slice_to, slice_index.
  apply Z.ltb_lt in H. rewrite H. apply Z.ltb_lt in H. f_equal. lia.
Qed.

End Listing.

Section ListingOrder.

Import JobWorker.

(** Through the route the filters are literals of the enumerations and the
    limit lies between 1 and 200: there the listing is the one the
    specification words. *)
Lemma get_jobs_as_stated (k : option JobKind) (s : option JobStatus)
    (limit : Z) (jobs : registry) :
  1 <= limit <= 200 ->
  Api.get_jobs k s limit jobs
  = (jobs, Api.Body (listing_as_stated (option_map JobKind_str k)
                       (option_map JobStatus_str s) limit jobs)).
Proof.
  intros H. unfold Api.get_jobs.
  replace ((1 <=? limit) && (limit <=? 200)) with true
    by (symmetry; apply andb_true_iff; split; apply Z.leb_le; lia).
  unfold list_jobs, listing_as_stated. do 2 f_equal.
  rewrite slice_to_first by lia. do 2 f_equal.
  destruct k as [[]|], s as [[]|]; simpl;
    first [ now rewrite filter_twice
          | apply filter_ext; intros job; now rewrite andb_true_r
          | reflexivity
          | now rewrite filter_all ].
Qed.

End ListingOrder.

Example list_jobs_newest_first :
  map job_id (snd (JobWorker.list_jobs (Some "scan") (Some "queued") 1
                     two_jobs))
  = ["b"].
Proof. reflexivity. Qed.

(* ================================================================== *)
(** * Runs *)
(* ================================================================== *)

(** A scan from submission to completion: the progress only goes up, stops
    at 99 while the job runs, and is 100 once it completed. *)
Example scan_run_progress :
  option_map progress
    (dict_get "s"
       (JobWorker.jobs
          (world_after
             (scan_events ++ [JobWorker.Progress "s" 40;
                              JobWorker.Progress "s" 30;
                              JobWorker.Progress "s" 250]))))
  = Some 99.
Proof. reflexivity. Qed.

Example scan_run_completed :
  dict_get "s"
    (JobWorker.jobs
       (world_after
          (scan_events ++ [JobWorker.Progress "s" 40;
                           JobWorker.Resume "s" (scan_answer 5) 9])))
  = Some {| job_id := "s"; kind := scan; status := completed;
            phase := Some "completed"; progress := 100; created_at := 1;
            started_at := Some 2; finished_at := Some 9;
            result := Some (VDict [("scan", VDict []); ("prompt", VNone)]);
            error := None |}.
Proof. reflexivity. Qed.

(** The same coroutine, run in one go. *)
Example scan_run_in_one_go :
  JobWorker._run_job sample_validators "s" scan_request 2 3 (scan_answer 5) 9
    (JobWorker.jobs (world_after [JobWorker.Create "s" scan_request 1]))
  = Some (Ok (JobWorker.jobs
                (world_after
                   (scan_events ++ [JobWorker.Resume "s" (scan_answer 5) 9])))).
Proof. reflexivity. Qed.

(** Ten tests in batches of four, canceled after the first batch: the job
    stays canceled and its result counts the four tests that ran. *)
Example canceled_run_keeps_partial_result :
  let j := job_of "tests"
             (world_after
                (sample_events ++ [JobWorker.Resume "tests" tests_answer 40]))
  in
  status j = canceled /\
  finished_at j = Some 17 /\
  option_map (fun r => value_get r "total") (result j) = Some (VInt 4) /\
  option_map (fun r => value_get r "passed") (result j) = Some (VInt 2) /\
  option_map (fun r => value_get r "canceled") (result j)
  = Some (VBool true).
Proof. vm_compute. repeat split; reflexivity. Qed.

(** An evaluation that answers a second past its deadline. *)
Example late_evaluation_times_out :
  let j := job_of "eval"
             (world_after
                (sample_events
                   ++ [JobWorker.Resume "eval" (eval_answer 901) 50]))
  in
  status j = timeout /\ progress j = 40 /\
  option_map code (error j) = Some "EVAL_TIMEOUT".
Proof. vm_compute. repeat split; reflexivity. Qed.

(* ================================================================== *)
(** * JSON-safe values *)
(* ================================================================== *)

Section JsonSafe.

Import JobWorker.

(** Induction on values, through the lists and dicts they nest. *)
Lemma value_rect_nested (P : value -> Prop) :
  P VNone ->
  (forall b, P (VBool b)) ->
  (forall z, P (VInt z)) ->
  (forall f, P (VFloat f)) ->
  (forall s, P (VStr s)) ->
  (forall items, Forall P items -> P (VList items)) ->
  (forall items, Forall P items -> P (VTuple items)) ->
  (forall entries, Forall (fun kv => P (snd kv)) entries ->
                   P (VDict entries)) ->
  (forall repr, P (VObj repr)) ->
  forall v, P v.
Proof.
  intros HN HB HI HF HS HL HT HD HO.
  fix IH 1. intros [| b | z | f | s | items | items | entries | repr].
  - exact HN.
  - apply HB.
  - apply HI.
  - apply HF.
  - apply HS.
  - apply HL. induction items as [|x items IHl]; constructor;
      [apply IH | exact IHl].
  - apply HT. induction items as [|x items IHl]; constructor;
      [apply IH | exact IHl].
  - apply HD. induction entries as [|[k x] entries IHl]; constructor;
      [apply IH | exact IHl].
  - apply HO.
Qed.

Lemma to_json_safe_is_safe (v : value) : json_safe (_to_json_safe v) = true.
Proof.
  induction v using value_rect_nested; simpl; try reflexivity.
  - rewrite forallb_forall. intros x Hx. apply in_map_iff in Hx.
    destruct Hx as (y & <- & Hy). rewrite Forall_forall in H. now apply H.
  - rewrite forallb_forall. intros x Hx. apply in_map_iff in Hx.
    destruct Hx as (y & <- & Hy). rewrite Forall_forall in H. now apply H.
  - rewrite forallb_forall. intros x Hx. apply in_map_iff in Hx.
    destruct Hx as (y & <- & Hy). rewrite Forall_forall in H. simpl.
    now apply H.
Qed.

Lemma to_json_safe_fixes_safe (v : value) :
  json_safe v = true -> _to_json_safe v = v.
Proof.
  induction v using value_rect_nested; simpl; intros Hs;
    try reflexivity; try discriminate.
  - f_equal. rewrite forallb_forall in Hs. rewrite Forall_forall in H.
    rewrite <- (map_id items) at 2. apply map_ext_in. intros x Hx.
    apply H; auto.
  - f_equal. rewrite forallb_forall in Hs. rewrite Forall_forall in H.
    rewrite <- (map_id entries) at 2. apply map_ext_in. intros [k x] Hx.
    simpl. f_equal. apply (H (k, x) Hx). apply (Hs (k, x) Hx).
Qed.

End JsonSafe.

(* ================================================================== *)
(** * The shape of the stored records *)
(* ================================================================== *)

Section Shape.

Import JobWorker.

Variable v : Validators.

(** Only an evaluation can end on the deadline. *)
Lemma await_timeout_eval (request : CreateJobRequest) (awaited : Await)
    (answer : Answer) :
  _run_job_await request awaited answer = Some (inr tt) ->
  is_eval (req_kind request) = true.
Proof.
  unfold _run_job_await. intros H.
  destruct (req_kind request); try reflexivity;
    destruct awaited; try discriminate;
    destruct (reply answer); discriminate.
Qed.

Ltac shape_field :=
  first
    [ tauto
    | congruence
    | solve [intros ? [= <-]; simpl; auto]
    | solve [split;
             [ first [assumption | apply to_json_safe_is_safe | tauto]
             | first [ solve [intros ? [= <-]; simpl; rewrite ?andb_true_r;
                              first [reflexivity
                                    | apply to_json_safe_is_safe]]
                     | solve [intros ? [=]]
                     | tauto
                     | assumption ] ]]
    | solve [intuition (try discriminate; try congruence; auto)] ].

Ltac shape_goal :=
  constructor; simpl in *; unfold errored, code_of in *; shape_field.

Lemma job_step_shape (id : string) (ev : Event) (j j' : JobState)
    (t t' : Task) :
  job_inv j t ->
  job_shape id j t ->
  job_step v ev j t = Some (j', t') ->
  job_shape id j' t'.
Proof.
  intros Hinv Hshape Hstep.
  destruct j as [jid k s ph pr cr st fi re er].
  destruct t as [rq ts n].
  destruct Hinv as [Hk Ht Hc He Hr Hp Hd].
  destruct Hshape as [Sid Sfin Sq Sst Srun Sph Sres Skind Scode Ssafe].
  simpl in *.
  destruct ev as [i request now|i now|i|ks ss limit|i now now'|i x|i l
                 |i answer now]; simpl in Hstep; try discriminate.
  - (* Cancel *)
    injection Hstep as <- <-. unfold cancel_record. simpl.
    destruct (negb (JobKind_eqb k run_tests)) eqn:Ek; [shape_goal|].
    apply negb_false_iff in Ek.
    destruct s; simpl; shape_goal.
  - injection Hstep as <- <-. shape_goal.
  - injection Hstep as <- <-. shape_goal.
  - (* Dispatch *)
    destruct ts; try discriminate.
    unfold dispatch_record, enter_record in Hstep. simpl in Hstep.
    destruct Ht as ([Hs|Hs] & Hst & Hn & Hpr); subst s; simpl in Hstep.
    + destruct (_run_job_validate v rq) as [awaited|errors|e];
        simpl in Hstep; injection Hstep as <- <-; shape_goal.
    + injection Hstep as <- <-. shape_goal.
  - (* Progress *)
    injection Hstep as <- <-. unfold progress_record. simpl.
    destruct s; simpl; shape_goal.
  - (* Phase *)
    injection Hstep as <- <-. unfold phase_record. simpl.
    destruct s; simpl; shape_goal.
  - (* Resume *)
    destruct ts as [|awaited|]; try discriminate.
    unfold resume_record in Hstep.
    destruct (_run_job_await rq awaited answer) as [[[p|e]|[]]|] eqn:Ha;
      try discriminate; injection Hstep as <- <-.
    + unfold store_record. simpl.
      destruct Ht as [Hs|Hs]; subst s; simpl.
      * destruct (is_dict p && truthy (value_get p "canceled")) eqn:Ef.
        -- assert (Hrt : JobKind_eqb k run_tests = true).
           { destruct (JobKind_eqb k run_tests) eqn:Ek; [reflexivity|].
             rewrite (await_not_flagged rq awaited answer p Ha) in Ef;
               [discriminate|].
             intros Hrt. rewrite Hk, Hrt in Ek. discriminate. }
           shape_goal.
        -- shape_goal.
      * destruct er as [e0|]; simpl.
        -- shape_goal.
        -- exfalso. apply (proj2 He); unfold errored; auto.
    + unfold fail_record. simpl.
      destruct Ht as [Hs|Hs]; subst s; simpl; shape_goal.
    + unfold timeout_record. simpl.
      pose proof (await_timeout_eval rq awaited answer Ha) as Hev.
      rewrite <- Hk in Hev.
      destruct Ht as [Hs|Hs]; subst s; simpl; shape_goal.
Qed.

End Shape.

Section ShapeOfWorlds.

Import JobWorker.

Variable v : Validators.

(** A record that appears was just created. *)
Lemma step_created (w w' : World) (ev : Event) (id : string)
    (j' : JobState) :
  world_inv w ->
  step v w ev = Some w' ->
  dict_get id (jobs w) = None ->
  dict_get id (jobs w') = Some j' ->
  exists request now,
    ev = Create id request now /\
    j' = snd (create_job id request now (jobs w)) /\
    dict_get id (tasks w')
    = Some {| task_request := request; task_state := Spawned;
              task_invocations := 0 |}.
Proof.
  intros Hinv Hstep Hj Hj'.
  pose proof (Hinv id) as Hid. rewrite Hj in Hid.
  destruct (dict_get id (tasks w)) as [t|] eqn:Ht; [contradiction|].
  destruct (option_map (String.eqb id) (target ev)) as [[|]|] eqn:Et.
  - assert (Htarget : target ev = Some id).
    { destruct (target ev) as [k|]; [|discriminate]. simpl in Et.
      injection Et as Et. apply String.eqb_eq in Et. now subst. }
    destruct ev as [i request now|i now|i|ks ss limit|i now now'|i x|i l
                   |i answer now]; simpl in Htarget; try discriminate;
      injection Htarget as ->; simpl in Hstep.
    + rewrite Hj in Hstep. injection Hstep as <-. simpl in *.
      rewrite dict_get_set_same in Hj'. injection Hj' as <-.
      exists request, now. rewrite dict_get_set_same. auto.
    + injection Hstep as <-. simpl in Hj'.
      rewrite (proj1 (absent_untouched id _ Hj)) in Hj'. congruence.
    + injection Hstep as <-. simpl in Hj'. congruence.
    + rewrite Ht in Hstep. discriminate.
    + injection Hstep as <-. simpl in Hj'.
      rewrite (proj1 (proj2 (absent_untouched id _ Hj))) in Hj'. congruence.
    + injection Hstep as <-. simpl in Hj'.
      destruct (absent_untouched id _ Hj) as (_ & _ & P & _).
      rewrite P in Hj'. congruence.
    + rewrite Ht in Hstep. discriminate.
  - assert (Hother : target ev <> Some id).
    { destruct (target ev) as [k|]; [|discriminate]. simpl in Et.
      injection Et as Et. intros [= ->]. rewrite String.eqb_refl in Et.
      discriminate. }
    destruct (step_elsewhere v w w' ev id Hstep Hother) as [E _].
    congruence.
  - assert (Hother : target ev <> Some id).
    { destruct (target ev); [discriminate | congruence]. }
    destruct (step_elsewhere v w w' ev id Hstep Hother) as [E _].
    congruence.
Qed.

Lemma run_reachable (events : list Event) (w w' : World) :
  reachable v w -> run v w events = Some w' -> reachable v w'.
Proof.
  revert w. induction events as [|ev events IH]; simpl; intros w Hr Hrun.
  - now injection Hrun as <-.
  - destruct (step v w ev) as [w1|] eqn:Hstep; [|discriminate].
    eapply IH; [|exact Hrun]. eapply reachable_step; eauto.
Qed.

(** A property of the stored records that a fresh record has and that
    every event keeps holds in every reachable world. *)
Lemma reachable_keeps (Q : string -> JobState -> Task -> Prop) :
  (forall id request now jobs0,
      Q id (snd (create_job id request now jobs0))
        {| task_request := request; task_state := Spawned;
           task_invocations := 0 |}) ->
  (forall id ev j t j' t',
      job_inv j t -> Q id j t ->
      job_step v ev j t = Some (j', t') -> Q id j' t') ->
  forall w, reachable v w ->
  forall id j t,
    dict_get id (jobs w) = Some j ->
    dict_get id (tasks w) = Some t ->
    Q id j t.
Proof.
  intros Hfresh Hkeep w [events Hrun].
  assert (G : forall evs w0 w1,
             reachable v w0 ->
             (forall id j t, dict_get id (jobs w0) = Some j ->
                             dict_get id (tasks w0) = Some t -> Q id j t) ->
             run v w0 evs = Some w1 ->
             forall id j t, dict_get id (jobs w1) = Some j ->
                            dict_get id (tasks w1) = Some t -> Q id j t).
  { induction evs as [|ev evs IH]; simpl; intros w0 w1 Hr HQ Hrun0.
    - injection Hrun0 as <-. exact HQ.
    - destruct (step v w0 ev) as [w2|] eqn:Hstep; [|discriminate].
      apply (IH w2 w1); [eapply reachable_step; eauto| |exact Hrun0].
      intros id j t Hj Ht.
      destruct (dict_get id (jobs w0)) as [j0|] eqn:Hj0.
      + destruct (reachable_job v w0 id j0 Hr Hj0) as (t0 & Ht0 & Hinv).
        destruct (step_cases v w0 w2 ev id j0 t0 Hstep Hj0 Ht0)
          as (j1 & t1 & Hj1 & Ht1 & [(-> & -> & _)|(_ & Hjs)]).
        * assert (j = j0) by congruence. assert (t = t0) by congruence.
          subst. now apply HQ.
        * assert (j = j1) by congruence. assert (t = t1) by congruence.
          subst. eapply Hkeep; eauto.
      + destruct (step_created w0 w2 ev id j (reachable_inv v w0 Hr)
                    Hstep Hj0 Hj) as (request & now & _ & -> & Ht2).
        assert (t = {| task_request := request; task_state := Spawned;
                       task_invocations := 0 |}) by congruence.
        subst t. apply Hfresh. }
  apply (G events start w); auto.
  - exists []. reflexivity.
  - intros id j t Hj. simpl in Hj. discriminate.
Qed.

Lemma reachable_shape (w : World) (id : string) (j : JobState) :
  reachable v w ->
  dict_get id (jobs w) = Some j ->
  exists t, dict_get id (tasks w) = Some t /\ job_inv j t /\ job_shape id j t.
Proof.
  intros Hr Hj.
  destruct (reachable_job v w id j Hr Hj) as (t & Ht & Hinv).
  exists t. split; [exact Ht|]. split; [exact Hinv|].
  apply (reachable_keeps job_shape) with (w := w); auto.
  - intros i request now jobs0. constructor; simpl; unfold code_of;
      try tauto; try congruence;
      intuition (try discriminate; try congruence).
  - intros i ev j0 t0 j1 t1. apply job_step_shape.
Qed.

(** X2.  In every reachable world the record stored under an identifier
    carries that identifier; [finished_at] is set exactly in the terminal
    states; a queued record has no [started_at] and no phase; a record
    that is running, completed, failed or timed out has a [started_at]; the
    phase of a terminal record is the name of its status; a completed
    record has a result, and only completed and canceled records have one;
    only evaluations are timed out and only test runs canceled; and the
    code of the error tells the status: [INVALID_INPUT] or [JOB_FAILED]
    for failed, [EVAL_TIMEOUT] for timeout, [CANCELED_BY_USER] for
    canceled. *)
Theorem stored_record_shape (w : World) (id : string) (j : JobState) :
  reachable v w ->
  dict_get id (jobs w) = Some j ->
  job_id j = id /\
  (finished_at j <> None <-> is_terminal (status j) = true) /\
  (status j = queued -> started_at j = None /\ phase j = None) /\
  (status j = running \/ status j = completed \/ status j = failed \/
   status j = timeout -> started_at j <> None) /\
  (status j = running -> phase j <> None) /\
  (is_terminal (status j) = true ->
   phase j = Some (JobStatus_str (status j))) /\
  (status j = completed -> result j <> None) /\
  (result j <> None -> status j = completed \/ status j = canceled) /\
  (status j = timeout -> is_eval (kind j) = true) /\
  (status j = canceled -> kind j = run_tests) /\
  (forall e, error j = Some e ->
     match status j with
     | failed => code e = "INVALID_INPUT" \/ code e = "JOB_FAILED"
     | timeout => code e = "EVAL_TIMEOUT"
     | canceled => code e = "CANCELED_BY_USER"
     | _ => False
     end).
Proof.
  intros Hr Hj.
  destruct (reachable_shape w id j Hr Hj) as (t & Ht & Hinv & S).
  destruct S as [Sid Sfin Sq Sst Srun Sph Sres Skind Scode Ssafe].
  split; [exact Sid|]. split; [exact Sfin|]. split; [exact Sq|].
  split; [exact Sst|]. split; [exact Srun|].
  split.
  { intros Hterm. rewrite (Sph Hterm).
    destruct (status j); try discriminate; reflexivity. }
  split; [apply Sres|]. split; [apply Sres|].
  split; [intros Hs; rewrite Hs in Skind; exact Skind|].
  split; [apply (inv_canceled _ _ Hinv)|].
  intros e He. specialize (Scode e He).
  destruct (status j); simpl in Scode; assumption.
Qed.

(** X3.  Whatever a unit of work returned or raised, what a reachable
    registry stores as result and as error details is made of mappings,
    sequences and scalars only. *)
Theorem stored_values_json_safe (w : World) (id : string) (j : JobState) :
  reachable v w ->
  dict_get id (jobs w) = Some j ->
  (forall r, result j = Some r -> json_safe r = true) /\
  (forall e d, error j = Some e -> details e = Some d -> json_safe d = true).
Proof.
  intros Hr Hj.
  destruct (reachable_shape w id j Hr Hj) as (t & Ht & Hinv & S).
  destruct (shape_safe _ _ _ S) as [Sr Se].
  split.
  - intros r Er. rewrite Er in Sr. exact Sr.
  - intros e d Ee Ed. specialize (Se e Ee). rewrite Ed in Se. exact Se.
Qed.

End ShapeOfWorlds.

Lemma stored_record_shape_witness :
  JobWorker.reachable sample_validators (world_after sample_events) /\
  dict_get "tests" (JobWorker.jobs (world_after sample_events))
  = Some (job_of "tests" (world_after sample_events)) /\
  job_id (job_of "tests" (world_after sample_events)) = "tests" /\
  (finished_at (job_of "tests" (world_after sample_events)) <> None <->
   JobWorker.is_terminal
     (status (job_of "tests" (world_after sample_events))) = true).
Proof.
  assert (R : JobWorker.reachable sample_validators
                (world_after sample_events))
    by (apply (sample_reachable sample_events); reflexivity).
  split; [exact R|]. split; [reflexivity|].
  pose proof (stored_record_shape sample_validators
                (world_after sample_events) "tests"
                (job_of "tests" (world_after sample_events))
                R eq_refl) as H.
  split; [exact (proj1 H) | exact (proj1 (proj2 H))].
Defined.

(* ================================================================== *)
(** * The history of a record *)
(* ================================================================== *)

Section Later.

Import JobWorker.

Variable v : Validators.

Lemma after_refl (k : JobKind) (s : JobStatus) : after k s s = true.
Proof. destruct s; reflexivity. Qed.

Lemma after_trans (k : JobKind) (a b c : JobStatus) :
  after k a b = true -> after k b c = true -> after k a c = true.
Proof.
  destruct a, b, c; simpl; intros H1 H2;
    first [reflexivity | assumption | discriminate].
Qed.

Lemma moves_after (k : JobKind) (a b : JobStatus) :
  moves k a b = true -> after k a b = true.
Proof.
  destruct a, b; simpl; intros H; first [reflexivity | assumption | discriminate].
Qed.

Lemma job_later_refl (j : JobState) : job_later j j.
Proof.
  constructor; try reflexivity; try lia; auto using after_refl.
Qed.

Lemma job_later_trans (a b c : JobState) :
  job_later a b -> job_later b c -> job_later a c.
Proof.
  intros [A1 A2 A3 A4 A5 A6 A7 A8] [B1 B2 B3 B4 B5 B6 B7 B8].
  constructor; try congruence; try lia.
  - rewrite A2 in B4. eapply after_trans; eauto.
  - intros H. rewrite <- (A6 H). apply B6. rewrite (A6 H). exact H.
  - intros H. rewrite <- (A7 H). apply B7. rewrite (A7 H). exact H.
  - intros H. rewrite <- (A8 H). apply B8. rewrite (A8 H). exact H.
Qed.

Ltac later_field :=
  first
    [ reflexivity
    | assumption
    | lia
    | congruence
    | tauto
    | solve [intros; exfalso; intuition (try discriminate; try congruence)] ].

Ltac later_goal :=
  constructor; simpl in *; unfold errored in *; later_field.

(** One event, as the record under its identifier sees it. *)
Lemma job_step_later (id : string) (ev : Event) (j j' : JobState)
    (t t' : Task) :
  job_inv j t ->
  job_shape id j t ->
  job_step v ev j t = Some (j', t') ->
  job_later j j' /\ moves (kind j) (status j) (status j') = true.
Proof.
  intros Hinv Hshape Hstep.
  destruct j as [jid k s ph pr cr st fi re er].
  destruct t as [rq ts n].
  destruct Hinv as [Hk Ht Hc He Hr Hp Hd].
  destruct Hshape as [_ Sfin Sq Sst _ _ _ _ _ _].
  simpl in *.
  destruct ev as [i request now|i now|i|ks ss limit|i now now'|i x|i l
                 |i answer now]; simpl in Hstep; try discriminate.
  - (* Cancel *)
    injection Hstep as <- <-. unfold cancel_record. simpl.
    destruct (negb (JobKind_eqb k run_tests)) eqn:Ek.
    { split; [apply job_later_refl | destruct s; reflexivity]. }
    apply negb_false_iff in Ek.
    destruct s; simpl; (split; [later_goal | later_field]).
  - injection Hstep as <- <-.
    split; [apply job_later_refl | destruct s; reflexivity].
  - injection Hstep as <- <-.
    split; [apply job_later_refl | destruct s; reflexivity].
  - (* Dispatch *)
    destruct ts; try discriminate.
    unfold dispatch_record, enter_record in Hstep. simpl in Hstep.
    destruct Ht as ([Hs|Hs] & Hst & Hn & Hpr); subst s; simpl in Hstep.
    + destruct (_run_job_validate v rq) as [awaited|errors|e];
        simpl in Hstep; injection Hstep as <- <-;
        (split; [later_goal | later_field]).
    + injection Hstep as <- <-.
      split; [apply job_later_refl | reflexivity].
  - (* Progress *)
    injection Hstep as <- <-. unfold progress_record. simpl.
    destruct s; simpl; (split; [later_goal | later_field]).
  - (* Phase *)
    injection Hstep as <- <-. unfold phase_record. simpl.
    destruct s; simpl; (split; [later_goal | later_field]).
  - (* Resume *)
    destruct ts as [|awaited|]; try discriminate.
    unfold resume_record in Hstep.
    destruct (_run_job_await rq awaited answer) as [[[p|e]|[]]|] eqn:Ha;
      try discriminate; injection Hstep as <- <-.
    + unfold store_record. simpl.
      destruct Ht as [Hs|Hs]; subst s; simpl.
      * destruct (is_dict p && truthy (value_get p "canceled")) eqn:Ef.
        -- assert (Hrt : JobKind_eqb k run_tests = true).
           { destruct (JobKind_eqb k run_tests) eqn:Ek; [reflexivity|].
             rewrite (await_not_flagged rq awaited answer p Ha) in Ef;
               [discriminate|].
             intros Hrt. rewrite Hk, Hrt in Ek. discriminate. }
           split; [later_goal | later_field].
        -- split; [later_goal | later_field].
      * destruct er as [e0|]; simpl.
        -- split; [later_goal | later_field].
        -- exfalso. apply (proj2 He); unfold errored; auto.
    + unfold fail_record. simpl.
      destruct Ht as [Hs|Hs]; subst s; simpl;
        (split; [later_goal | later_field]).
    + unfold timeout_record. simpl.
      pose proof (await_timeout_eval rq awaited answer Ha) as Hev.
      rewrite <- Hk in Hev.
      destruct Ht as [Hs|Hs]; subst s; simpl;
        (split; [later_goal | later_field]).
Qed.

(** The record under an identifier, some turns later. *)
Lemma run_later (events : list Event) (w w' : World) (id : string)
    (j : JobState) :
  reachable v w ->
  run v w events = Some w' ->
  dict_get id (jobs w) = Some j ->
  exists j', dict_get id (jobs w') = Some j' /\ job_later j j'.
Proof.
  revert w j. induction events as [|ev events IH]; simpl;
    intros w j Hr Hrun Hj.
  - injection Hrun as <-. exists j. split; [exact Hj | apply job_later_refl].
  - destruct (step v w ev) as [w1|] eqn:Hstep; [|discriminate].
    destruct (reachable_shape v w id j Hr Hj) as (t & Ht & Hinv & Hshape).
    assert (Hr1 : reachable v w1) by (eapply reachable_step; eauto).
    destruct (step_cases v w w1 ev id j t Hstep Hj Ht)
      as (j1 & t1 & Hj1 & Ht1 & [(-> & -> & _)|(_ & Hjs)]).
    + eapply IH; eauto.
    + destruct (IH w1 j1 Hr1 Hrun Hj1) as (j' & Hj' & Hl).
      exists j'. split; [exact Hj'|].
      eapply job_later_trans; [|exact Hl].
      exact (proj1 (job_step_later id ev j j1 t t1 Hinv Hshape Hjs)).
Qed.

(** X4.  Along any run of the event loop the progress of a record never
    decreases, whatever is reported and in whatever order; it is 0 while
    the job is queued, and within 0 and 100 throughout. *)
Theorem progress_never_decreases (events : list Event) (w w' : World)
    (id : string) (j : JobState) :
  reachable v w ->
  run v w events = Some w' ->
  dict_get id (jobs w) = Some j ->
  exists j',
    dict_get id (jobs w') = Some j' /\
    0 <= progress j <= progress j' /\ progress j' <= 100 /\
    (status j' = queued -> progress j' = 0).
Proof.
  intros Hr Hrun Hj.
  destruct (run_later events w w' id j Hr Hrun Hj) as (j' & Hj' & Hl).
  exists j'. split; [exact Hj'|].
  destruct (reachable_job v w id j Hr Hj) as (t & Ht & Hinv).
  destruct (reachable_job v w' id j' (run_reachable v events w w' Hr Hrun) Hj')
    as (t' & Ht' & Hinv').
  pose proof (inv_progress _ _ Hinv) as P.
  pose proof (inv_progress _ _ Hinv') as P'.
  pose proof (later_progress _ _ Hl) as L.
  split; [lia|]. split; [lia|].
  intros Hq. pose proof (inv_task _ _ Hinv') as T.
  destruct (task_state t').
  - tauto.
  - rewrite Hq in T. destruct T; discriminate.
  - rewrite Hq in T. discriminate.
Qed.

(** X5.  The status of a record moves along the lifecycle only.  One turn
    of the event loop leaves it where it is, or takes a queued job to
    running, failed or canceled and a running job to completed, failed,
    timeout or canceled, where only an evaluation goes to timeout and only
    a test run to canceled.  Over any run, a job is never queued again
    once it left that state and a terminal status is never replaced. *)
Theorem status_follows_lifecycle (w : World) (id : string) (j : JobState) :
  reachable v w ->
  dict_get id (jobs w) = Some j ->
  (forall ev w1,
      step v w ev = Some w1 ->
      exists j1,
        dict_get id (jobs w1) = Some j1 /\
        moves (kind j) (status j) (status j1) = true) /\
  (forall events w',
      run v w events = Some w' ->
      exists j',
        dict_get id (jobs w') = Some j' /\
        after (kind j) (status j) (status j') = true /\
        (status j' = queued -> status j = queued) /\
        (is_terminal (status j) = true -> status j' = status j) /\
        (status j' = timeout -> is_eval (kind j) = true) /\
        (status j' = canceled -> kind j = run_tests)).
Proof.
  intros Hr Hj.
  destruct (reachable_shape v w id j Hr Hj) as (t & Ht & Hinv & Hshape).
  split.
  - intros ev w1 Hstep.
    destruct (step_cases v w w1 ev id j t Hstep Hj Ht)
      as (j1 & t1 & Hj1 & Ht1 & [(-> & -> & _)|(_ & Hjs)]).
    + exists j. split; [exact Hj1|]. destruct (status j); reflexivity.
    + exists j1. split; [exact Hj1|].
      exact (proj2 (job_step_later id ev j j1 t t1 Hinv Hshape Hjs)).
  - intros events w' Hrun.
    destruct (run_later events w w' id j Hr Hrun Hj) as (j' & Hj' & Hl).
    exists j'. split; [exact Hj'|].
    pose proof (later_status _ _ Hl) as A.
    pose proof (later_kind _ _ Hl) as K.
    destruct (reachable_shape v w' id j'
                (run_reachable v events w w' Hr Hrun) Hj')
      as (t' & Ht' & Hinv' & Hshape').
    pose proof (shape_kind _ _ _ Hshape') as KA. rewrite K in KA.
    split; [exact A|].
    split.
    { intros Hq. rewrite Hq in A. destruct (status j);
        simpl in A; first [reflexivity | discriminate]. }
    split.
    { intros Hterm. destruct (status j); try discriminate;
        simpl in A; apply JobStatus_eqb_eq in A; now symmetry. }
    split.
    { intros Hs. rewrite Hs in KA. exact KA. }
    intros Hs. rewrite <- K. apply (inv_canceled _ _ Hinv'). exact Hs.
Qed.

(** X6.  A record is never removed from the registry, stays under its
    identifier, and keeps its [job_id], [kind] and [created_at]; its
    [started_at], [finished_at] and error, once written, are never
    written again. *)
Theorem record_history (events : list Event) (w w' : World) (id : string)
    (j : JobState) :
  reachable v w ->
  run v w events = Some w' ->
  dict_get id (jobs w) = Some j ->
  exists j',
    dict_get id (jobs w') = Some j' /\
    job_id j' = id /\ job_id j = id /\
    kind j' = kind j /\ created_at j' = created_at j /\
    (forall at_, started_at j = Some at_ -> started_at j' = Some at_) /\
    (forall at_, finished_at j = Some at_ -> finished_at j' = Some at_) /\
    (forall e, error j = Some e -> error j' = Some e).
Proof.
  intros Hr Hrun Hj.
  destruct (run_later events w w' id j Hr Hrun Hj) as (j' & Hj' & Hl).
  destruct (reachable_shape v w id j Hr Hj) as (t & Ht & Hinv & Hshape).
  destruct Hl as [L1 L2 L3 L4 L5 L6 L7 L8].
  exists j'. split; [exact Hj'|].
  pose proof (shape_id _ _ _ Hshape) as I.
  split; [congruence|]. split; [exact I|].
  split; [exact L2|]. split; [exact L3|].
  split; [|split].
  - intros a E. rewrite L6; congruence.
  - intros a E. rewrite L7; congruence.
  - intros e E. rewrite L8; congruence.
Qed.

End Later.

Section LaterWitnesses.

Import JobWorker.

Lemma stored_values_json_safe_witness :
  reachable sample_validators
    (world_after [Create "scan" bad_scan_request 11; Dispatch "scan" 12 13])
  /\
  dict_get "scan"
    (jobs (world_after [Create "scan" bad_scan_request 11;
                        Dispatch "scan" 12 13]))
  = Some (job_of "scan"
            (world_after [Create "scan" bad_scan_request 11;
                          Dispatch "scan" 12 13])) /\
  error (job_of "scan"
           (world_after [Create "scan" bad_scan_request 11;
                         Dispatch "scan" 12 13]))
  = Some {| code := "INVALID_INPUT"; message := "Invalid job payload.";
            details := Some (VDict [("errors",
                               VList [VStr "url: field required"])]) |} /\
  json_safe (VDict [("errors", VList [VStr "url: field required"])]) = true.
Proof.
  assert (R : reachable sample_validators
                (world_after [Create "scan" bad_scan_request 11;
                              Dispatch "scan" 12 13]))
    by (apply (sample_reachable [Create "scan" bad_scan_request 11;
                                 Dispatch "scan" 12 13]); reflexivity).
  split; [exact R|]. split; [reflexivity|]. split; [reflexivity|].
  exact (proj2 (stored_values_json_safe sample_validators
                  (world_after [Create "scan" bad_scan_request 11;
                                Dispatch "scan" 12 13]) "scan"
                  (job_of "scan"
                     (world_after [Create "scan" bad_scan_request 11;
                                   Dispatch "scan" 12 13])) R eq_refl)
           _ _ eq_refl eq_refl).
Defined.

Lemma progress_never_decreases_witness :
  reachable sample_validators (world_after queued_events) /\
  run sample_validators (world_after queued_events) after_cancel_events
  = Some (world_after (queued_events ++ after_cancel_events)) /\
  dict_get "tests" (jobs (world_after queued_events))
  = Some (job_of "tests" (world_after queued_events)) /\
  exists j',
    dict_get "tests"
      (jobs (world_after (queued_events ++ after_cancel_events))) = Some j' /\
    0 <= progress (job_of "tests" (world_after queued_events))
      <= progress j' /\
    progress j' <= 100 /\
    (status j' = queued -> progress j' = 0).
Proof.
  assert (R : reachable sample_validators (world_after queued_events))
    by (apply (sample_reachable queued_events); reflexivity).
  split; [exact R|]. split; [reflexivity|]. split; [reflexivity|].
  exact (progress_never_decreases sample_validators after_cancel_events
           (world_after queued_events)
           (world_after (queued_events ++ after_cancel_events)) "tests"
           (job_of "tests" (world_after queued_events))
           R eq_refl eq_refl).
Defined.

Lemma status_follows_lifecycle_witness :
  reachable sample_validators (world_after queued_events) /\
  dict_get "tests" (jobs (world_after queued_events))
  = Some (job_of "tests" (world_after queued_events)) /\
  exists j',
    dict_get "tests"
      (jobs (world_after (queued_events ++ after_cancel_events))) = Some j' /\
    after (kind (job_of "tests" (world_after queued_events)))
      (status (job_of "tests" (world_after queued_events))) (status j')
    = true.
Proof.
  assert (R : reachable sample_validators (world_after queued_events))
    by (apply (sample_reachable queued_events); reflexivity).
  split; [exact R|]. split; [reflexivity|].
  destruct (proj2 (status_follows_lifecycle sample_validators
                     (world_after queued_events) "tests"
                     (job_of "tests" (world_after queued_events))
                     R eq_refl)
              after_cancel_events
              (world_after (queued_events ++ after_cancel_events)) eq_refl)
    as (j' & Hj' & A & _).
  exists j'. split; [exact Hj' | exact A].
Defined.

Lemma record_history_witness :
  reachable sample_validators (world_after queued_events) /\
  run sample_validators (world_after queued_events) after_cancel_events
  = Some (world_after (queued_events ++ after_cancel_events)) /\
  dict_get "tests" (jobs (world_after queued_events))
  = Some (job_of "tests" (world_after queued_events)) /\
  exists j',
    dict_get "tests"
      (jobs (world_after (queued_events ++ after_cancel_events))) = Some j' /\
    job_id j' = "tests" /\
    created_at j' = created_at (job_of "tests" (world_after queued_events)).
Proof.
  assert (R : reachable sample_validators (world_after queued_events))
    by (apply (sample_reachable queued_events); reflexivity).
  split; [exact R|]. split; [reflexivity|]. split; [reflexivity|].
  destruct (record_history sample_validators after_cancel_events
              (world_after queued_events)
              (world_after (queued_events ++ after_cancel_events)) "tests"
              (job_of "tests" (world_after queued_events))
              R eq_refl eq_refl)
    as (j' & Hj' & I & _ & _ & C & _).
  exists j'. split; [exact Hj'|]. split; [exact I | exact C].
Defined.

End LaterWitnesses.
(* ================================================================== *)
(** * The units of work *)
(* ================================================================== *)

Section Calls.

Import JobWorker.

Variable v : Validators.

Lemma validate_unsupported (request : CreateJobRequest) (e : exn) :
  _run_job_validate v request = Unsupported e ->
  req_kind request = report_pdf /\
  e = ValueError "Unsupported job kind: report_pdf".
Proof.
  unfold _run_job_validate.
  destruct (req_kind request) eqn:K;
    try (destruct (validate_scan v _); discriminate);
    try (destruct (validate_eval v _); discriminate);
    try (destruct (validate_run_tests v _); discriminate).
  intros [= <-]. auto.
Qed.

Lemma validate_report_pdf (request : CreateJobRequest) :
  req_kind request = report_pdf ->
  _run_job_validate v request
  = Unsupported (ValueError "Unsupported job kind: report_pdf").
Proof. unfold _run_job_validate. intros ->. reflexivity. Qed.

Lemma await_not_report_pdf (request : CreateJobRequest) (awaited : Await)
    (answer : Answer) (r : res value + unit) :
  _run_job_await request awaited answer = Some r ->
  req_kind request <> report_pdf.
Proof.
  unfold _run_job_await. destruct (req_kind request); try discriminate.
  all: intros _; discriminate.
Qed.

Lemma job_step_calls (ev : Event) (j j' : JobState) (t t' : Task) :
  job_inv j t ->
  job_calls v j t ->
  job_step v ev j t = Some (j', t') ->
  job_calls v j' t'.
Proof.
  intros Hinv Hcalls Hstep.
  destruct j as [jid k s ph pr cr st fi re er].
  destruct t as [rq ts n].
  destruct Hinv as [Hk Ht Hc He Hr Hp Hd].
  destruct Hcalls as [C1 C2 C3].
  simpl in *.
  destruct ev as [i request now|i now|i|ks ss limit|i now now'|i x|i l
                 |i answer now]; simpl in Hstep; try discriminate.
  - (* Cancel *)
    injection Hstep as <- <-. unfold cancel_record. simpl.
    destruct (negb (JobKind_eqb k run_tests)) eqn:Ek;
      [constructor; simpl; assumption|].
    apply negb_false_iff in Ek. apply JobKind_eqb_eq in Ek.
    destruct (is_terminal s) eqn:Es; [constructor; simpl; assumption|].
    constructor; simpl.
    + exact C1.
    + intros e [= <-]. simpl. discriminate.
    + intros Hpdf. congruence.
  - injection Hstep as <- <-. constructor; simpl; assumption.
  - injection Hstep as <- <-. constructor; simpl; assumption.
  - (* Dispatch *)
    destruct ts; try discriminate.
    unfold dispatch_record, enter_record in Hstep. simpl in Hstep.
    destruct C1 as (Hn & Hre & Hst). subst n re st.
    destruct Ht as ([Hs|Hs] & _ & _ & Hpr); subst s; simpl in Hstep.
    + assert (Her : er = None).
      { destruct er as [e0|]; [|reflexivity]. exfalso.
        assert (X : Some e0 <> None) by discriminate.
        apply He in X. unfold errored in X.
        destruct X as [X|[X|X]]; discriminate. }
      subst er. clear C2.
      destruct (_run_job_validate v rq) as [awaited|errors|e] eqn:Ev;
        simpl in Hstep; injection Hstep as <- <-.
      * constructor; simpl.
        -- split; [reflexivity|]. split; [first [exact Ev | reflexivity]|].
           split; [discriminate | reflexivity].
        -- intros e [=].
        -- intros Hpdf. rewrite Hk in Hpdf.
           rewrite (validate_report_pdf rq Hpdf) in Ev. discriminate.
      * constructor; simpl.
        -- right. split; [reflexivity|]. split; [reflexivity|].
           right. intros a Ha. congruence.
        -- intros e [= <-] _. exists errors.
           split; [first [exact Ev | reflexivity] | reflexivity].
        -- intros Hpdf. rewrite Hk in Hpdf.
           rewrite (validate_report_pdf rq Hpdf) in Ev. discriminate.
      * destruct (validate_unsupported rq e Ev) as [Hpdf ->].
        constructor; simpl.
        -- right. split; [reflexivity|]. split; [reflexivity|].
           right. intros a Ha. congruence.
        -- intros e [= <-]. simpl. discriminate.
        -- intros _. right. unfold unsupported_kind. simpl. auto 6.
    + injection Hstep as <- <-.
      constructor; simpl.
      * right. auto.
      * exact C2.
      * intros Hpdf. specialize (Hc eq_refl). congruence.
  - (* Progress *)
    injection Hstep as <- <-. unfold progress_record. simpl.
    destruct (negb (JobStatus_eqb s running)) eqn:Es;
      [constructor; simpl; assumption|].
    apply negb_false_iff in Es. apply JobStatus_eqb_eq in Es. subst s.
    constructor; simpl; try assumption.
    intros Hpdf. destruct (C3 Hpdf) as [X|[X _]]; discriminate.
  - (* Phase *)
    injection Hstep as <- <-. unfold phase_record. simpl.
    destruct (negb (JobStatus_eqb s running)) eqn:Es;
      [constructor; simpl; assumption|].
    constructor; simpl; assumption.
  - (* Resume *)
    destruct ts as [|awaited|]; try discriminate.
    unfold resume_record in Hstep.
    destruct C1 as (Hn & Hvalid & Hst & Hre). subst n re.
    destruct (_run_job_await rq awaited answer) as [r|] eqn:Ha;
      [|discriminate].
    pose proof (await_not_report_pdf rq awaited answer r Ha) as Hpdf.
    rewrite <- Hk in Hpdf.
    destruct r as [[p|e]|[]]; injection Hstep as <- <-.
    + unfold store_record. simpl.
      destruct (JobStatus_eqb s canceled) eqn:Es; simpl.
      * destruct er as [e0|]; simpl; constructor; simpl;
          try (left; split; [reflexivity | split; [assumption | eauto]]); try contradiction.
        -- exact C2.
        -- intros e [= <-]. simpl. discriminate.
      * destruct (is_dict p && truthy (value_get p "canceled"));
          constructor; simpl; try (left; split; [reflexivity | split; [assumption | eauto]]); try contradiction.
        -- intros e [= <-]. simpl. discriminate.
        -- intros e [=].
    + unfold fail_record. simpl.
      destruct (JobStatus_eqb s canceled) eqn:Es; simpl;
        constructor; simpl; try (left; split; [reflexivity | split; [assumption | eauto]]); try contradiction.
      * exact C2.
      * intros e0 [= <-]. simpl. discriminate.
    + unfold timeout_record. simpl.
      destruct (JobStatus_eqb s canceled) eqn:Es; simpl;
        constructor; simpl; try (left; split; [reflexivity | split; [assumption | eauto]]); try contradiction.
      * exact C2.
      * intros e0 [= <-]. simpl. discriminate.
Qed.

Lemma reachable_calls (w : World) (id : string) (j : JobState) (t : Task) :
  reachable v w ->
  dict_get id (jobs w) = Some j ->
  dict_get id (tasks w) = Some t ->
  job_calls v j t.
Proof.
  intros Hr Hj Ht.
  apply (reachable_keeps v (fun _ => job_calls v)) with (w := w) (id := id);
    auto.
  - intros i request now jobs0. constructor; simpl.
    + auto.
    + intros e [=].
    + auto.
  - intros i ev j0 t0 j1 t1. apply job_step_calls.
Qed.

(** X7.  The unit of work of a job (the scan, the evaluation, the test
    run) is started at most once, and exactly when the job was started
    with a payload that validates.  A job that is still queued, that was
    canceled before its coroutine ran, or whose payload was rejected never
    reaches its unit of work; the rejected payload is recorded as
    [INVALID_INPUT] with the validation errors as details; and only a job
    whose unit of work was started has a result. *)
Theorem unit_of_work_called_once (w : World) (id : string) (j : JobState)
    (t : Task) :
  reachable v w ->
  dict_get id (jobs w) = Some j ->
  dict_get id (tasks w) = Some t ->
  (task_invocations t <= 1)%nat /\
  (task_invocations t = 1%nat <->
   started_at j <> None /\
   exists awaited, _run_job_validate v (task_request t) = Valid awaited) /\
  (status j = queued -> task_invocations t = 0%nat) /\
  (result j <> None -> task_invocations t = 1%nat) /\
  (forall e,
      error j = Some e -> code e = "INVALID_INPUT" ->
      task_invocations t = 0%nat /\
      exists errors,
        _run_job_validate v (task_request t) = Invalid errors /\
        e = invalid_input errors).
Proof.
  intros Hr Hj Ht.
  pose proof (reachable_calls w id j t Hr Hj Ht) as [C1 C2 C3].
  destruct (reachable_job v w id j Hr Hj) as (t0 & Ht0 & Hinv).
  assert (t0 = t) by congruence. subst t0.
  pose proof (inv_task _ _ Hinv) as T.
  assert (Iff : task_invocations t = 1%nat <->
                started_at j <> None /\
                exists awaited,
                  _run_job_validate v (task_request t) = Valid awaited).
  { destruct (task_state t) as [|a|].
    - destruct C1 as (N & _ & S). rewrite N, S. split; [discriminate|].
      intros [X _]. now contradiction X.
    - destruct C1 as (N & V & S & _). split; [eauto | auto].
    - destruct C1 as [(N & S & V)|(N & _ & [S|V])].
      + split; auto.
      + rewrite N, S. split; [discriminate|]. intros [X _].
        now contradiction X.
      + rewrite N. split; [discriminate|]. intros [_ [a Ha]].
        now contradiction (V a). }
  split.
  { destruct (task_state t) as [|a|].
    - destruct C1 as (N & _). lia.
    - destruct C1 as (N & _). lia.
    - destruct C1 as [(N & _)|(N & _)]; lia. }
  split; [exact Iff|].
  split.
  { intros Hq. destruct (task_state t) as [|a|].
    - tauto.
    - rewrite Hq in T. destruct T; discriminate.
    - rewrite Hq in T. discriminate. }
  split.
  { intros Hres. destruct (task_state t) as [|a|].
    - destruct C1 as (_ & R & _). contradiction.
    - tauto.
    - destruct C1 as [(N & _)|(_ & R & _)]; [exact N | contradiction]. }
  intros e He Hcode. destruct (C2 e He Hcode) as (errors & Hv & ->).
  split; [|eauto].
  destruct (task_invocations t) as [|[|n]] eqn:N; [reflexivity| |].
  - destruct (proj1 Iff eq_refl) as [_ [a Ha]]. congruence.
  - destruct (task_state t) as [|a|].
    + destruct C1 as (N' & _). discriminate.
    + destruct C1 as (N' & _). discriminate.
    + destruct C1 as [(N' & _)|(N' & _)]; discriminate.
Qed.

(** X8.  The schema admits the kind [report_pdf], but [_run_job] has no
    branch for it: such a job is never completed, timed out or canceled.
    It is queued until its coroutine runs, and then failed with
    [JOB_FAILED] and the message [Unsupported job kind: report_pdf],
    started and finished in the same turn, with progress 5 and no result,
    and no unit of work was called for it. *)
Theorem report_pdf_never_supported (w : World) (id : string)
    (j : JobState) (t : Task) :
  reachable v w ->
  dict_get id (jobs w) = Some j ->
  dict_get id (tasks w) = Some t ->
  kind j = report_pdf ->
  (status j = queued \/
   (status j = failed /\ error j = Some (unsupported_kind report_pdf) /\
    progress j = 5 /\ result j = None /\ task_state t = Finished)) /\
  task_invocations t = 0%nat /\
  (status j = queued ->
   forall now now',
     exists w' j',
       step v w (Dispatch id now now') = Some w' /\
       dict_get id (jobs w') = Some j' /\
       status j' = failed /\
       error j' = Some (unsupported_kind report_pdf) /\
       started_at j' = Some now /\ finished_at j' = Some now').
Proof.
  intros Hr Hj Ht Hk.
  pose proof (reachable_calls w id j t Hr Hj Ht) as [C1 C2 C3].
  destruct (reachable_job v w id j Hr Hj) as (t0 & Ht0 & Hinv).
  assert (t0 = t) by congruence. subst t0.
  pose proof (inv_task _ _ Hinv) as T.
  pose proof (inv_kind _ _ Hinv) as K. rewrite Hk in K. symmetry in K.
  pose proof (validate_report_pdf (task_request t) K) as V.
  split; [exact (C3 Hk)|].
  split.
  { destruct (task_state t) as [|a|].
    - tauto.
    - destruct C1 as (_ & Va & _). congruence.
    - destruct C1 as [(_ & _ & a & Va)|(N & _)]; [congruence | exact N]. }
  intros Hq now now'.
  assert (Hs : task_state t = Spawned).
  { destruct (task_state t) as [|a|]; [reflexivity| |].
    - rewrite Hq in T. destruct T; discriminate.
    - rewrite Hq in T. discriminate. }
  simpl. rewrite Ht, Hs.
  rewrite (run_job_dispatch_at v id _ now now' _ j Hj).
  unfold dispatch_record, enter_record. rewrite Hq. simpl. rewrite V. simpl.
  eexists. eexists. split; [reflexivity|]. simpl.
  rewrite dict_get_set_same. split; [reflexivity|].
  unfold fail_record. simpl. auto.
Qed.

End Calls.

Section CallsWitnesses.

Import JobWorker.

Lemma unit_of_work_called_once_witness :
  reachable sample_validators (world_after sample_events) /\
  dict_get "tests" (jobs (world_after sample_events))
  = Some (job_of "tests" (world_after sample_events)) /\
  dict_get "tests" (tasks (world_after sample_events))
  = Some (task_of "tests" (world_after sample_events)) /\
  (task_invocations (task_of "tests" (world_after sample_events)) <= 1)%nat.
Proof.
  assert (R : reachable sample_validators (world_after sample_events))
    by (apply (sample_reachable sample_events); reflexivity).
  split; [exact R|]. split; [reflexivity|]. split; [reflexivity|].
  exact (proj1 (unit_of_work_called_once sample_validators
                  (world_after sample_events) "tests"
                  (job_of "tests" (world_after sample_events))
                  (task_of "tests" (world_after sample_events))
                  R eq_refl eq_refl)).
Defined.

Lemma report_pdf_never_supported_witness :
  reachable sample_validators (world_after pdf_events) /\
  dict_get "pdf" (jobs (world_after pdf_events))
  = Some (job_of "pdf" (world_after pdf_events)) /\
  dict_get "pdf" (tasks (world_after pdf_events))
  = Some (task_of "pdf" (world_after pdf_events)) /\
  kind (job_of "pdf" (world_after pdf_events)) = report_pdf /\
  task_invocations (task_of "pdf" (world_after pdf_events)) = 0%nat.
Proof.
  assert (R : reachable sample_validators (world_after pdf_events))
    by (apply (sample_reachable pdf_events); reflexivity).
  split; [exact R|]. split; [reflexivity|]. split; [reflexivity|].
  split; [reflexivity|].
  exact (proj1 (proj2 (report_pdf_never_supported sample_validators
                         (world_after pdf_events) "pdf"
                         (job_of "pdf" (world_after pdf_events))
                         (task_of "pdf" (world_after pdf_events))
                         R eq_refl eq_refl eq_refl))).
Defined.

End CallsWitnesses.
(* ================================================================== *)
(** * Canceling a test run that is under way *)
(* ================================================================== *)

Section CancelRunning.

Import JobWorker.

Variable v : Validators.

(** What [await] hands back to the coroutine of a test run is the dict of
    [run_flow_spec_tests]. *)
Lemma await_run_tests (request : CreateJobRequest) (awaited : Await)
    (answer : Answer) (p : value) :
  req_kind request = run_tests ->
  _run_job_await request awaited answer = Some (inl (Ok p)) ->
  exists payload env should_stop emitted,
    awaited = AwaitRunTests payload /\
    reply answer = TestsReply env should_stop /\
    TestRunner.run_flow_spec_tests env (rp_url payload) (rp_tests payload)
      (rp_batch_size payload) (Some (fun _ => Ok tt)) (Some should_stop)
    = Ok (p, emitted).
Proof.
  unfold _run_job_await. intros ->.
  destruct awaited as [sp|ep|payload]; try discriminate.
  destruct (reply answer) as [| | |env should_stop]; try discriminate.
  destruct (TestRunner.run_flow_spec_tests env (rp_url payload)
              (rp_tests payload) (rp_batch_size payload)
              (Some (fun _ => Ok tt)) (Some should_stop))
    as [[r emitted]|e] eqn:E; simpl; [|discriminate].
  intros [= <-]. exists payload, env, should_stop, emitted. auto.
Qed.

(** One event, as a canceled record and its coroutine see it. *)
Lemma job_step_canceled (ev : Event) (j j' : JobState) (t t' : Task) :
  job_inv j t ->
  status j = canceled ->
  job_step v ev j t = Some (j', t') ->
  status j' = canceled /\ phase j' = phase j /\ error j' = error j /\
  finished_at j' = finished_at j /\ started_at j' = started_at j /\
  progress j' = progress j /\
  task_request t' = task_request t /\
  task_invocations t' = task_invocations t /\
  ((t' = t /\ j' = j) \/
   (task_state t' = Finished /\
    (j' = j \/
     exists awaited answer p,
       task_state t = Awaiting awaited /\
       _run_job_await (task_request t) awaited answer = Some (inl (Ok p)) /\
       j' = set_result (Some (_to_json_safe p)) j))).
Proof.
  intros Hinv Hs Hstep.
  destruct j as [jid k s ph pr cr st fi re er].
  destruct t as [rq ts n].
  destruct Hinv as [Hk Ht Hc He Hr Hp Hd].
  simpl in *. subst s.
  destruct ev as [i request now|i now|i|ks ss limit|i now now'|i x|i l
                 |i answer now]; simpl in Hstep; try discriminate.
  - injection Hstep as <- <-. unfold cancel_record. simpl.
    destruct (negb (JobKind_eqb k run_tests)); simpl; auto 12.
  - injection Hstep as <- <-. auto 12.
  - injection Hstep as <- <-. auto 12.
  - destruct ts; try discriminate.
    unfold dispatch_record, enter_record in Hstep. simpl in Hstep.
    injection Hstep as <- <-. simpl. auto 12.
  - injection Hstep as <- <-. unfold progress_record. simpl. auto 12.
  - injection Hstep as <- <-. unfold phase_record. simpl. auto 12.
  - destruct ts as [|awaited|]; try discriminate.
    unfold resume_record in Hstep.
    destruct (_run_job_await rq awaited answer) as [[[p|e]|[]]|] eqn:Ha;
      try discriminate; injection Hstep as <- <-.
    + unfold store_record. simpl.
      destruct er as [e0|]; simpl.
      * repeat (split; [reflexivity|]). right. split; [reflexivity|].
        right. exists awaited, answer, p. auto.
      * exfalso. apply (proj2 He); unfold errored; auto.
    + unfold fail_record. simpl. auto 12.
    + unfold timeout_record. simpl. auto 12.
Qed.

(** X9.  Canceling a test run that is under way takes effect at once and
    for good: from the turn of [cancel_job] on, whatever happens, the
    record is [canceled] with the [CANCELED_BY_USER] error and the
    [finished_at] of the cancellation, and keeps the [started_at] and the
    progress it had.  It has no result while the test run is awaited; when
    the test run answers, the dict that [run_flow_spec_tests] returned is
    stored as the result, made JSON-safe, and when it raises nothing is
    stored.  The test run was started once. *)
Theorem cancel_while_running (w w' : World) (id : string) (j : JobState)
    (now : Z) (events : list Event) :
  reachable v w ->
  dict_get id (jobs w) = Some j ->
  kind j = run_tests ->
  status j = running ->
  run v w (Cancel id now :: events) = Some w' ->
  exists j' t',
    dict_get id (jobs w') = Some j' /\
    dict_get id (tasks w') = Some t' /\
    status j' = canceled /\ phase j' = Some "canceled" /\
    error j' = Some canceled_by_user /\
    finished_at j' = Some now /\
    started_at j' = started_at j /\ started_at j <> None /\
    progress j' = progress j /\
    task_invocations t' = 1%nat /\
    (((exists awaited, task_state t' = Awaiting awaited) /\
      result j' = None) \/
     (task_state t' = Finished /\
      (result j' = None \/
       exists payload env should_stop p emitted,
         TestRunner.run_flow_spec_tests env (rp_url payload)
           (rp_tests payload) (rp_batch_size payload)
           (Some (fun _ => Ok tt)) (Some should_stop)
         = Ok (p, emitted) /\
         result j' = Some (_to_json_safe p)))).
Proof.
  intros Hreach Hj Hkind Hrun_ Hrun.
  destruct (reachable_shape v w id j Hreach Hj) as (t & Ht & Hinv & Hshape).
  pose proof (reachable_calls v w id j t Hreach Hj Ht) as [C1 _ _].
  pose proof (inv_task _ _ Hinv) as Hts.
  pose proof (inv_kind _ _ Hinv) as Hk.
  destruct (task_state t) as [|awaited|] eqn:Ets.
  { rewrite Hrun_ in Hts. destruct Hts as ([X|X] & _); discriminate. }
  2:{ rewrite Hrun_ in Hts. discriminate. }
  destruct C1 as (Hn & _ & Hst & Hre).
  set (jc := set_error (Some canceled_by_user)
               (set_finished_at (Some now)
                  (set_phase (Some "canceled") (set_status canceled j)))).
  assert (Hjc : cancel_record now j = jc).
  { unfold cancel_record. rewrite Hkind, Hrun_. reflexivity. }
  set (Q := fun (j' : JobState) (t' : Task) =>
              job_inv j' t' /\
              status j' = canceled /\ phase j' = Some "canceled" /\
              error j' = Some canceled_by_user /\
              finished_at j' = Some now /\
              started_at j' = started_at j /\
              progress j' = progress j /\
              task_request t' = task_request t /\
              task_invocations t' = 1%nat /\
              ((task_state t' = Awaiting awaited /\ result j' = None) \/
               (task_state t' = Finished /\
                (result j' = None \/
                 exists answer p,
                   _run_job_await (task_request t) awaited answer
                   = Some (inl (Ok p)) /\
                   result j' = Some (_to_json_safe p))))).
  simpl in Hrun.
  set (w1 := {| jobs := fst (cancel_job id now (jobs w)); tasks := tasks w |})
    in Hrun.
  assert (Hj1 : dict_get id (jobs w1) = Some jc).
  { unfold w1. simpl. rewrite (cancel_job_at id _ j Hj).
    rewrite dict_get_set_same. now rewrite Hjc. }
  assert (HQ1 : Q jc t).
  { unfold Q. split.
    - rewrite <- Hjc.
      apply (job_step_inv v (Cancel id now) j (cancel_record now j) t t Hinv).
      reflexivity.
    - unfold jc. simpl. repeat (split; [reflexivity|]).
      split; [exact Hn|]. left. auto. }
  assert (Hkeep : forall ev j0 t0 j1 t1,
             Q j0 t0 -> job_step v ev j0 t0 = Some (j1, t1) -> Q j1 t1).
  { intros ev j0 t0 j1 t1 (I & S & P & E & F & St & Pr & Rq & N & D) Hs.
    destruct (job_step_canceled ev j0 j1 t0 t1 I S Hs)
      as (S' & P' & E' & F' & St' & Pr' & Rq' & N' & D').
    unfold Q. split; [eapply job_step_inv; eauto|].
    split; [exact S'|]. split; [congruence|]. split; [congruence|].
    split; [congruence|]. split; [congruence|]. split; [congruence|].
    split; [congruence|]. split; [congruence|].
    destruct D' as [(-> & ->)|(Fin & [->|(a & answer & p & Ea & Hp & ->)])].
    - exact D.
    - right. split; [exact Fin|].
      destruct D as [(_ & R)|(_ & R)]; [left; exact R | exact R].
    - right. split; [exact Fin|]. right.
      destruct D as [(Ea' & _)|(Ea' & _)]; [|congruence].
      assert (a = awaited) by congruence. subst a.
      exists answer, p. rewrite <- Rq. auto. }
  destruct (run_keeps v Q Hkeep events w1 w' id jc t Hj1 Ht HQ1 Hrun)
    as (j' & t' & Hj' & Ht' & (I & S & P & E & F & St & Pr & Rq & N & D)).
  exists j', t'. split; [exact Hj'|]. split; [exact Ht'|].
  split; [exact S|]. split; [exact P|]. split; [exact E|].
  split; [exact F|]. split; [exact St|]. split; [exact Hst|].
  split; [exact Pr|]. split; [exact N|].
  destruct D as [(A & R)|(Fin & [R|(answer & p & Hp & R)])].
  - left. eauto.
  - right. auto.
  - right. split; [exact Fin|]. right.
    assert (Krt : req_kind (task_request t) = run_tests) by congruence.
    destruct (await_run_tests (task_request t) awaited answer p Krt Hp)
      as (payload & env & stop & emitted & _ & _ & Hrunner).
    exists payload, env, stop, p, emitted. auto.
Qed.

End CancelRunning.

Section CancelRunningWitness.

Import JobWorker.

Lemma cancel_while_running_witness :
  reachable sample_validators
    (world_after (queued_events ++ [Dispatch "tests" 12 13])) /\
  kind (job_of "tests"
          (world_after (queued_events ++ [Dispatch "tests" 12 13])))
  = run_tests /\
  status (job_of "tests"
            (world_after (queued_events ++ [Dispatch "tests" 12 13])))
  = running /\
  run sample_validators
    (world_after (queued_events ++ [Dispatch "tests" 12 13]))
    [Cancel "tests" 17; Resume "tests" tests_answer 40]
  = Some (world_after
            (queued_events
             ++ [Dispatch "tests" 12 13; Cancel "tests" 17;
                 Resume "tests" tests_answer 40])) /\
  exists j',
    dict_get "tests"
      (jobs (world_after
               (queued_events
                ++ [Dispatch "tests" 12 13; Cancel "tests" 17;
                    Resume "tests" tests_answer 40]))) = Some j' /\
    status j' = canceled /\ finished_at j' = Some 17.
Proof.
  assert (R : reachable sample_validators
                (world_after (queued_events ++ [Dispatch "tests" 12 13])))
    by (apply (sample_reachable (queued_events ++ [Dispatch "tests" 12 13]));
        reflexivity).
  split; [exact R|]. split; [reflexivity|]. split; [reflexivity|].
  split; [reflexivity|].
  destruct (cancel_while_running sample_validators
              (world_after (queued_events ++ [Dispatch "tests" 12 13]))
              (world_after
                 (queued_events
                  ++ [Dispatch "tests" 12 13; Cancel "tests" 17;
                      Resume "tests" tests_answer 40]))
              "tests"
              (job_of "tests"
                 (world_after (queued_events ++ [Dispatch "tests" 12 13])))
              17 [Resume "tests" tests_answer 40]
              R eq_refl eq_refl eq_refl eq_refl)
    as (j' & t' & Hj' & _ & S & _ & _ & F & _).
  exists j'. auto.
Defined.

End CancelRunningWitness.
(* ================================================================== *)
(** * The registry and the routes *)
(* ================================================================== *)

Section RegistryKeys.

Import JobWorker.

Lemma dict_keys_set {V} (k : string) (x : V) (d : dict V) :
  dict_keys (dict_set k x d)
  = match dict_get k d with
    | Some _ => dict_keys d
    | None => (dict_keys d ++ [k])%list
    end.
Proof.
  unfold dict_keys.
  induction d as [|[k' x'] d IH]; simpl; [reflexivity|].
  destruct (String.eqb k k') eqn:E; simpl; [reflexivity|].
  rewrite IH. destruct (dict_get k d); reflexivity.
Qed.

Lemma dict_get_none_keys {V} (k : string) (d : dict V) :
  dict_get k d = None -> ~ In k (dict_keys d).
Proof.
  induction d as [|[k' x'] d IH]; simpl; [tauto|].
  destruct (String.eqb k k') eqn:E; [discriminate|].
  intros H [X|X].
  - subst k'. rewrite String.eqb_refl in E. discriminate.
  - now apply IH.
Qed.

Lemma dict_get_in {V} (k : string) (x : V) (d : dict V) :
  NoDup (dict_keys d) -> In (k, x) d -> dict_get k d = Some x.
Proof.
  induction d as [|[k' x'] d IH]; simpl; [tauto|].
  intros Hnd [H|H].
  - injection H as -> ->. now rewrite String.eqb_refl.
  - inversion Hnd as [|? ? Hnotin Hnd']; subst.
    destruct (String.eqb k k') eqn:E.
    + apply String.eqb_eq in E. subst k'. exfalso. apply Hnotin.
      unfold dict_keys. apply in_map_iff. exists (k, x). auto.
    + now apply IH.
Qed.

Lemma dict_get_some_in {V} (k : string) (x : V) (d : dict V) :
  dict_get k d = Some x -> In (k, x) d.
Proof.
  induction d as [|[k' x'] d IH]; simpl; [discriminate|].
  destruct (String.eqb k k') eqn:E.
  - apply String.eqb_eq in E. subst k'. intros [= ->]. auto.
  - auto.
Qed.

Lemma keyed_values (d : registry) :
  (forall k j, In (k, j) d -> job_id j = k) ->
  map job_id (dict_values d) = dict_keys d.
Proof.
  unfold dict_values, dict_keys.
  induction d as [|[k j] d IH]; simpl; intros K; [reflexivity|].
  rewrite (K k j) by auto. f_equal. apply IH. intros k' j' H. apply K. auto.
Qed.

Variable v : Validators.

(** What one turn does to the identifiers of the registry. *)
Lemma step_keys (w w' : World) (ev : Event) :
  world_inv w ->
  step v w ev = Some w' ->
  dict_keys (jobs w') = dict_keys (jobs w) \/
  exists id request now,
    ev = Create id request now /\
    dict_get id (jobs w) = None /\
    dict_keys (jobs w') = (dict_keys (jobs w) ++ [id])%list.
Proof.
  intros Hinv Hstep.
  destruct (target ev) as [id|] eqn:Et.
  - destruct (dict_get id (jobs w)) as [j|] eqn:Hj.
    + pose proof (Hinv id) as Hid. rewrite Hj in Hid.
      destruct (dict_get id (tasks w)) as [t|] eqn:Ht; [|contradiction].
      destruct (step_at v w w' ev id j t Hstep Et Hj Ht)
        as (j' & t' & _ & -> & _).
      left. rewrite dict_keys_set, Hj. reflexivity.
    + pose proof (Hinv id) as Hid. rewrite Hj in Hid.
      destruct (dict_get id (tasks w)) as [t|] eqn:Ht; [contradiction|].
      destruct ev as [i request now|i now|i|ks ss limit|i now now'|i x|i l
                     |i answer now]; simpl in Et; try discriminate;
        injection Et as ->; simpl in Hstep.
      * rewrite Hj in Hstep. injection Hstep as <-. simpl.
        right. exists id, request, now. rewrite dict_keys_set, Hj. auto.
      * injection Hstep as <-. simpl.
        rewrite (proj1 (absent_untouched id _ Hj)). auto.
      * injection Hstep as <-. simpl. auto.
      * rewrite Ht in Hstep. discriminate.
      * injection Hstep as <-. simpl.
        rewrite (proj1 (proj2 (absent_untouched id _ Hj))). auto.
      * injection Hstep as <-. simpl.
        destruct (absent_untouched id _ Hj) as (_ & _ & P & _).
        rewrite P. auto.
      * rewrite Ht in Hstep. discriminate.
  - destruct ev; simpl in Et; try discriminate.
    simpl in Hstep. injection Hstep as <-. simpl. auto.
Qed.

Lemma run_keys (events : list Event) (w w' : World) :
  reachable v w ->
  NoDup (dict_keys (jobs w)) ->
  run v w events = Some w' ->
  NoDup (dict_keys (jobs w')) /\
  exists created,
    dict_keys (jobs w') = (dict_keys (jobs w) ++ created)%list.
Proof.
  revert w. induction events as [|ev events IH]; simpl; intros w Hr Hnd Hrun.
  - injection Hrun as <-. split; [exact Hnd|]. exists [].
    now rewrite app_nil_r.
  - destruct (step v w ev) as [w1|] eqn:Hstep; [|discriminate].
    assert (Hr1 : reachable v w1) by (eapply reachable_step; eauto).
    destruct (step_keys w w1 ev (reachable_inv v w Hr) Hstep)
      as [E|(id & request & now & _ & Hnone & E)].
    + rewrite <- E. apply (IH w1 Hr1); [now rewrite E | exact Hrun].
    + assert (Hnd1 : NoDup (dict_keys (jobs w1))).
      { rewrite E. apply NoDup_app; auto.
        - constructor; [simpl; tauto | constructor].
        - intros k Hk [X|[]]. subst k.
          now apply (dict_get_none_keys id (jobs w)). }
      destruct (IH w1 Hr1 Hnd1 Hrun) as (Hnd' & created & E').
      split; [exact Hnd'|]. exists (id :: created).
      rewrite E', E, <- app_assoc. reflexivity.
Qed.

Lemma reachable_keys (w : World) :
  reachable v w -> NoDup (dict_keys (jobs w)).
Proof.
  intros Hr. pose proof Hr as [events Hrun].
  apply (run_keys events start w); auto.
  - exists []. reflexivity.
  - constructor.
Qed.

(** X10.  The registry is a dict in insertion order.  A run of the event
    loop adds the identifiers of the jobs it creates after the ones that
    are there, and neither removes, reorders nor repeats an identifier:
    the registry never forgets a job, and what [list_jobs] sorts is always
    in order of creation. *)
Theorem registry_grows_in_order (events : list Event) (w w' : World) :
  reachable v w ->
  run v w events = Some w' ->
  NoDup (dict_keys (jobs w')) /\
  (exists created,
      dict_keys (jobs w') = (dict_keys (jobs w) ++ created)%list) /\
  map job_id (dict_values (jobs w')) = dict_keys (jobs w').
Proof.
  intros Hr Hrun.
  destruct (run_keys events w w' Hr (reachable_keys w Hr) Hrun) as [A B].
  split; [exact A|]. split; [exact B|].
  assert (Hr' : reachable v w') by (eapply run_reachable; eauto).
  assert (K : forall k j, In (k, j) (jobs w') -> job_id j = k).
  { intros k j Hin.
    pose proof (dict_get_in k j (jobs w') A Hin) as Hget.
    destruct (reachable_shape v w' k j Hr' Hget) as (t & _ & _ & S).
    exact (shape_id _ _ _ S). }
  now apply keyed_values.
Qed.

End RegistryKeys.

Section ListingAndRoutes.

Import JobWorker.

Variable v : Validators.

Lemma list_jobs_sorted_window (kind_ status_ : option string) (limit : Z)
    (jobs : registry) :
  snd (list_jobs kind_ status_ limit jobs)
  = slice_to (sort_desc created_at
                (filter (wanted kind_ status_) (dict_values jobs))) limit.
Proof.
  unfold list_jobs, wanted, selects. simpl.
  destruct (given kind_), (given status_); simpl.
  - now rewrite filter_twice.
  - do 2 f_equal. apply filter_ext. intros job. now rewrite andb_true_r.
  - reflexivity.
  - now rewrite filter_all.
Qed.

Lemma in_firstn {A} (n : nat) (l : list A) (x : A) :
  In x (firstn n l) -> In x l.
Proof.
  intros H. rewrite <- (firstn_skipn n l). apply in_or_app. auto.
Qed.

Lemma nodup_map_firstn {A B} (f : A -> B) (n : nat) (l : list A) :
  NoDup (map f l) -> NoDup (map f (firstn n l)).
Proof.
  intros H. rewrite <- (firstn_skipn n l), map_app in H.
  now apply NoDup_app_remove_r in H.
Qed.

Lemma nodup_map_filter {A B} (f : A -> B) (g : A -> bool) (l : list A) :
  NoDup (map f l) -> NoDup (map f (filter g l)).
Proof.
  induction l as [|x l IH]; simpl; intros H; [constructor|].
  inversion H as [|? ? Hnotin Hnd]; subst.
  destruct (g x); simpl; [|auto].
  constructor; [|auto].
  intros Hin. apply Hnotin. apply in_map_iff in Hin.
  destruct Hin as (y & Hy & Hin). apply filter_In in Hin.
  apply in_map_iff. exists y. tauto.
Qed.

(** X11.  What [list_jobs] returns in a reachable world agrees with the
    registry: no job is listed twice, every listed record passes both
    filters and is the record [get_job_status] returns for its [job_id],
    and when [limit] is at least the number of stored jobs every stored
    record that passes the filters is listed. *)
Theorem listing_consistent (w : World) (kind_ status_ : option string)
    (limit : Z) :
  reachable v w ->
  NoDup (map job_id (snd (list_jobs kind_ status_ limit (jobs w)))) /\
  (forall job,
      In job (snd (list_jobs kind_ status_ limit (jobs w))) ->
      wanted kind_ status_ job = true /\
      Routes.get_job_status (job_id job) (jobs w)
      = (jobs w, Api.Body job)) /\
  (Z.of_nat (List.length (jobs w)) <= limit ->
   forall id job,
     dict_get id (jobs w) = Some job ->
     wanted kind_ status_ job = true ->
     In job (snd (list_jobs kind_ status_ limit (jobs w)))).
Proof.
  intros Hr.
  pose proof (reachable_keys v w Hr) as Hnd.
  assert (K : forall k j, In (k, j) (jobs w) -> job_id j = k).
  { intros k j Hin.
    pose proof (dict_get_in k j (jobs w) Hnd Hin) as Hget.
    destruct (reachable_shape v w k j Hr Hget) as (t & _ & _ & S).
    exact (shape_id _ _ _ S). }
  pose proof (keyed_values (jobs w) K) as Hvals.
  rewrite list_jobs_sorted_window.
  set (chosen := filter (wanted kind_ status_) (dict_values (jobs w))).
  pose proof (sort_desc_perm created_at chosen) as Hperm.
  split; [|split].
  - unfold slice_to. apply nodup_map_firstn.
    apply (Permutation_NoDup (l := map job_id chosen)).
    + apply Permutation_map. now symmetry.
    + unfold chosen. apply nodup_map_filter. rewrite Hvals. exact Hnd.
  - intros job Hin. unfold slice_to in Hin. apply in_firstn in Hin.
    apply (Permutation_in _ Hperm) in Hin. unfold chosen in Hin.
    apply filter_In in Hin. destruct Hin as [Hin Hw].
    split; [exact Hw|].
    unfold dict_values in Hin. apply in_map_iff in Hin.
    destruct Hin as ([k j] & E & Hin). simpl in E. subst j.
    rewrite (K k job Hin).
    unfold Routes.get_job_status, get_job.
    now rewrite (dict_get_in k job (jobs w) Hnd Hin).
  - intros Hlimit id job Hget Hw.
    assert (Hlen : (List.length (sort_desc created_at chosen)
                    <= List.length (jobs w))%nat).
    { rewrite (Permutation_length Hperm). unfold chosen, dict_values.
      etransitivity; [apply filter_length_le|]. now rewrite length_map. }
    rewrite slice_to_first by lia.
    rewrite firstn_all2 by lia.
    apply (Permutation_in _ (Permutation_sym Hperm)).
    unfold chosen. apply filter_In. split; [|exact Hw].
    unfold dict_values. apply in_map_iff. exists (id, job).
    split; [reflexivity|]. now apply dict_get_some_in.
Qed.

(** X12.  A job that was submitted can be fetched from then on.
    [post_job] answers with the identifier drawn for the job and the
    status [queued]; after any further run of the event loop,
    [get_job_status] returns for that identifier a record that carries
    it, with the kind of the request and the [created_at] of the
    submission.  An identifier that is not in the registry is answered
    404. *)
Theorem submitted_job_is_fetched (w w' : World) (new_id : string)
    (request : CreateJobRequest) (now : Z) (events : list Event) :
  reachable v w ->
  run v w (Create new_id request now :: events) = Some w' ->
  Routes.resp_job_id (snd (Routes.post_job new_id request now (jobs w))) = new_id /\
  Routes.resp_status (snd (Routes.post_job new_id request now (jobs w))) = queued /\
  Routes.get_job_status new_id (jobs w)
  = (jobs w, Api.HTTPException 404 "NOT_FOUND" "Job not found") /\
  exists job,
    Routes.get_job_status new_id (jobs w') = (jobs w', Api.Body job) /\
    job_id job = new_id /\ kind job = req_kind request /\
    created_at job = now.
Proof.
  intros Hr Hrun. simpl in Hrun.
  destruct (dict_get new_id (jobs w)) as [j0|] eqn:Hnone; [discriminate|].
  split; [reflexivity|]. split; [reflexivity|].
  split.
  { unfold Routes.get_job_status, get_job. now rewrite Hnone. }
  set (w1 := set_task new_id
               {| task_request := request; task_state := Spawned;
                  task_invocations := 0 |} w
               (fst (create_job new_id request now (jobs w)))) in Hrun.
  assert (Hstep : step v w (Create new_id request now) = Some w1).
  { simpl. now rewrite Hnone. }
  assert (Hr1 : reachable v w1) by (eapply reachable_step; eauto).
  assert (Hj1 : dict_get new_id (jobs w1)
                = Some (snd (create_job new_id request now (jobs w)))).
  { unfold w1. simpl. now rewrite dict_get_set_same. }
  destruct (run_later v events w1 w' new_id _ Hr1 Hrun Hj1)
    as (j' & Hj' & [L1 L2 L3 _ _ _ _ _]).
  exists j'. unfold Routes.get_job_status, get_job. rewrite Hj'.
  simpl in *. auto.
Qed.

End ListingAndRoutes.

Section CancelTwice.

Import JobWorker.

(** X13.  Canceling is idempotent.  A second [post_cancel_job] for the
    same identifier, at whatever later time, gives the answer the first one
    gave and leaves the registry as the first one left it: the canceled
    record with the [finished_at] of the first call, the 400 for a job of
    another kind, the 404 for an unknown identifier.  The records under
    other identifiers are not touched. *)
Theorem post_cancel_job_idempotent (id : string) (now now' : Z)
    (jobs : registry) :
  Api.post_cancel_job id now' (fst (Api.post_cancel_job id now jobs))
  = Api.post_cancel_job id now jobs /\
  dict_keys (fst (Api.post_cancel_job id now jobs)) = dict_keys jobs /\
  forall other,
    other <> id ->
    dict_get other (fst (Api.post_cancel_job id now jobs))
    = dict_get other jobs.
Proof.
  unfold Api.post_cancel_job, cancel_job.
  destruct (dict_get id jobs) as [current|] eqn:Hget; simpl.
  - destruct (negb (JobKind_eqb (kind current) run_tests)) eqn:Ek; simpl.
    + rewrite Hget, Ek. simpl. auto.
    + destruct (is_terminal (status current)) eqn:Et; simpl.
      * rewrite Hget, Ek, Et. simpl. auto.
      * rewrite dict_get_set_same. simpl. rewrite Ek. simpl.
        split; [reflexivity|]. split.
        -- rewrite dict_keys_set, Hget. reflexivity.
        -- intros other Hother. apply dict_get_set_other. congruence.
  - rewrite Hget. simpl. auto.
Qed.

End CancelTwice.

Section RegistryWitnesses.

Import JobWorker.

Lemma registry_grows_in_order_witness :
  reachable sample_validators (world_after queued_events) /\
  run sample_validators (world_after queued_events)
    [Create "scan" bad_scan_request 11; Dispatch "tests" 12 13]
  = Some (world_after
            (queued_events
             ++ [Create "scan" bad_scan_request 11;
                 Dispatch "tests" 12 13])) /\
  map job_id
    (dict_values
       (jobs (world_after
                (queued_events
                 ++ [Create "scan" bad_scan_request 11;
                     Dispatch "tests" 12 13]))))
  = ["tests"; "scan"].
Proof.
  assert (R : reachable sample_validators (world_after queued_events))
    by (apply (sample_reachable queued_events); reflexivity).
  split; [exact R|]. split; [reflexivity|].
  rewrite (proj2 (proj2 (registry_grows_in_order sample_validators
                           [Create "scan" bad_scan_request 11;
                            Dispatch "tests" 12 13]
                           (world_after queued_events)
                           (world_after
                              (queued_events
                               ++ [Create "scan" bad_scan_request 11;
                                   Dispatch "tests" 12 13]))
                           R eq_refl))).
  reflexivity.
Defined.

Lemma listing_consistent_witness :
  reachable sample_validators (world_after sample_events) /\
  NoDup (map job_id
           (snd (list_jobs (Some "run_tests") None 50
                   (jobs (world_after sample_events))))).
Proof.
  assert (R : reachable sample_validators (world_after sample_events))
    by (apply (sample_reachable sample_events); reflexivity).
  split; [exact R|].
  exact (proj1 (listing_consistent sample_validators
                  (world_after sample_events) (Some "run_tests") None 50 R)).
Defined.

Lemma submitted_job_is_fetched_witness :
  reachable sample_validators (world_after queued_events) /\
  run sample_validators (world_after queued_events)
    [Create "scan" bad_scan_request 11; Dispatch "scan" 12 13]
  = Some (world_after
            (queued_events
             ++ [Create "scan" bad_scan_request 11;
                 Dispatch "scan" 12 13])) /\
  exists job,
    Routes.get_job_status "scan"
      (jobs (world_after
               (queued_events
                ++ [Create "scan" bad_scan_request 11;
                    Dispatch "scan" 12 13])))
    = (jobs (world_after
               (queued_events
                ++ [Create "scan" bad_scan_request 11;
                    Dispatch "scan" 12 13])),
       Api.Body job) /\
    job_id job = "scan" /\ created_at job = 11.
Proof.
  assert (R : reachable sample_validators (world_after queued_events))
    by (apply (sample_reachable queued_events); reflexivity).
  split; [exact R|]. split; [reflexivity|].
  destruct (submitted_job_is_fetched sample_validators
              (world_after queued_events)
              (world_after
                 (queued_events
                  ++ [Create "scan" bad_scan_request 11;
                      Dispatch "scan" 12 13]))
              "scan" bad_scan_request 11 [Dispatch "scan" 12 13]
              R eq_refl)
    as (_ & _ & _ & job & Hget & Hid & _ & Hcreated).
  exists job. auto.
Defined.

End RegistryWitnesses.
(* ================================================================== *)
(** * The checks of a test run *)
(* ================================================================== *)

Section RunEntries.

Import TestRunner.

Variables (env : Env) (on_progress : option (Z -> res unit))
          (should_stop : option (nat -> bool)).

Lemma gather_app {A} (l1 l2 : list (res A)) (r1 r2 : list A) :
  gather l1 = Ok r1 -> gather l2 = Ok r2 ->
  gather (l1 ++ l2) = Ok (r1 ++ r2)%list.
Proof.
  revert r1. induction l1 as [|c l1 IH]; simpl; intros r1 H1 H2.
  - injection H1 as <-. exact H2.
  - destruct c as [a|e]; [|discriminate].
    destruct (gather l1) as [l0|e]; [|discriminate].
    injection H1 as <-. now rewrite (IH l0 eq_refl H2).
Qed.

Lemma firstn_plus {A} (c m : nat) (l : list A) :
  firstn (c + m) l = (firstn c l ++ firstn m (skipn c l))%list.
Proof.
  revert l. induction c as [|c IH]; simpl; intros l; [reflexivity|].
  destruct l as [|x l]; simpl.
  - now rewrite firstn_nil.
  - now rewrite IH.
Qed.

Lemma batch_calls_firstn (c : nat) (l : list FlowSpecTest) :
  forall i, firstn c (batch_calls env i l) = batch_calls env i (firstn c l).
Proof.
  revert c. induction l as [|t l IH]; intros [|c] i; simpl; auto.
  now rewrite IH.
Qed.

Lemma batch_calls_skipn (c : nat) (l : list FlowSpecTest) :
  forall i,
    skipn c (batch_calls env i l) = batch_calls env (i + c) (skipn c l).
Proof.
  revert c. induction l as [|t l IH]; intros [|c] i; simpl; auto.
  - now rewrite Nat.add_0_r.
  - rewrite IH. f_equal. lia.
Qed.

Lemma http_calls_firstn_S (i : nat) (test : FlowSpecTest)
    (rest : list FlowSpecTest) (m : nat) :
  firstn (S m) (http_calls env i (test :: rest))
  = _run_test_with_http env i test :: firstn m (http_calls env (S i) rest).
Proof. reflexivity. Qed.

Lemma report_emits (done total : Z) (st st' : Loop) :
  report on_progress done total st = Ok st' ->
  l_results st' = l_results st /\ l_canceled st' = l_canceled st /\
  exists vals,
    l_emitted st' = (l_emitted st ++ vals)%list /\
    Forall (fun x => x <= 95) vals /\
    (on_progress = None -> vals = []) /\
    (on_progress <> None -> List.length vals = 1%nat).
Proof.
  unfold report. destruct on_progress as [tell|].
  - intros H. apply bind_ok in H. destruct H as (x & _ & H).
    apply bind_ok in H. destruct H as (u & _ & H).
    injection H as <-. simpl. split; [reflexivity|]. split; [reflexivity|].
    exists [Z.min 95 x]. split; [reflexivity|].
    split; [constructor; [lia | constructor]|].
    split; [discriminate | reflexivity].
  - intros H. injection H as <-. split; [reflexivity|].
    split; [reflexivity|]. exists []. rewrite app_nil_r.
    split; [reflexivity|]. split; [constructor|].
    split; [reflexivity | congruence].
Qed.

Lemma poll_emits (st : Loop) :
  l_results (snd (poll should_stop st)) = l_results st /\
  l_canceled (snd (poll should_stop st)) = l_canceled st /\
  l_emitted (snd (poll should_stop st)) = l_emitted st /\
  (fst (poll should_stop st) = true -> should_stop <> None).
Proof.
  unfold poll. destruct should_stop; simpl; repeat split; congruence.
Qed.

Lemma http_loop_grows (total : Z) (todo : list FlowSpecTest) :
  forall (index : nat) (st st' : Loop),
    http_loop env on_progress should_stop total index todo st = Ok st' ->
    l_canceled st = false ->
    (exists more vals,
        grown_by on_progress should_stop (http_calls env index todo)
          (List.length todo) st st' more vals) /\
    (on_progress <> None ->
     List.length (l_emitted st') + List.length (l_results st)
     = List.length (l_emitted st) + List.length (l_results st'))%nat.
Proof.
  induction todo as [|test rest IH]; simpl; intros index st st' H Hc.
  - injection H as <-. split; [|lia].
    exists [], []. constructor; simpl;
      try rewrite app_nil_r; auto; congruence.
  - destruct (poll_emits st) as (Pr & Pc & Pe & Ps).
    destruct (poll should_stop st) as [stop st1]. simpl in Pr, Pc, Pe, Ps.
    destruct stop.
    + injection H as <-. split; [|simpl; rewrite Pr, Pe; lia].
      exists [], []. constructor; simpl;
        try rewrite app_nil_r; auto; try congruence; try lia.
    + apply bind_ok in H. destruct H as (entry & He & H).
      apply bind_ok in H. destruct H as (st2 & Hrep & H).
      apply report_emits in Hrep.
      destruct Hrep as (Rr & Rc & vals & Re & Rcap & Rnone & Rsome).
      simpl in Rr, Rc, Re.
      destruct (IH _ _ _ H ltac:(congruence))
        as [(more & vals2 & [G1 G2 G3 G4 G5 G6 G7 G8 G9]) Hcount].
      split.
      * exists (entry :: more), (vals ++ vals2)%list. constructor; simpl.
        -- rewrite G1, Rr, Pr, <- app_assoc. reflexivity.
        -- rewrite He, G2. reflexivity.
        -- lia.
        -- intros E. rewrite (G4 E). reflexivity.
        -- exact G5.
        -- rewrite G6, Re, Pe, <- app_assoc. reflexivity.
        -- apply Forall_app. auto.
        -- intros E. rewrite (Rnone E), (G8 E). reflexivity.
        -- rewrite length_app.
           destruct on_progress as [tell|].
           ++ rewrite Rsome by discriminate. lia.
           ++ rewrite (Rnone eq_refl). simpl. lia.
      * intros Hp. specialize (Hcount Hp). specialize (Rsome Hp).
        rewrite Re, Rr, Pr, Pe, !length_app in Hcount. simpl in Hcount.
        lia.
Qed.

Lemma slice_batch (tests : list FlowSpecTest) (o : nat) (batch_size : Z) :
  0 < batch_size ->
  (o < List.length tests)%nat ->
  slice tests (Z.of_nat o) (Z.of_nat o + batch_size)
  = firstn (Z.to_nat (Z.min (Z.of_nat (List.length tests))
                        (Z.of_nat o + batch_size)) - o)
      (skipn o tests).
Proof.
  intros Hbs Ho. unfold slice, slice_index.
  destruct (Z.of_nat o <? 0) eqn:E1; [apply Z.ltb_lt in E1; lia|].
  destruct (Z.of_nat o + batch_size <? 0) eqn:E2;
    [apply Z.ltb_lt in E2; lia|].
  replace (Z.to_nat (Z.min (Z.of_nat (List.length tests))
                       (Z.max 0 (Z.of_nat o)))) with o by lia.
  replace (Z.max 0 (Z.of_nat o + batch_size))
    with (Z.of_nat o + batch_size) by lia.
  reflexivity.
Qed.

(** The loop over batches, from the batch number [a] on. *)
Lemma batch_loop_grows (tests : list FlowSpecTest) (batch_size : Z)
    (n : nat) :
  0 < batch_size ->
  forall (a : nat) (st st' : Loop),
    (forall k, (a <= k < a + n)%nat ->
               Z.of_nat k * batch_size < Z.of_nat (List.length tests)) ->
    Z.of_nat (List.length tests) <= Z.of_nat (a + n) * batch_size ->
    Z.of_nat (List.length (l_results st))
    = Z.min (Z.of_nat (List.length tests)) (Z.of_nat a * batch_size) ->
    l_canceled st = false ->
    batch_loop env on_progress should_stop tests batch_size
      (map (fun k => Z.of_nat k * batch_size) (seq a n)) st = Ok st' ->
    (exists more vals,
        grown_by on_progress should_stop
          (batch_calls env (List.length (l_results st))
             (skipn (List.length (l_results st)) tests))
          (List.length tests - List.length (l_results st)) st st'
          more vals) /\
    (l_canceled st' = true ->
     exists k, Z.of_nat (List.length (l_results st'))
               = Z.of_nat k * batch_size).
Proof.
  intros Hbs. induction n as [|n IH]; simpl;
    intros a st st' Hlt Hcover Hlen Hc H.
  - injection H as <-. split; [|intros E; congruence].
    exists [], []. rewrite Nat.add_0_r in Hcover.
    constructor; simpl;
      try rewrite app_nil_r; auto; try congruence; try lia.
  - destruct (poll_emits st) as (Pr & Pc & Pe & Ps).
    destruct (poll should_stop st) as [stop st1]. simpl in Pr, Pc, Pe, Ps.
    pose proof (Hlt a ltac:(lia)) as Ha.
    destruct stop.
    + injection H as <-. split.
      * exists [], []. constructor; simpl;
          try rewrite app_nil_r; auto; try congruence; try lia.
      * intros _. exists a. simpl. rewrite Pr. lia.
    + set (o := List.length (l_results st)) in *.
      assert (Ho : Z.of_nat o = Z.of_nat a * batch_size) by lia.
      rewrite <- Ho in H.
      rewrite slice_batch in H by lia. rewrite Nat2Z.id in H.
      set (c := (Z.to_nat (Z.min (Z.of_nat (List.length tests))
                             (Z.of_nat o + batch_size)) - o)%nat) in *.
      apply bind_ok in H. destruct H as (batch_results & Hg & H).
      apply bind_ok in H. destruct H as (st2 & Hrep & H).
      apply report_emits in Hrep.
      destruct Hrep as (Rr & Rc & vals & Re & Rcap & Rnone & Rsome).
      simpl in Rr, Rc, Re.
      pose proof (gather_length _ _ Hg) as Hgl.
      rewrite batch_calls_length, length_firstn, length_skipn in Hgl.
      assert (Hc' : List.length batch_results = c) by (unfold c in *; lia).
      assert (Hlen2 : List.length (l_results st2) = (o + c)%nat).
      { rewrite Rr, length_app, Pr. fold o. lia. }
      destruct (IH (S a) st2 st') as [(more & vals2 & G) Hk].
      * intros k Hk. apply Hlt. lia.
      * replace (S a + n)%nat with (a + S n)%nat by lia. exact Hcover.
      * rewrite Hlen2. unfold c. lia.
      * congruence.
      * exact H.
      * destruct G as [G1 G2 G3 G4 G5 G6 G7 G8 G9].
        rewrite Hlen2 in G2, G3, G4.
        split; [|exact Hk].
        exists (batch_results ++ more)%list, (vals ++ vals2)%list.
        constructor; simpl.
        -- rewrite G1, Rr, Pr, <- app_assoc. reflexivity.
        -- rewrite length_app, Hc', firstn_plus.
           apply gather_app.
           ++ rewrite batch_calls_firstn. exact Hg.
           ++ rewrite batch_calls_skipn, skipn_skipn.
              replace (c + o)%nat with (o + c)%nat by lia. exact G2.
        -- rewrite length_app. unfold c in *. lia.
        -- intros E. rewrite length_app, (G4 E). unfold c in *. lia.
        -- exact G5.
        -- rewrite G6, Re, Pe, <- app_assoc. reflexivity.
        -- apply Forall_app. auto.
        -- intros E. rewrite (Rnone E), (G8 E). reflexivity.
        -- rewrite !length_app.
           assert (List.length vals <= 1)%nat.
           { destruct on_progress as [tell|].
             - rewrite Rsome by discriminate. lia.
             - rewrite (Rnone eq_refl). simpl. lia. }
           assert (0 < c)%nat by (unfold c; lia).
           lia.
Qed.

Lemma range0_covers (stop step : Z) (offsets : list Z) :
  range0 stop step = Ok offsets ->
  0 < step ->
  exists n,
    offsets = map (fun k => Z.of_nat k * step) (seq 0 n) /\
    (forall k, (k < n)%nat -> Z.of_nat k * step < stop) /\
    stop <= Z.of_nat n * step.
Proof.
  unfold range0. intros H Hs.
  destruct (step =? 0) eqn:E0; [discriminate|].
  destruct ((step <? 0) || (stop <=? 0)) eqn:E1; injection H as <-.
  - exists 0%nat. split; [reflexivity|]. split; [intros k Hk; lia|].
    apply orb_true_iff in E1. destruct E1 as [E1|E1].
    + apply Z.ltb_lt in E1. lia.
    + apply Z.leb_le in E1. lia.
  - apply orb_false_iff in E1. destruct E1 as [E1 E2].
    apply Z.ltb_ge in E1. apply Z.leb_gt in E2.
    eexists. split; [reflexivity|].
    assert (Hm : step * ((stop + step - 1) / step) <= stop + step - 1)
      by (apply Z.mul_div_le; lia).
    assert (Hd : stop + step - 1
                 < step * ((stop + step - 1) / step) + step).
    { pose proof (Z.mod_pos_bound (stop + step - 1) step Hs).
      pose proof (Z.div_mod (stop + step - 1) step ltac:(lia)). lia. }
    assert (Hq : 0 <= (stop + step - 1) / step)
      by (apply Z.div_pos; lia).
    split.
    + intros k Hk.
      assert (Z.of_nat k + 1 <= (stop + step - 1) / step) by lia. nia.
    + rewrite Z2Nat.id by lia. nia.
Qed.

End RunEntries.

Section RunEntriesTop.

Import TestRunner.

Lemma calls_entries (env : Env) (tests : list FlowSpecTest) :
  forall (n i : nat) (entries : list value),
    (gather (firstn n (batch_calls env i tests)) = Ok entries \/
     gather (firstn n (http_calls env i tests)) = Ok entries) ->
    Forall2 (fun test entry => exists p, entry = test_entry test p)
      (firstn n tests) entries.
Proof.
  induction tests as [|test rest IH]; intros [|n] i entries; simpl.
  - intros [H|H]; injection H as <-; constructor.
  - intros [H|H]; injection H as <-; constructor.
  - intros [H|H]; injection H as <-; constructor.
  - unfold _run_test_with_playwright, _run_test_with_http.
    intros [H|H].
    + destruct (probe_playwright env i test) as [p|e]; [|discriminate].
      simpl in H.
      destruct (gather (firstn n (batch_calls env (S i) rest)))
        as [l|e] eqn:E; [|discriminate].
      injection H as <-. constructor; [eauto|].
      apply (IH n (S i)). auto.
    + destruct (probe_http env i test) as [p|e]; [|discriminate].
      simpl in H.
      destruct (gather (firstn n (http_calls env (S i) rest)))
        as [l|e] eqn:E; [|discriminate].
      injection H as <-. constructor; [eauto|].
      apply (IH n (S i)). auto.
Qed.

Lemma test_entry_json_safe (test : FlowSpecTest) (p : Probe) :
  json_safe (test_entry test p) = true.
Proof. unfold test_entry. destruct (probe_verdict p); reflexivity. Qed.

Lemma test_entry_id (test : FlowSpecTest) (p : Probe) :
  subscript (test_entry test p) "id" = Ok (VStr (t_id test)).
Proof. unfold test_entry. destruct (probe_verdict p); reflexivity. Qed.

Lemma entries_ids (ts : list FlowSpecTest) (es : list value) :
  Forall2 (fun test entry => exists p, entry = test_entry test p) ts es ->
  entry_ids es = map (fun test => Ok (VStr (t_id test))) ts.
Proof.
  unfold entry_ids. induction 1 as [|test entry ts es [p ->] _ IH]; simpl.
  - reflexivity.
  - rewrite test_entry_id, IH. reflexivity.
Qed.

Lemma entries_json_safe (ts : list FlowSpecTest) (es : list value) :
  Forall2 (fun test entry => exists p, entry = test_entry test p) ts es ->
  forallb json_safe es = true.
Proof.
  induction 1 as [|test entry ts es [p ->] _ IH]; simpl; [reflexivity|].
  now rewrite test_entry_json_safe.
Qed.

(** The loop of [run_flow_spec_tests], whichever it is. *)
Lemma run_loop_grows (env : Env) (on_progress : option (Z -> res unit))
    (should_stop : option (nat -> bool)) (tests : list FlowSpecTest)
    (batch_size : Z) (st : Loop) :
  (if playwright_available env then
     _ <- launch env ;;
     finally_close env
       (offsets <- range0 (Z.of_nat (List.length tests)) batch_size ;;
        batch_loop env on_progress should_stop tests batch_size
          offsets loop_start)
   else
     http_loop env on_progress should_stop (Z.of_nat (List.length tests))
       0 tests loop_start) = Ok st ->
  gather (firstn (List.length (l_results st)) (checks env tests))
  = Ok (l_results st) /\
  (List.length (l_results st) <= List.length tests)%nat /\
  (l_canceled st = true -> should_stop <> None) /\
  (l_canceled st = false ->
   playwright_available env = false \/ 0 < batch_size ->
   List.length (l_results st) = List.length tests) /\
  (l_canceled st = true -> playwright_available env = true ->
   exists k, Z.of_nat (List.length (l_results st))
             = Z.of_nat k * batch_size) /\
  (playwright_available env = true -> batch_size < 0 ->
   l_results st = [] /\ l_canceled st = false) /\
  Forall (fun x => x <= 95) (l_emitted st) /\
  (List.length (l_emitted st) <= List.length (l_results st))%nat /\
  (on_progress = None -> l_emitted st = []) /\
  (on_progress <> None -> playwright_available env = false ->
   List.length (l_emitted st) = List.length (l_results st)).
Proof.
  unfold checks. destruct (playwright_available env) eqn:Epw; intros H.
  - apply bind_ok in H. destruct H as (u & _ & H).
    unfold finally_close in H. destruct (close env); [|discriminate].
    apply bind_ok in H. destruct H as (offsets & Hr & H).
    destruct (Z_lt_le_dec 0 batch_size) as [Hbs|Hbs].
    + destruct (range0_covers _ _ _ Hr Hbs) as (n & -> & Hlt & Hcover).
      destruct (batch_loop_grows env on_progress should_stop tests
                  batch_size n Hbs 0 loop_start st) as [(more & vals & G) K];
        auto.
      * intros k Hk. apply Hlt. lia.
      * simpl. lia.
      * destruct G as [G1 G2 G3 G4 G5 G6 G7 G8 G9]. simpl in *.
        rewrite Nat.sub_0_r in G3, G4.
        rewrite G1, G6.
        split; [exact G2|]. split; [exact G3|]. split; [exact G5|].
        split; [intros E _; exact (G4 E)|].
        split; [intros E _; rewrite <- G1; exact (K E)|].
        split; [intros _ X; lia|].
        split; [exact G7|]. split; [exact G9|].
        split; [exact G8|]. intros _ X. discriminate.
    + assert (Hoff : offsets = []).
      { unfold range0 in Hr.
        destruct (batch_size =? 0) eqn:E0; [discriminate|].
        apply Z.eqb_neq in E0.
        assert (E1 : (batch_size <? 0) = true) by (apply Z.ltb_lt; lia).
        rewrite E1 in Hr. simpl in Hr. now injection Hr as <-. }
      subst offsets. simpl in H. injection H as <-. simpl.
      split; [reflexivity|]. split; [lia|]. split; [discriminate|].
      split; [intros _ [X|X]; [discriminate | lia]|].
      split; [discriminate|]. split; [auto|].
      split; [constructor|]. split; [lia|]. split; [auto|].
      intros _ X. discriminate.
  - destruct (http_loop_grows env on_progress should_stop _ tests 0
                loop_start st H eq_refl)
      as [(more & vals & [G1 G2 G3 G4 G5 G6 G7 G8 G9]) Hcount].
    simpl in *. rewrite G1, G6 in *.
    split; [exact G2|]. split; [exact G3|]. split; [exact G5|].
    split; [intros E _; exact (G4 E)|].
    split; [intros _ X; discriminate|].
    split; [intros X; discriminate|].
    split; [exact G7|]. split; [exact G9|].
    split; [exact G8|]. intros X _. specialize (Hcount X). simpl in Hcount.
    lia.
Qed.

(** The dict, and whose entries it lists. *)
Lemma run_flow_spec_tests_entries_aux (env : Env) (url : string)
    (tests : list FlowSpecTest) (batch_size : Z)
    (on_progress : option (Z -> res unit))
    (should_stop : option (nat -> bool)) (r : value) (emitted : list Z) :
  run_flow_spec_tests env url tests batch_size on_progress should_stop
  = Ok (r, emitted) ->
  exists entries canceled_ passed,
    r = summary url (Z.of_nat (List.length entries)) passed
          (Z.of_nat (List.length entries) - passed) (run_duration_ms env)
          batch_size canceled_ entries /\
    Forall2 (fun test entry => exists p, entry = test_entry test p)
      (firstn (List.length entries) tests) entries.
Proof.
  unfold run_flow_spec_tests. intros H.
  apply bind_ok in H. destruct H as (st & Hloop & H).
  apply bind_ok in H. destruct H as (passed & Hp & H).
  injection H as <- <-.
  destruct (run_loop_grows env on_progress should_stop tests batch_size st
              Hloop) as (G & _).
  exists (l_results st), (l_canceled st), passed.
  split; [reflexivity|].
  apply (calls_entries env tests _ 0%nat). unfold checks in G.
  destruct (playwright_available env); auto.
Qed.

(** X14.  The entries of a test run are those of the first tests of the
    input, one each and in the order of the input, whatever the batch
    size: every entry carries the [id] of its test.  A run that was not
    told to stop has an entry for every test (with Playwright, for a
    positive batch size); a run is flagged [canceled] only when
    [should_stop] was given, and with Playwright it then stops between two
    batches, on a multiple of the batch size.  With a negative batch size
    Playwright runs no test at all and the run is not flagged. *)
Theorem run_flow_spec_tests_entries (env : Env) (url : string)
    (tests : list FlowSpecTest) (batch_size : Z)
    (on_progress : option (Z -> res unit))
    (should_stop : option (nat -> bool)) (r : value) (emitted : list Z) :
  run_flow_spec_tests env url tests batch_size on_progress should_stop
  = Ok (r, emitted) ->
  exists entries canceled_ passed,
    r = summary url (Z.of_nat (List.length entries)) passed
          (Z.of_nat (List.length entries) - passed) (run_duration_ms env)
          batch_size canceled_ entries /\
    gather (firstn (List.length entries) (checks env tests)) = Ok entries /\
    entry_ids entries
    = map (fun test => Ok (VStr (t_id test)))
        (firstn (List.length entries) tests) /\
    (List.length entries <= List.length tests)%nat /\
    (canceled_ = true -> should_stop <> None) /\
    (canceled_ = false ->
     playwright_available env = false \/ 0 < batch_size ->
     List.length entries = List.length tests) /\
    (canceled_ = true -> playwright_available env = true ->
     exists k, Z.of_nat (List.length entries) = Z.of_nat k * batch_size) /\
    (playwright_available env = true -> batch_size < 0 ->
     entries = [] /\ canceled_ = false).
Proof.
  unfold run_flow_spec_tests. intros H.
  apply bind_ok in H. destruct H as (st & Hloop & H).
  apply bind_ok in H. destruct H as (passed & Hp & H).
  injection H as <- <-.
  destruct (run_loop_grows env on_progress should_stop tests batch_size st
              Hloop) as (G & B & S & A & K & N & _).
  exists (l_results st), (l_canceled st), passed.
  split; [reflexivity|]. split; [exact G|].
  split; [|auto 6].
  assert (F : Forall2 (fun test entry => exists p, entry = test_entry test p)
                (firstn (List.length (l_results st)) tests) (l_results st)).
  { apply (calls_entries env tests _ 0%nat). unfold checks in G.
    destruct (playwright_available env); auto. }
  now apply entries_ids.
Qed.

(** X15.  The progress a test run reports never exceeds 95, so that 100
    is left to the completion of the job; there is at most one report per
    entry, exactly one per entry in the HTTP fallback, and none without a
    callback. *)
Theorem run_flow_spec_tests_reports (env : Env) (url : string)
    (tests : list FlowSpecTest) (batch_size : Z)
    (on_progress : option (Z -> res unit))
    (should_stop : option (nat -> bool)) (r : value) (emitted : list Z) :
  run_flow_spec_tests env url tests batch_size on_progress should_stop
  = Ok (r, emitted) ->
  Forall (fun x => x <= 95) emitted /\
  (on_progress = None -> emitted = []) /\
  exists entries,
    value_get r "tests" = VList entries /\
    (List.length emitted <= List.length entries)%nat /\
    (on_progress <> None -> playwright_available env = false ->
     List.length emitted = List.length entries).
Proof.
  unfold run_flow_spec_tests. intros H.
  apply bind_ok in H. destruct H as (st & Hloop & H).
  apply bind_ok in H. destruct H as (passed & Hp & H).
  injection H as <- <-.
  destruct (run_loop_grows env on_progress should_stop tests batch_size st
              Hloop) as (_ & _ & _ & _ & _ & _ & C & L & N & E).
  split; [exact C|]. split; [exact N|].
  exists (l_results st). split; [reflexivity|]. auto.
Qed.

(** X16.  The dict of a test run is JSON-safe as it is: the worker, which
    passes every result through [_to_json_safe], stores it unchanged. *)
Theorem run_flow_spec_tests_json_safe (env : Env) (url : string)
    (tests : list FlowSpecTest) (batch_size : Z)
    (on_progress : option (Z -> res unit))
    (should_stop : option (nat -> bool)) (r : value) (emitted : list Z) :
  run_flow_spec_tests env url tests batch_size on_progress should_stop
  = Ok (r, emitted) ->
  json_safe r = true /\
  JobWorker._to_json_safe r = r /\
  forall now j,
    result (store_record r now j) = Some r.
Proof.
  intros H.
  destruct (run_flow_spec_tests_entries_aux env url tests batch_size
              on_progress should_stop r emitted H) as (entries & c & p & -> & F).
  assert (S : json_safe (summary url (Z.of_nat (List.length entries)) p
                           (Z.of_nat (List.length entries) - p)
                           (run_duration_ms env) batch_size c entries)
              = true).
  { simpl. rewrite andb_true_r. now apply (entries_json_safe _ _ F). }
  split; [exact S|].
  pose proof (to_json_safe_fixes_safe _ S) as E.
  split; [exact E|].
  intros now j. unfold store_record.
  destruct (JobStatus_eqb (status j) canceled).
  - rewrite E. simpl. destruct (error j); reflexivity.
  - rewrite E.
    destruct (is_dict _ && truthy _); reflexivity.
Qed.

End RunEntriesTop.

Section RunEntriesWitnesses.

Import TestRunner.

Lemma run_flow_spec_tests_entries_witness :
  sample_run = Ok (sample_result, sample_emitted) /\
  exists entries canceled_ passed,
    sample_result
    = summary "https://shop.test" (Z.of_nat (List.length entries)) passed
        (Z.of_nat (List.length entries) - passed) 40 4 canceled_ entries /\
    entry_ids entries
    = map (fun test => Ok (VStr (t_id test)))
        (firstn (List.length entries) sample_tests).
Proof.
  assert (sample_run_returns :
            sample_run = Ok (sample_result, sample_emitted))
    by (vm_compute; reflexivity).
  split; [exact sample_run_returns|].
  destruct (run_flow_spec_tests_entries (sample_env true)
              "https://shop.test" sample_tests 4 (Some (fun _ => Ok tt))
              (Some stop_at_second_poll) sample_result sample_emitted
              sample_run_returns)
    as (entries & canceled_ & passed & A & _ & B & _).
  exists entries, canceled_, passed. split; [exact A | exact B].
Defined.

Lemma run_flow_spec_tests_reports_witness :
  sample_run = Ok (sample_result, sample_emitted) /\
  Forall (fun x => x <= 95) sample_emitted.
Proof.
  assert (sample_run_returns :
            sample_run = Ok (sample_result, sample_emitted))
    by (vm_compute; reflexivity).
  split; [exact sample_run_returns|].
  exact (proj1 (run_flow_spec_tests_reports (sample_env true)
                  "https://shop.test" sample_tests 4 (Some (fun _ => Ok tt))
                  (Some stop_at_second_poll) sample_result sample_emitted
                  sample_run_returns)).
Defined.

Lemma run_flow_spec_tests_json_safe_witness :
  sample_run = Ok (sample_result, sample_emitted) /\
  JobWorker._to_json_safe sample_result = sample_result.
Proof.
  assert (sample_run_returns :
            sample_run = Ok (sample_result, sample_emitted))
    by (vm_compute; reflexivity).
  split; [exact sample_run_returns|].
  exact (proj1 (proj2 (run_flow_spec_tests_json_safe (sample_env true)
                         "https://shop.test" sample_tests 4
                         (Some (fun _ => Ok tt))
                         (Some stop_at_second_poll) sample_result
                         sample_emitted sample_run_returns))).
Defined.

End RunEntriesWitnesses.

(* ================================================================== *)
(** * The listing through its route *)
(* ================================================================== *)

Section ListingAsStated.

Import JobWorker.

(** On the literals of the enumerations the truthiness test of
    [list_jobs] is the equality filter. *)
Lemma wanted_matches (k : option JobKind) (s : option JobStatus)
    (job : JobState) :
  wanted (option_map JobKind_str k) (option_map JobStatus_str s) job
  = matches k s job.
Proof.
  unfold wanted, matches, selects.
  destruct k as [k0|], s as [s0|]; simpl.
  - f_equal; [destruct k0, (kind job) | destruct s0, (status job)];
      reflexivity.
  - f_equal. destruct k0, (kind job); reflexivity.
  - f_equal. destruct s0, (status job); reflexivity.
  - reflexivity.
Qed.

(** C8.  For every registry and every call that [GET /jobs] admits
    (filters that are literals of the enumerations or missing, [limit]
    from 1 to 200), [list_jobs] leaves the registry as it is and returns
    the first [limit] of the records that match the equality filters on
    [kind] and [status], a missing filter matching every record, sorted by
    [created_at], newest first (records created at the same instant in the
    order of the registry); the route hands that list back. *)
Theorem list_jobs_as_stated (k : option JobKind) (s : option JobStatus)
    (limit : Z) (jobs : registry) :
  1 <= limit <= 200 ->
  fst (list_jobs (option_map JobKind_str k) (option_map JobStatus_str s)
         limit jobs) = jobs /\
  Api.get_jobs k s limit jobs
  = (jobs,
     Api.Body (snd (list_jobs (option_map JobKind_str k)
                      (option_map JobStatus_str s) limit jobs))) /\
  exists sorted,
    snd (list_jobs (option_map JobKind_str k) (option_map JobStatus_str s)
           limit jobs)
    = firstn (Z.to_nat limit) sorted /\
    Permutation sorted (filter (matches k s) (dict_values jobs)) /\
    StronglySorted newest_first sorted /\
    (forall instant,
        filter (fun job => created_at job =? instant) sorted
        = filter (fun job => created_at job =? instant)
            (filter (matches k s) (dict_values jobs))) /\
    (forall job,
        In job sorted <->
        In job (dict_values jobs) /\
        (forall k0, k = Some k0 -> kind job = k0) /\
        (forall s0, s = Some s0 -> status job = s0)) /\
    firstn (Z.to_nat limit) sorted
    = listing_as_stated (option_map JobKind_str k)
        (option_map JobStatus_str s) limit jobs.
Proof.
  intros Hlimit.
  split; [reflexivity|].
  assert (E : snd (list_jobs (option_map JobKind_str k)
                     (option_map JobStatus_str s) limit jobs)
              = firstn (Z.to_nat limit)
                  (sort_desc created_at
                     (filter (matches k s) (dict_values jobs)))).
  { rewrite list_jobs_sorted_window, slice_to_first by lia.
    do 2 f_equal. apply filter_ext. intros job. apply wanted_matches. }
  split.
  { unfold Api.get_jobs.
    replace ((1 <=? limit) && (limit <=? 200)) with true
      by (symmetry; apply andb_true_iff; split; apply Z.leb_le; lia).
    reflexivity. }
  exists (sort_desc created_at (filter (matches k s) (dict_values jobs))).
  split; [exact E|].
  split; [apply sort_desc_perm|].
  split; [apply (sort_desc_sorted created_at)|].
  split; [intros instant; apply sort_desc_stable|].
  split.
  2:{ rewrite <- E. pose proof (get_jobs_as_stated k s limit jobs Hlimit) as G.
      unfold Api.get_jobs in G.
      replace ((1 <=? limit) && (limit <=? 200)) with true in G
        by (symmetry; apply andb_true_iff; split; apply Z.leb_le; lia).
      simpl in G. now injection G. }
  intros job. split.
  - intros Hin.
    apply (Permutation_in _ (sort_desc_perm created_at _)) in Hin.
    apply filter_In in Hin. destruct Hin as [Hin Hm].
    split; [exact Hin|]. unfold matches in Hm.
    apply andb_true_iff in Hm. destruct Hm as [Hk Hs].
    split.
    + intros k0 ->. now apply JobKind_eqb_eq.
    + intros s0 ->. now apply JobStatus_eqb_eq.
  - intros (Hin & Hk & Hs).
    apply (Permutation_in _ (Permutation_sym (sort_desc_perm created_at _))).
    apply filter_In. split; [exact Hin|]. unfold matches.
    apply andb_true_iff. split.
    + destruct k as [k0|]; [|reflexivity].
      apply JobKind_eqb_eq. now apply Hk.
    + destruct s as [s0|]; [|reflexivity].
      apply JobStatus_eqb_eq. now apply Hs.
Qed.

End ListingAsStated.

Lemma list_jobs_as_stated_witness :
  1 <= 1 <= 200 /\
  Api.get_jobs (Some scan) (Some queued) 1 two_jobs
  = (two_jobs,
     Api.Body (snd (JobWorker.list_jobs (Some "scan") (Some "queued") 1
                      two_jobs))) /\
  map job_id (snd (JobWorker.list_jobs (Some "scan") (Some "queued") 1
                     two_jobs))
  = ["b"].
Proof.
  split; [lia|].
  split; [|reflexivity].
  exact (proj1 (proj2 (list_jobs_as_stated (Some scan) (Some queued) 1
                         two_jobs ltac:(lia)))).
Defined.

(* ================================================================== *)
(** * [_to_json_safe] on dicts with keys of any type *)
(* ================================================================== *)

Section JsonSafeKeys.

Import JsonKeys.

Lemma object_rect_nested (P : object -> Prop) :
  P ONone ->
  (forall b, P (OBool b)) ->
  (forall z, P (OInt z)) ->
  (forall f, P (OFloat f)) ->
  (forall s, P (OStr s)) ->
  (forall items, Forall P items -> P (OList items)) ->
  (forall items, Forall P items -> P (OTuple items)) ->
  (forall entries, Forall (fun kv => P (snd kv)) entries ->
                   P (ODict entries)) ->
  (forall repr, P (OObj repr)) ->
  forall o, P o.
Proof.
  intros HN HB HI HF HS HL HT HD HO.
  fix IH 1. intros [| b | z | f | s | items | items | entries | repr].
  - exact HN.
  - apply HB.
  - apply HI.
  - apply HF.
  - apply HS.
  - apply HL. induction items as [|x items IHl]; constructor;
      [apply IH | exact IHl].
  - apply HT. induction items as [|x items IHl]; constructor;
      [apply IH | exact IHl].
  - apply HD. induction entries as [|[k x] entries IHl]; constructor;
      [apply IH | exact IHl].
  - apply HO.
Qed.

Lemma distinct_nodup (l : list string) : distinct l = true <-> NoDup l.
Proof.
  induction l as [|s l IH]; simpl.
  - split; [constructor | reflexivity].
  - rewrite andb_true_iff, negb_true_iff, IH. split.
    + intros [Hn Hd]. constructor; [|exact Hd]. intros Hin.
      assert (X : existsb (String.eqb s) l = true).
      { apply existsb_exists. exists s. split; [exact Hin|].
        apply String.eqb_refl. }
      congruence.
    + intros H. inversion H as [|? ? Hn Hd]; subst. split; [|exact Hd].
      destruct (existsb (String.eqb s) l) eqn:E; [|reflexivity].
      apply existsb_exists in E. destruct E as (x & Hx & Ex).
      apply String.eqb_eq in Ex. subst x. contradiction.
Qed.

Lemma dict_get_absent {V} (k : string) (d : dict V) :
  ~ In k (dict_keys d) -> dict_get k d = None.
Proof.
  induction d as [|[k' x] d IH]; simpl; intros H; [reflexivity|].
  destruct (String.eqb k k') eqn:E.
  - apply String.eqb_eq in E. subst k'. exfalso. apply H. auto.
  - apply IH. tauto.
Qed.

Lemma dict_set_absent {V} (k : string) (x : V) (d : dict V) :
  dict_get k d = None -> dict_set k x d = (d ++ [(k, x)])%list.
Proof.
  induction d as [|[k' x'] d IH]; simpl; intros H; [reflexivity|].
  destruct (String.eqb k k'); [discriminate|]. now rewrite IH.
Qed.

Lemma dict_set_values {V} (P : V -> Prop) (k : string) (x : V)
    (d : dict V) :
  P x -> Forall (fun kv => P (snd kv)) d ->
  Forall (fun kv => P (snd kv)) (dict_set k x d).
Proof.
  intros Hx. induction d as [|[k' x'] d IH]; simpl; intros H.
  - constructor; [exact Hx | constructor].
  - inversion H as [|? ? H1 H2]; subst.
    destruct (String.eqb k k'); constructor; auto.
Qed.

(** What a comprehension that goes on from [d] gives. *)
Lemma comprehension_from {V} (P : V -> Prop) (entries : list (string * V)) :
  forall d : dict V,
    NoDup (dict_keys d) ->
    Forall (fun kv => P (snd kv)) d ->
    Forall (fun kv => P (snd kv)) entries ->
    let d' := fold_left (fun d kv => dict_set (fst kv) (snd kv) d)
                entries d in
    NoDup (dict_keys d') /\
    Forall (fun kv => P (snd kv)) d' /\
    (forall s, In s (dict_keys d') <->
               In s (dict_keys d) \/ In s (map fst entries)) /\
    (List.length d' <= List.length d + List.length entries)%nat /\
    (NoDup (dict_keys d ++ map fst entries) -> d' = (d ++ entries)%list).
Proof.
  induction entries as [|[k x] entries IH]; simpl; intros d Hnd Hd He.
  - split; [exact Hnd|]. split; [exact Hd|].
    split; [tauto|]. split; [lia|]. intros _. now rewrite app_nil_r.
  - inversion He as [|? ? Hx He']; subst. simpl in Hx.
    assert (Hnd1 : NoDup (dict_keys (dict_set k x d))).
    { rewrite dict_keys_set. destruct (dict_get k d) eqn:G; [exact Hnd|].
      apply NoDup_app; [exact Hnd | repeat constructor; simpl; tauto|].
      intros s Hs [E|[]]. subst s. now apply (dict_get_none_keys k d). }
    destruct (IH (dict_set k x d) Hnd1 (dict_set_values P k x d Hx Hd) He')
      as (A & B & C & D & E).
    split; [exact A|]. split; [exact B|]. split; [|split].
    + intros s. rewrite C, dict_keys_set.
      destruct (dict_get k d) eqn:G.
      * assert (In k (dict_keys d)).
        { apply dict_get_some_in in G. unfold dict_keys.
          apply in_map_iff. exists (k, v). auto. }
        split; [tauto|]. intros [H1|[<-|H1]]; auto.
      * rewrite in_app_iff. simpl. tauto.
    + assert (List.length (dict_set k x d) <= S (List.length d))%nat.
      { clear. induction d as [|[k' x'] d IHd]; simpl; [lia|].
        destruct (String.eqb k k'); simpl; lia. }
      lia.
    + intros Hall.
      assert (G : dict_get k d = None).
      { apply dict_get_absent. intros Hin.
        apply NoDup_remove_2 in Hall. apply Hall.
        apply in_or_app. auto. }
      rewrite E.
      * rewrite (dict_set_absent k x d G), <- app_assoc. reflexivity.
      * rewrite dict_keys_set, G, <- app_assoc. exact Hall.
Qed.

Lemma comprehension_facts {V} (P : V -> Prop)
    (entries : list (string * V)) :
  Forall (fun kv => P (snd kv)) entries ->
  NoDup (dict_keys (comprehension entries)) /\
  Forall (fun kv => P (snd kv)) (comprehension entries) /\
  (forall s, In s (dict_keys (comprehension entries)) <->
             In s (map fst entries)) /\
  (List.length (comprehension entries) <= List.length entries)%nat /\
  (NoDup (map fst entries) -> comprehension entries = entries).
Proof.
  intros He.
  destruct (comprehension_from P entries [] ltac:(constructor)
              ltac:(constructor) He) as (A & B & C & D & E).
  split; [exact A|]. split; [exact B|].
  split; [intros s; rewrite (C s); simpl; tauto|].
  split; [exact D|]. exact E.
Qed.

(** The result is JSON-safe, and its dicts are dicts. *)
Lemma to_json_safe_keys_safe (o : object) :
  json_safe (JsonKeys._to_json_safe o) = true /\
  well_keyed (JsonKeys._to_json_safe o) = true.
Proof.
  induction o using object_rect_nested; simpl; auto.
  - rewrite !forallb_forall. split; intros x Hx; apply in_map_iff in Hx;
      destruct Hx as (y & <- & Hy); rewrite Forall_forall in H;
      now apply H.
  - rewrite !forallb_forall. split; intros x Hx; apply in_map_iff in Hx;
      destruct Hx as (y & <- & Hy); rewrite Forall_forall in H;
      now apply H.
  - set (written := map (fun kv => (key_str (fst kv),
                                    JsonKeys._to_json_safe (snd kv)))
                      entries).
    assert (W : Forall (fun kv => json_safe (snd kv) = true /\
                                  well_keyed (snd kv) = true) written).
    { unfold written. apply Forall_map. simpl. exact H. }
    destruct (comprehension_facts
                (fun x => json_safe x = true /\ well_keyed x = true)
                written W) as (A & B & _).
    rewrite Forall_forall in B. split.
    + apply forallb_forall. intros kv Hkv. now apply (B kv).
    + apply andb_true_iff. split.
      * apply distinct_nodup. exact A.
      * apply forallb_forall. intros kv Hkv. now apply (B kv).
Qed.

(** On dicts keyed by strings the function is the one the worker's
    payloads are given to. *)
Lemma to_json_safe_keys_agree (v : value) :
  well_keyed v = true ->
  JsonKeys._to_json_safe (object_of v) = JobWorker._to_json_safe v.
Proof.
  induction v using value_rect_nested; simpl; intros Hw; try reflexivity.
  - f_equal. rewrite map_map. apply map_ext_in. intros x Hx.
    rewrite Forall_forall in H. rewrite forallb_forall in Hw. auto.
  - f_equal. rewrite map_map. apply map_ext_in. intros x Hx.
    rewrite Forall_forall in H. rewrite forallb_forall in Hw. auto.
  - apply andb_true_iff in Hw. destruct Hw as [Hd Hw].
    rewrite forallb_forall in Hw. rewrite Forall_forall in H.
    f_equal. rewrite map_map. simpl.
    rewrite (proj2 (proj2 (proj2 (proj2
               (comprehension_facts (fun _ => True) _
                  ltac:(apply Forall_forall; auto)))))).
    + apply map_ext_in. intros [k x] Hx. simpl. f_equal.
      apply (H (k, x) Hx). apply (Hw (k, x) Hx).
    + rewrite map_map. simpl. apply distinct_nodup. exact Hd.
Qed.

(** X1.  [_to_json_safe] always gives a value made of dicts keyed by
    strings, lists and scalars only, whatever the keys of the dicts it is
    given; a second pass changes nothing.  A list or a tuple becomes the
    list of its converted items.  A dict becomes the dict of the
    [str(key)] of its keys: every key of the result is the [str()] of a
    key of the input and conversely, no key is there twice, and when the
    [str()] of the keys differ from each other the keys come in the order
    of the input; keys with the same [str()] are merged, so the result
    can have fewer entries.  On a value whose dicts are keyed by strings
    the function is the one on the payloads of the worker, and such a
    value, when it is JSON-safe, is returned as it is. *)
Theorem to_json_safe_normalises (o : object) :
  json_safe (JsonKeys._to_json_safe o) = true /\
  JsonKeys._to_json_safe (object_of (JsonKeys._to_json_safe o))
  = JsonKeys._to_json_safe o /\
  (forall items,
      o = OList items \/ o = OTuple items ->
      JsonKeys._to_json_safe o = VList (map JsonKeys._to_json_safe items)) /\
  (forall entries,
      o = ODict entries ->
      exists written,
        JsonKeys._to_json_safe o = VDict written /\
        NoDup (map fst written) /\
        (forall s, In s (map fst written) <->
                   In s (map (fun kv => key_str (fst kv)) entries)) /\
        (List.length written <= List.length entries)%nat /\
        (NoDup (map (fun kv => key_str (fst kv)) entries) ->
         written
         = map (fun kv => (key_str (fst kv),
                           JsonKeys._to_json_safe (snd kv))) entries)) /\
  (forall v,
      o = object_of v -> well_keyed v = true ->
      JsonKeys._to_json_safe o = JobWorker._to_json_safe v /\
      (json_safe v = true -> JsonKeys._to_json_safe o = v)).
Proof.
  destruct (to_json_safe_keys_safe o) as [S W].
  split; [exact S|].
  split.
  { rewrite (to_json_safe_keys_agree _ W).
    now apply to_json_safe_fixes_safe. }
  split.
  { intros items [-> | ->]; reflexivity. }
  split.
  { intros entries ->. simpl. eexists. split; [reflexivity|].
    destruct (comprehension_facts (fun _ => True)
                (map (fun kv => (key_str (fst kv),
                                 JsonKeys._to_json_safe (snd kv)))
                   entries) ltac:(apply Forall_forall; auto))
      as (A & _ & C & D & E).
    rewrite map_map in C, E. simpl in C, E. rewrite length_map in D.
    split; [exact A|]. split; [exact C|]. split; [exact D | exact E]. }
  intros v -> Hw. rewrite (to_json_safe_keys_agree v Hw).
  split; [reflexivity|]. apply to_json_safe_fixes_safe.
Qed.

(** Keys with the same [str()] are merged: [{1: "a", "1": "b"}] becomes
    [{"1": "b"}]. *)
Example to_json_safe_merges_keys :
  JsonKeys._to_json_safe
    (ODict [(KOther "1", OStr "a"); (KStr "1", OStr "b")])
  = VDict [("1", VStr "b")].
Proof. reflexivity. Qed.

End JsonSafeKeys.

(* ================================================================== *)
(** * The progress helper on any range *)
(* ================================================================== *)

Section ProgressAnyRange.

Import Evaluation EvalRun.

(** [scaled_value] on any arguments is [scaled_value] on the range it
    clamps them to. *)
Lemma scaled_value_clamped (start end_ p : Z) :
  scaled_value start end_ p
  = Ok (Z.max 0 (Z.min start 100)
        + share (Z.max (Z.max 0 (Z.min start 100)) (Z.min end_ 100)
                 - Z.max 0 (Z.min start 100))
            (Z.max 0 (Z.min p 100))).
Proof.
  unfold scaled_value. rewrite share_defined by lia. reflexivity.
Qed.


End ProgressAnyRange.

(* ================================================================== *)
(** * One evaluation run *)
(* ================================================================== *)

Section Prefixes.

Import EvalRun.

Lemma is_prefix_refl {A} (l : list A) : is_prefix l l.
Proof. exists []. now rewrite app_nil_r. Qed.

Lemma is_prefix_nil {A} (l : list A) : is_prefix [] l.
Proof. now exists l. Qed.

Lemma is_prefix_cons {A} (x : A) (l full : list A) :
  is_prefix l full -> is_prefix (x :: l) (x :: full).
Proof. intros [rest ->]. now exists rest. Qed.

Lemma is_prefix_app {A} (a l full : list A) :
  is_prefix l full -> is_prefix (a ++ l) (a ++ full).
Proof. intros [rest ->]. exists rest. now rewrite app_assoc. Qed.

Lemma row_locals_prefix (total : Z) (index m n : nat) :
  (m <= n)%nat ->
  is_prefix (row_locals total index m) (row_locals total index n).
Proof.
  intros H. exists (row_locals total (index + m) (n - m)).
  unfold row_locals. rewrite <- map_app, <- seq_app. do 2 f_equal. lia.
Qed.

Lemma is_prefix_app_r {A} (l full more : list A) :
  is_prefix l full -> is_prefix l (full ++ more).
Proof. intros [rest ->]. exists (rest ++ more)%list. now rewrite app_assoc. Qed.

End Prefixes.

Ltac trace_eq :=
  first
    [ solve [rewrite ?app_nil_r, <- ?app_assoc; reflexivity]
    | solve [rewrite ?map_app, ?app_nil_r, <- ?app_assoc; reflexivity]
    | solve [simpl; rewrite ?map_app, ?app_nil_r, <- ?app_assoc; simpl;
             reflexivity] ].

Ltac prefix_of_marks :=
  first
    [ apply is_prefix_refl
    | apply is_prefix_nil
    | solve [unfold EvalRun.full_locals, EvalRun.five_phases; simpl;
             eexists; reflexivity] ].

Section EvalTrace.

Import Evaluation EvalRun.

Variable env : Env.
Variables (c : callback Z) (f : Z -> Z).
Hypothesis c_tells : forall p, c p = Ok (f p).
Variables (h : string -> res string) (g : string -> string).
Hypothesis h_tells : forall s, h s = Ok (g s).

Lemma tell_progress_total (p : Z) (tr : Trace) :
  tell_progress (Some c) p tr
  = (Ok tt, {| reported := reported tr ++ [f p]; phases := phases tr |}).
Proof. unfold tell_progress. now rewrite c_tells. Qed.

Lemma emit_phase_total (label : string) (tr : Trace) :
  emit_phase (Some h) None label tr
  = (Ok tt, {| reported := reported tr; phases := phases tr ++ [g label] |}).
Proof. unfold emit_phase, tell_phase. simpl. now rewrite h_tells. Qed.

Lemma tell_phase_total (label : string) (tr : Trace) :
  tell_phase (Some h) label tr
  = (Ok tt, {| reported := reported tr; phases := phases tr ++ [g label] |}).
Proof. unfold tell_phase. now rewrite h_tells. Qed.

Lemma scaled_eq (start end_ p : Z) :
  scaled_value start end_ p = Ok (scaled start end_ p).
Proof.
  unfold scaled. now rewrite scaled_value_clamped.
Qed.

Lemma row_local_eq (total k : Z) :
  row_local total k = scaled 25 80 (ratio (k + 1) total).
Proof.
  unfold row_local, scaled. rewrite scaled_value_clamped. reflexivity.
Qed.

Lemma mbind_run {A B} (m : M A) (k : A -> M B) (tr tr' : Trace)
    (r : res B) :
  mbind m k tr = (r, tr') ->
  (exists a tr1, m tr = (Ok a, tr1) /\ k a tr1 = (r, tr')) \/
  (exists e, m tr = (Raise e, tr') /\ r = Raise e).
Proof.
  unfold mbind. destruct (m tr) as [[a|e] tr1]; intros H.
  - left. eauto.
  - right. injection H as <- <-. eauto.
Qed.

(** The loop of [_build_eval_samples] under the callback that
    [_evaluate_mode] gives it: one report per row begun. *)
Lemma build_loop_trace (mode : Mode) (top_k fetch_k total : Z)
    (todo : list Row) :
  forall (index : nat) (samples : list Sample)
         (sample_rows : list EvalSampleRow) (tr tr' : Trace)
         (r : res (list Sample * list EvalSampleRow)),
    build_loop env mode top_k fetch_k (_map_progress (Some c) 25 80) total
      index todo samples sample_rows tr = (r, tr') ->
    phases tr' = phases tr /\
    exists m,
      (m <= List.length todo)%nat /\
      reported tr'
      = (reported tr ++ map f (row_locals total index m))%list /\
      (forall built, r = Ok built -> m = List.length todo).
Proof.
  induction todo as [|row rest IH]; simpl;
    intros index samples sample_rows tr tr' r H.
  - injection H as <- <-. split; [reflexivity|]. exists 0%nat.
    simpl. rewrite app_nil_r. auto.
  - assert (Step : forall tr1 r1,
               phases tr1 = phases tr ->
               reported tr1
               = (reported tr ++ [f (row_local total (Z.of_nat index))])%list ->
               (phases tr' = phases tr1 /\
                exists m,
                  (m <= List.length rest)%nat /\
                  reported tr'
                  = (reported tr1
                     ++ map f (row_locals total (S index) m))%list /\
                  (forall built, r1 = Ok built -> m = List.length rest)) ->
               (forall built, r = Ok built -> r1 = r) ->
               phases tr' = phases tr /\
               exists m,
                 (m <= S (List.length rest))%nat /\
                 reported tr'
                 = (reported tr ++ map f (row_locals total index m))%list /\
                 (forall built, r = Ok built -> m = S (List.length rest))).
    { intros tr1 r1 P R (P' & m & Hm & R' & Hall) Hr.
      split; [congruence|]. exists (S m). split; [lia|].
      split.
      - rewrite R', R, <- app_assoc. reflexivity.
      - intros built E. rewrite (Hall built); [reflexivity|].
        rewrite (Hr built E). exact E. }
    assert (Stop : forall tr1,
               phases tr1 = phases tr ->
               reported tr1
               = (reported tr ++ [f (row_local total (Z.of_nat index))])%list ->
               tr' = tr1 -> (forall built, r <> Ok built) ->
               phases tr' = phases tr /\
               exists m,
                 (m <= S (List.length rest))%nat /\
                 reported tr'
                 = (reported tr ++ map f (row_locals total index m))%list /\
                 (forall built, r = Ok built -> m = S (List.length rest))).
    { intros tr1 P R -> Hr. split; [exact P|]. exists 1%nat.
      split; [lia|]. split; [exact R|]. intros built E.
      now contradiction (Hr built). }
    unfold mbind at 1 in H. unfold report_row in H. simpl in H.
    unfold mbind at 1 in H. unfold lift at 1 in H.
    destruct (int_ratio_times (Z.of_nat index + 1) total 100)
      as [local|e] eqn:El.
    2:{ injection H as <- <-. split; [reflexivity|]. exists 0%nat.
        simpl. rewrite app_nil_r. split; [lia|]. split; [reflexivity|].
        discriminate. }
    unfold tell_progress in H. rewrite scaled_eq in H. simpl in H.
    rewrite c_tells in H.
    assert (Hlocal : scaled 25 80 local = row_local total (Z.of_nat index)).
    { rewrite row_local_eq. unfold ratio. now rewrite El. }
    rewrite Hlocal in H.
    set (tr1 := {| reported := reported tr
                               ++ [f (row_local total (Z.of_nat index))];
                   phases := phases tr |}) in H.
    destruct (String.eqb (user_input row) "").
    + apply (Step tr1 r); auto. eapply IH; eauto.
    + unfold mbind at 1 in H. unfold lift at 1 in H.
      destruct (retrieve env mode (user_input row) top_k fetch_k)
        as [hits|e].
      2:{ injection H as <- <-. apply (Stop tr1); auto. discriminate. }
      destruct (contexts_of env hits) as [|ctx ctxs].
      * apply (Step tr1 r); auto. eapply IH; eauto.
      * unfold mbind at 1 in H. unfold lift at 1 in H.
        destruct (build_answer env (user_input row) (ctx :: ctxs))
          as [answer|e].
        2:{ injection H as <- <-. apply (Stop tr1); auto. discriminate. }
        apply (Step tr1 r); auto. eapply IH; eauto.
Qed.

(** What one run of [_evaluate_mode] tells its callbacks. *)
Lemma evaluate_mode_trace (sample_size top_k fetch_k : Z) (mode : Mode)
    (tr tr' : Trace) (r : res value) :
  _evaluate_mode env sample_size top_k fetch_k mode (Some c) (Some h) None tr
  = (r, tr') ->
  exists locals labels,
    reported tr' = (reported tr ++ map f locals)%list /\
    phases tr' = (phases tr ++ map g labels)%list /\
    is_prefix locals (full_locals (rows_count env sample_size)) /\
    is_prefix labels five_phases /\
    (forall result_,
        r = Ok result_ ->
        locals = full_locals (rows_count env sample_size) /\
        labels = five_phases).
Proof.
  unfold _evaluate_mode, rows_count. intros H.
  unfold mbind at 1 in H. rewrite emit_phase_total in H.
  unfold mbind at 1 in H. unfold lift at 1 in H.
  destruct (rpd_available env) as [[]|e].
  2:{ injection H as <- <-. exists [], ["initializing"].
      split; [trace_eq|]. split; [trace_eq|].
      split; [prefix_of_marks|]. split; [prefix_of_marks|].
      discriminate. }
  unfold mbind at 1 in H. rewrite tell_progress_total in H.
  unfold mbind at 1 in H. unfold lift at 1 in H.
  destruct (ragas_models env) as [[]|e].
  2:{ injection H as <- <-. exists [5], ["initializing"].
      split; [trace_eq|]. split; [trace_eq|].
      split; [prefix_of_marks|]. split; [prefix_of_marks|].
      discriminate. }
  unfold mbind at 1 in H. rewrite tell_progress_total in H.
  unfold mbind at 1 in H. rewrite emit_phase_total in H.
  unfold mbind at 1 in H. unfold lift at 1 in H.
  destruct (testset env sample_size) as [rows|e].
  2:{ injection H as <- <-.
      exists [5; 15], ["initializing"; "dataset_generation"].
      split; [trace_eq|]. split; [trace_eq|].
      split; [prefix_of_marks|]. split; [prefix_of_marks|].
      discriminate. }
  unfold mbind at 1 in H. rewrite tell_progress_total in H.
  destruct rows as [|row rows].
  { unfold lift in H. injection H as <- <-.
    exists [5; 15; 25], ["initializing"; "dataset_generation"].
    split; [trace_eq|]. split; [trace_eq|].
    split; [prefix_of_marks|]. split; [prefix_of_marks|].
    discriminate. }
  set (n := List.length (row :: rows)) in *.
  unfold mbind at 1 in H. rewrite emit_phase_total in H.
  unfold mbind at 1 in H. unfold _build_eval_samples in H.
  match type of H with
  | context [build_loop ?e ?m ?tk ?fk ?cb ?tot ?i ?todo ?s ?sr ?t] =>
      destruct (build_loop e m tk fk cb tot i todo s sr t)
        as [lr tr1] eqn:Hloop
  end.
  apply build_loop_trace in Hloop.
  destruct Hloop as (P1 & m & Hm & R1 & Hall). simpl in P1, R1.
  fold n in Hm, R1, Hall.
  assert (Pre : is_prefix ([5; 15; 25] ++ row_locals (Z.of_nat n) 0 m)%list
                  (full_locals n)).
  { unfold full_locals. apply is_prefix_app. apply is_prefix_app_r.
    now apply row_locals_prefix. }
  destruct lr as [built|e].
  2:{ injection H as <- <-.
      exists ([5; 15; 25] ++ row_locals (Z.of_nat n) 0 m)%list,
        ["initializing"; "dataset_generation"; "retrieval"].
      split; [rewrite R1; trace_eq|]. split; [rewrite P1; trace_eq|].
      split; [exact Pre|]. split; [prefix_of_marks|].
      discriminate. }
  rewrite (Hall built eq_refl) in *.
  destruct (fst built) as [|sample samples].
  { unfold lift in H. injection H as <- <-.
    exists ([5; 15; 25] ++ row_locals (Z.of_nat n) 0 n)%list,
      ["initializing"; "dataset_generation"; "retrieval"].
    split; [rewrite R1; trace_eq|]. split; [rewrite P1; trace_eq|].
    split; [exact Pre|]. split; [prefix_of_marks|].
    discriminate. }
  unfold mbind at 1 in H. rewrite tell_progress_total in H.
  unfold mbind at 1 in H. rewrite emit_phase_total in H.
  unfold mbind at 1 in H. unfold lift at 1 in H.
  destruct (scoring env (sample :: samples)) as [score_|e].
  2:{ injection H as <- <-.
      exists ([5; 15; 25] ++ row_locals (Z.of_nat n) 0 n ++ [85])%list,
        ["initializing"; "dataset_generation"; "retrieval"; "scoring"].
      split; [simpl; rewrite R1; trace_eq|].
      split; [simpl; rewrite P1; trace_eq|].
      split.
      { unfold full_locals. apply is_prefix_app, is_prefix_app.
        exists [98]. reflexivity. }
      split; [prefix_of_marks|].
      discriminate. }
  unfold mbind at 1 in H. rewrite tell_progress_total in H.
  unfold mbind at 1 in H. rewrite emit_phase_total in H.
  unfold ret in H. injection H as <- <-.
  exists (full_locals n), five_phases.
  split; [simpl; rewrite R1; unfold full_locals; trace_eq|].
  split; [simpl; rewrite P1; trace_eq|].
  split; [prefix_of_marks|]. split; [prefix_of_marks|]. auto.
Qed.

Lemma run_mode_trace (mode : Mode) (conclusion : string)
    (sample_size top_k fetch_k : Z) (force_ingest : bool)
    (tr tr' : Trace) (r : res value) :
  run_mode_eval env mode conclusion sample_size top_k fetch_k force_ingest
    (Some c) (Some h) tr = (r, tr') ->
  exists locals labels,
    reported tr' = (reported tr ++ map f locals)%list /\
    phases tr' = (phases tr ++ map g labels)%list /\
    is_prefix locals (full_locals (rows_count env sample_size)) /\
    is_prefix labels five_phases /\
    (forall result_,
        r = Ok result_ ->
        locals = full_locals (rows_count env sample_size) /\
        labels = five_phases).
Proof.
  unfold run_mode_eval. intros H.
  unfold mbind at 1 in H. unfold lift at 1 in H.
  destruct (ingest env force_ingest) as [[]|e].
  2:{ injection H as <- <-. exists [], [].
      split; [trace_eq|]. split; [trace_eq|].
      split; [prefix_of_marks|]. split; [prefix_of_marks|].
      discriminate. }
  unfold mbind at 1 in H.
  destruct (_evaluate_mode env sample_size top_k fetch_k mode (Some c)
              (Some h) None tr) as [r1 tr1] eqn:E.
  destruct (evaluate_mode_trace _ _ _ _ _ _ _ E)
    as (locals & labels & R & P & L1 & L2 & F).
  exists locals, labels.
  destruct r1 as [result_|e].
  - unfold ret in H. injection H as <- <-.
    split; [exact R|]. split; [exact P|]. split; [exact L1|].
    split; [exact L2|]. intros ? _. now apply (F result_).
  - injection H as <- <-.
    split; [exact R|]. split; [exact P|]. split; [exact L1|].
    split; [exact L2|]. discriminate.
Qed.

End EvalTrace.

Section CompareTrace.

Import Evaluation EvalRun.

Variable env : Env.
Variables (c : callback Z) (f : Z -> Z).
Hypothesis c_tells : forall p, c p = Ok (f p).
Variables (h : string -> res string) (g : string -> string).
Hypothesis h_tells : forall s, h s = Ok (g s).

Lemma mapped_tells (start end_ p : Z) :
  (v <- scaled_value start end_ p ;; c v) = Ok (f (scaled start end_ p)).
Proof. rewrite scaled_eq. simpl. apply c_tells. Qed.

(** What one run of [run_compare_eval] tells its callbacks. *)
Lemma run_compare_trace (sample_size top_k fetch_k : Z)
    (force_ingest : bool) (tr tr' : Trace) (r : res value) :
  run_compare_eval env sample_size top_k fetch_k force_ingest
    (Some c) (Some h) tr = (r, tr') ->
  exists first_ second_ labels,
    reported tr'
    = (reported tr
       ++ map (fun p => f (scaled 5 49 p)) first_
       ++ map (fun p => f (scaled 50 95 p)) second_)%list /\
    phases tr' = (phases tr ++ map g labels)%list /\
    is_prefix first_ (full_locals (rows_count env sample_size)) /\
    is_prefix second_ (full_locals (rows_count env sample_size)) /\
    is_prefix labels compare_phases /\
    (forall result_,
        r = Ok result_ ->
        first_ = full_locals (rows_count env sample_size) /\
        second_ = full_locals (rows_count env sample_size) /\
        labels = compare_phases).
Proof.
  unfold run_compare_eval. intros H.
  unfold mbind at 1 in H. rewrite (tell_phase_total h g h_tells) in H.
  unfold mbind at 1 in H.
  unfold run_baseline_eval, compare_baseline_progress, _map_progress in H.
  match type of H with
  | context [run_mode_eval ?e ?m ?cn ?ss ?tk ?fk ?fi ?cb ?ph ?t] =>
      destruct (run_mode_eval e m cn ss tk fk fi cb ph t)
        as [r1 tr1] eqn:E1
  end.
  destruct (run_mode_trace env _ (fun p => f (scaled 5 49 p))
              (mapped_tells 5 49) h g h_tells _ _ _ _ _ _ _ _ _ E1)
    as (l1 & p1 & R1 & P1 & A1 & B1 & F1).
  simpl in R1, P1.
  destruct r1 as [baseline_|e].
  2:{ injection H as <- <-.
      exists l1, [], ("baseline_initializing" :: p1).
      split; [rewrite R1; trace_eq|]. split; [rewrite P1; trace_eq|].
      split; [exact A1|]. split; [apply is_prefix_nil|].
      split; [apply is_prefix_cons; unfold compare_phases;
              now apply is_prefix_app_r|].
      discriminate. }
  destruct (F1 baseline_ eq_refl) as [-> ->].
  unfold mbind at 1 in H. rewrite (tell_phase_total h g h_tells) in H.
  unfold mbind at 1 in H.
  unfold run_advanced_eval, compare_advanced_progress, _map_progress in H.
  match type of H with
  | context [run_mode_eval ?e ?m ?cn ?ss ?tk ?fk ?fi ?cb ?ph ?t] =>
      destruct (run_mode_eval e m cn ss tk fk fi cb ph t)
        as [r2 tr2] eqn:E2
  end.
  destruct (run_mode_trace env _ (fun p => f (scaled 50 95 p))
              (mapped_tells 50 95) h g h_tells _ _ _ _ _ _ _ _ _ E2)
    as (l2 & p2 & R2 & P2 & A2 & B2 & F2).
  simpl in R2, P2.
  assert (Pre2 : is_prefix
                   ("baseline_initializing" :: five_phases
                    ++ "advanced_initializing" :: p2)%list
                   compare_phases).
  { unfold compare_phases. apply is_prefix_cons, is_prefix_app,
      is_prefix_cons. now apply is_prefix_app_r. }
  destruct r2 as [advanced_|e].
  2:{ injection H as <- <-.
      exists (full_locals (rows_count env sample_size)), l2,
        ("baseline_initializing" :: five_phases
         ++ "advanced_initializing" :: p2)%list.
      split; [rewrite R2, R1; trace_eq|].
      split; [rewrite P2, P1; trace_eq|].
      split; [apply is_prefix_refl|]. split; [exact A2|].
      split; [exact Pre2|]. discriminate. }
  destruct (F2 advanced_ eq_refl) as [-> ->].
  unfold mbind at 1 in H. unfold lift at 1 in H.
  destruct (compare_deltas env baseline_ advanced_) as [compared|e].
  2:{ injection H as <- <-.
      exists (full_locals (rows_count env sample_size)),
        (full_locals (rows_count env sample_size)),
        ("baseline_initializing" :: five_phases
         ++ "advanced_initializing" :: five_phases)%list.
      split; [rewrite R2, R1; trace_eq|].
      split; [rewrite P2, P1; trace_eq|].
      split; [apply is_prefix_refl|]. split; [apply is_prefix_refl|].
      split; [exact Pre2|]. discriminate. }
  unfold mbind at 1 in H. rewrite (tell_phase_total h g h_tells) in H.
  unfold ret in H. injection H as <- <-.
  exists (full_locals (rows_count env sample_size)),
    (full_locals (rows_count env sample_size)), compare_phases.
  split; [simpl; rewrite R2, R1; trace_eq|].
  split; [simpl; rewrite P2, P1; unfold compare_phases; trace_eq|].
  split; [apply is_prefix_refl|]. split; [apply is_prefix_refl|].
  split; [apply is_prefix_refl|]. auto.
Qed.

End CompareTrace.

Section Ascending.

Import Evaluation EvalRun.

Lemma sorted_app (l1 l2 : list Z) :
  StronglySorted Z.le l1 -> StronglySorted Z.le l2 ->
  (forall x y, In x l1 -> In y l2 -> x <= y) ->
  StronglySorted Z.le (l1 ++ l2).
Proof.
  induction l1 as [|a l1 IH]; simpl; intros H1 H2 H; [exact H2|].
  inversion H1 as [|? ? S1 F1]; subst. constructor.
  - apply IH; auto.
  - apply Forall_app. split; [exact F1|].
    apply Forall_forall. intros y Hy. apply H; auto.
Qed.

Lemma sorted_prefix (l full : list Z) :
  is_prefix l full -> StronglySorted Z.le full -> StronglySorted Z.le l.
Proof.
  intros [rest ->]. induction l as [|a l IH]; simpl; intros H.
  - constructor.
  - inversion H as [|? ? S F]; subst. constructor; [auto|].
    apply Forall_app in F. tauto.
Qed.

Lemma sorted_map (phi : Z -> Z) (l : list Z) :
  (forall p q, p <= q -> phi p <= phi q) ->
  StronglySorted Z.le l -> StronglySorted Z.le (map phi l).
Proof.
  intros Hphi. induction 1 as [|a l S IH F]; simpl; constructor; auto.
  apply Forall_map. eapply Forall_impl; [|exact F]. simpl. auto.
Qed.

Lemma sorted_ascending (l : list Z) :
  StronglySorted Z.le l -> ascending l = true.
Proof.
  induction 1 as [|a l S IH F]; [reflexivity|].
  destruct l as [|b l]; [reflexivity|].
  change (ascending (a :: b :: l)) with ((a <=? b) && ascending (b :: l)).
  rewrite IH, andb_true_r. apply Z.leb_le.
  inversion F; subst. assumption.
Qed.

Lemma prefix_forall {A} (P : A -> Prop) (l full : list A) :
  is_prefix l full -> Forall P full -> Forall P l.
Proof. intros [rest ->] H. apply Forall_app in H. tauto. Qed.

Lemma rows_table : forallb rows_ok (upto 101) = true.
Proof. vm_compute. reflexivity. Qed.

(** The local progress of the rows of a test set of at most 100 rows. *)
Lemma ratio_rows (total k : Z) :
  0 < total <= 100 -> 0 <= k < total ->
  int_ratio_times (k + 1) total 100 = Ok (ratio (k + 1) total) /\
  0 <= ratio (k + 1) total <= 100 /\
  (0 < k -> ratio k total <= ratio (k + 1) total).
Proof.
  intros Ht Hk. pose proof rows_table as T.
  rewrite forallb_forall in T.
  specialize (T total (in_upto 101 total ltac:(lia))).
  unfold rows_ok in T. rewrite forallb_forall in T.
  specialize (T k (in_upto (Z.to_nat total) k ltac:(lia))).
  destruct (int_ratio_times (k + 1) total 100) as [a|e] eqn:E;
    [|discriminate].
  assert (Ek : ratio (k + 1) total = a) by (unfold ratio; now rewrite E).
  rewrite Ek.
  repeat rewrite andb_true_iff in T. destruct T as [[A B] C].
  apply Z.leb_le in A, B. split; [reflexivity|]. split; [lia|].
  intros Hpos. apply orb_true_iff in C. destruct C as [C|C].
  - apply Z.eqb_eq in C. lia.
  - now apply Z.leb_le in C.
Qed.

Lemma ratio_mono (total : Z) (i j : nat) :
  0 < total <= 100 ->
  (1 <= i <= j)%nat -> Z.of_nat j <= total ->
  ratio (Z.of_nat i) total <= ratio (Z.of_nat j) total.
Proof.
  intros Ht Hij Hj. induction j as [|j IH]; [lia|].
  destruct (Nat.eq_dec i (S j)) as [->|Hne]; [lia|].
  transitivity (ratio (Z.of_nat j) total); [apply IH; lia|].
  replace (Z.of_nat (S j)) with (Z.of_nat j + 1) by lia.
  apply (ratio_rows total (Z.of_nat j)); lia.
Qed.

Lemma scaled_mono (start end_ p q : Z) :
  p <= q -> scaled start end_ p <= scaled start end_ q.
Proof.
  intros H. unfold scaled. rewrite !scaled_value_clamped.
  set (s := Z.max 0 (Z.min start 100)).
  set (e := Z.max s (Z.min end_ 100)).
  assert (Hs : 0 <= e - s <= 100) by (unfold e, s; lia).
  pose proof (share_mono (e - s) (Z.max 0 (Z.min p 100))
                (Z.max 0 (Z.min q 100)) Hs ltac:(lia) ltac:(lia)). lia.
Qed.

Lemma scaled_within (start end_ p : Z) :
  0 <= start <= end_ -> end_ <= 100 ->
  start <= scaled start end_ p <= end_.
Proof.
  intros H1 H2. unfold scaled. rewrite scaled_value_clamped.
  replace (Z.max 0 (Z.min start 100)) with start by lia.
  replace (Z.max start (Z.min end_ 100)) with end_ by lia.
  pose proof (share_range (end_ - start) (Z.max 0 (Z.min p 100))
                ltac:(lia) ltac:(lia)). lia.
Qed.

Lemma row_locals_sorted (total index count : nat) :
  (0 < total <= 100)%nat -> (index + count <= total)%nat ->
  StronglySorted Z.le (row_locals (Z.of_nat total) index count) /\
  Forall (fun x => 25 <= x <= 80) (row_locals (Z.of_nat total) index count).
Proof.
  intros Ht. revert index. unfold row_locals.
  induction count as [|count IH]; simpl; intros index Hi.
  - split; constructor.
  - destruct (IH (S index) ltac:(lia)) as [Hs Hf]. split.
    + constructor; [exact Hs|]. apply Forall_forall. intros y Hy.
      apply in_map_iff in Hy. destruct Hy as (k & <- & Hk).
      apply in_seq in Hk. rewrite !row_local_eq. apply scaled_mono.
      replace (Z.of_nat index + 1) with (Z.of_nat (S index)) by lia.
      replace (Z.of_nat k + 1) with (Z.of_nat (S k)) by lia.
      apply ratio_mono; lia.
    + constructor; [|exact Hf]. rewrite row_local_eq.
      apply scaled_within; lia.
Qed.

(** What [_evaluate_mode] tells its progress callback is in ascending
    order, from 5 to 98, for a test set of at most 100 rows. *)
Lemma full_locals_sorted (total : nat) :
  (total <= 100)%nat ->
  StronglySorted Z.le (full_locals total) /\
  Forall (fun x => 5 <= x <= 98) (full_locals total).
Proof.
  intros Ht. unfold full_locals.
  assert (R : StronglySorted Z.le (row_locals (Z.of_nat total) 0 total) /\
              Forall (fun x => 25 <= x <= 80)
                (row_locals (Z.of_nat total) 0 total)).
  { destruct total as [|total]; [split; constructor|].
    apply row_locals_sorted; lia. }
  destruct R as [Hs F]. rewrite Forall_forall in F. split.
  - apply (sorted_app [5; 15; 25]).
    + repeat constructor; lia.
    + apply sorted_app; [exact Hs| |].
      * repeat constructor; lia.
      * intros x y Hx [<-|[<-|[]]]; specialize (F x Hx); lia.
    + intros x y Hx Hy. apply in_app_or in Hy.
      assert (25 <= y).
      { destruct Hy as [Hy|[<-|[<-|[]]]]; [|lia|lia].
        specialize (F y Hy). lia. }
      destruct Hx as [<-|[<-|[<-|[]]]]; lia.
  - apply Forall_app. split; [repeat constructor; lia|].
    apply Forall_app. split; [|repeat constructor; lia].
    apply Forall_forall. intros x Hx. specialize (F x Hx). lia.
Qed.

End Ascending.

Section EvaluationReports.

Import Evaluation EvalRun.

Variable env : Env.

Lemma echo_tells (p : Z) : (fun x : Z => Ok x) p = Ok ((fun x => x) p).
Proof. reflexivity. Qed.

Lemma echo_phase_tells (s : string) :
  (fun x : string => Ok x) s = Ok ((fun x => x) s).
Proof. reflexivity. Qed.

(** What a run of one mode tells callbacks that report what they are
    told. *)
Lemma run_mode_echo (mode : Mode) (conclusion : string)
    (sample_size top_k fetch_k : Z) (force_ingest : bool)
    (r : res value) (tr : Trace) :
  run_mode_eval env mode conclusion sample_size top_k fetch_k force_ingest
    echo echo_phase no_trace = (r, tr) ->
  is_prefix (reported tr) (full_locals (rows_count env sample_size)) /\
  is_prefix (phases tr) five_phases /\
  (forall result_,
      r = Ok result_ ->
      reported tr = full_locals (rows_count env sample_size) /\
      phases tr = five_phases).
Proof.
  intros H.
  destruct (run_mode_trace env _ _ echo_tells _ _ echo_phase_tells
              _ _ _ _ _ _ _ _ _ H)
    as (locals & labels & R & P & A & B & F).
  simpl in R, P. rewrite map_id in R, P. rewrite R, P.
  split; [exact A|]. split; [exact B|]. exact F.
Qed.

Lemma run_compare_echo (sample_size top_k fetch_k : Z)
    (force_ingest : bool) (r : res value) (tr : Trace) :
  run_compare_eval env sample_size top_k fetch_k force_ingest
    echo echo_phase no_trace = (r, tr) ->
  (exists first_ second_,
      reported tr
      = (map (scaled 5 49) first_ ++ map (scaled 50 95) second_)%list /\
      is_prefix first_ (full_locals (rows_count env sample_size)) /\
      is_prefix second_ (full_locals (rows_count env sample_size))) /\
  is_prefix (phases tr) compare_phases /\
  (forall result_, r = Ok result_ -> phases tr = compare_phases).
Proof.
  intros H.
  destruct (run_compare_trace env _ _ echo_tells _ _ echo_phase_tells
              _ _ _ _ _ _ _ H)
    as (l1 & l2 & labels & R & P & A1 & A2 & B & F).
  simpl in R, P. rewrite map_id in P. rewrite P.
  split; [exists l1, l2; auto|]. split; [exact B|].
  intros result_ E. now destruct (F result_ E) as (_ & _ & ->).
Qed.



End EvaluationReports.

Section EvaluationResult.

Import Evaluation EvalRun.

Variable env : Env.

Ltac step_ok H :=
  apply mbind_run in H;
  destruct H as [(?a & ?tr & ?Hs & H)|(?e & _ & ?E)]; [|discriminate].

Ltac step_as H a t Hs :=
  apply mbind_run in H;
  destruct H as [(a & t & Hs & H)|(?e & _ & ?E)]; [|discriminate].

(** The samples the loop of [_build_eval_samples] adds: one for each row
    that has a question and retrieves a context that is not blank, in the
    order of the rows, numbered on from the samples that are there. *)
Lemma build_loop_result (mode : Mode) (top_k fetch_k total : Z)
    (on_progress : option (callback Z)) (todo : list Row) :
  forall (index : nat) (samples : list Sample)
         (sample_rows : list EvalSampleRow) (tr tr' : Trace)
         (built : list Sample * list EvalSampleRow),
    build_loop env mode top_k fetch_k on_progress total index todo samples
      sample_rows tr = (Ok built, tr') ->
    exists more_samples more_rows,
      fst built = (samples ++ more_samples)%list /\
      snd built = (sample_rows ++ more_rows)%list /\
      map s_user_input more_samples
      = map user_input (filter (gives_sample env mode top_k fetch_k) todo) /\
      map query more_rows
      = map user_input (filter (gives_sample env mode top_k fetch_k) todo) /\
      map sample_id more_rows
      = map sample_name
          (seq (S (List.length samples)) (List.length more_rows)) /\
      Forall (fun s => s_retrieved_contexts s <> [] /\
                       Forall (fun ctx => is_blank env ctx = false)
                         (s_retrieved_contexts s)) more_samples.
Proof.
  induction todo as [|row rest IH]; simpl;
    intros index samples sample_rows tr tr' built H.
  - unfold ret in H. injection H as <- <-. exists [], [].
    simpl. rewrite !app_nil_r. repeat split; constructor.
  - step_ok H. cbv zeta in H.
    destruct (String.eqb (user_input row) "") eqn:Eq.
    + assert (G : gives_sample env mode top_k fetch_k row = false)
        by (unfold gives_sample; now rewrite Eq).
      rewrite G. eapply IH; eauto.
    + step_ok H. unfold lift in Hs0. injection Hs0 as Hr _.
      destruct (contexts_of env a0) as [|ctx ctxs] eqn:Ec.
      * assert (G : gives_sample env mode top_k fetch_k row = false)
          by (unfold gives_sample; now rewrite Eq, Hr, Ec).
        rewrite G. eapply IH; eauto.
      * assert (G : gives_sample env mode top_k fetch_k row = true)
          by (unfold gives_sample; now rewrite Eq, Hr, Ec).
        rewrite G. step_ok H.
        destruct (IH _ _ _ _ _ _ H)
          as (more_samples & more_rows & A & B & C & D & E & F).
        rewrite length_app in E. simpl in E.
        eexists (_ :: more_samples), (_ :: more_rows).
        split; [rewrite A, <- app_assoc; reflexivity|].
        split; [rewrite B, <- app_assoc; reflexivity|].
        simpl. rewrite C, D, E, length_app. simpl.
        split; [reflexivity|]. split; [reflexivity|].
        split.
        { replace (Datatypes.length samples + 1)%nat
            with (S (Datatypes.length samples)) by lia. reflexivity. }
        constructor; [|exact F]. simpl. rewrite <- Ec.
        split; [rewrite Ec; discriminate|].
        unfold contexts_of. apply Forall_map, Forall_forall.
        intros hit Hhit. apply filter_In in Hhit.
        destruct Hhit as [_ Hb]. now apply negb_true_iff in Hb.
Qed.

Lemma format_samples_json_safe (score_ : EvalScore)
    (sample_rows : list EvalSampleRow) :
  forallb json_safe (map (format_sample score_) sample_rows) = true.
Proof.
  induction sample_rows as [|row rows IH]; simpl; [reflexivity|].
  rewrite IH, !andb_true_r.
  induction (retrieved_sources row) as [|s l IHl]; simpl; auto.
Qed.

Lemma run_eval_mode (mode : Mode) :
  run_eval mode env = run_mode_eval env mode (conclusion_of mode).
Proof. destruct mode; reflexivity. Qed.


End EvaluationResult.

Section EvaluationFails.

Import Evaluation EvalRun.

Variable env : Env.

(** The loop over rows that give no sample: it goes through, and adds
    nothing. *)
Lemma build_loop_none (mode : Mode) (top_k fetch_k : Z) (total : nat)
    (todo : list Row) :
  (0 < total <= 100)%nat ->
  (forall row, In row todo -> user_input row <> "" ->
               exists hits,
                 retrieve env mode (user_input row) top_k fetch_k
                 = Ok hits) ->
  filter (gives_sample env mode top_k fetch_k) todo = [] ->
  forall (index : nat) (samples : list Sample)
         (sample_rows : list EvalSampleRow) (tr : Trace),
    (index + List.length todo <= total)%nat ->
    exists tr',
      build_loop env mode top_k fetch_k (_map_progress echo 25 80)
        (Z.of_nat total) index todo samples sample_rows tr
      = (Ok (samples, sample_rows), tr') /\
      phases tr' = phases tr.
Proof.
  intros Ht. induction todo as [|row rest IH]; simpl;
    intros Hret Hnone index samples sample_rows tr Hi.
  - eexists. split; reflexivity.
  - destruct (gives_sample env mode top_k fetch_k row) eqn:G;
      [discriminate|].
    destruct (ratio_rows (Z.of_nat total) (Z.of_nat index)
                ltac:(lia) ltac:(lia)) as (Er & _).
    unfold mbind at 1. unfold report_row. simpl.
    unfold mbind at 1. unfold lift at 1. rewrite Er.
    unfold tell_progress. rewrite scaled_eq. simpl.
    match goal with
    | |- context [ {| reported := ?r; phases := ?p |} ] =>
        set (tr1 := {| reported := r; phases := p |})
    end.
    assert (Next : exists tr',
               build_loop env mode top_k fetch_k
                 (Some (fun local_progress : Z =>
                          v <- scaled_value 25 80 local_progress ;; Ok v))
                 (Z.of_nat total) (S index) rest samples sample_rows tr1
               = (Ok (samples, sample_rows), tr') /\
               phases tr' = phases tr).
    { destruct (IH ltac:(auto) Hnone (S index) samples sample_rows tr1
                  ltac:(lia)) as (tr' & E & P).
      exists tr'. split; [exact E|]. rewrite P. reflexivity. }
    unfold gives_sample in G.
    destruct (String.eqb (user_input row) "") eqn:Eq; [exact Next|].
    simpl in G.
    destruct (Hret row ltac:(auto)) as [hits Hhits].
    { intros E. rewrite E in Eq. discriminate. }
    unfold mbind at 1. unfold lift at 1. rewrite Hhits in G |- *.
    destruct (contexts_of env hits); [exact Next | discriminate].
Qed.


End EvaluationFails.

Section EvaluationWitnesses.

Import Evaluation EvalRun.






Example sample_eval_samples :
  value_get sample_eval_result "samples"
  = VList [format_sample
             {| faithfulness := S754_zero false;
                context_precision := S754_zero false;
                context_recall := S754_zero false |}
             {| sample_id := "sample-001"; query := "What is a locator?";
                expected_source := "ragas_reference";
                retrieved_sources := ["docs/locators.md"] |};
           format_sample
             {| faithfulness := S754_zero false;
                context_precision := S754_zero false;
                context_recall := S754_zero false |}
             {| sample_id := "sample-002"; query := "How to wait?";
                expected_source := "ragas_reference";
                retrieved_sources := ["docs/locators.md"] |}].
Proof. vm_compute. reflexivity. Qed.

End EvaluationWitnesses.
